(** * Current batch location: a shallow embedding of [backend/batch_api_working.py]

    The module locates seven parquet snapshots in blob storage, reads them
    defensively, picks the current step of every run and projects one JSON
    record per resolved row.  The embedding follows the Python text function by
    function and keeps its names.

    Conventions.
    - A numeric cell (after [pd.to_numeric(errors="coerce")]) is an [option Z]:
      [None] is NaN/NA.  Instants and durations are nanosecond counts in [Z],
      [None] is NaT.
    - A raised Python exception is the [Raises] case of [outcome]: the
      [KeyError] of looking a column up in a frame that lacks it and the
      [OverflowError] of a date plus a time are raised where the code meets
      them.  Cells are modelled after coercion, so the typed rows of a table
      say what its cells hold and [Headers] says which columns it carries.
    - Frames of the resolver keep their rows in row order; the row labels are
      the default range index, so label selection ([loc]) and positional
      selection coincide.
    - [dbg] only prints; it is not part of the model. *)

From Stdlib Require Import ZArith String Ascii Lia.
From stdpp Require Import base option list sorting gmap strings pretty.

Local Open Scope string_scope.
Local Open Scope Z_scope.

(** ** Python outcomes: a value or a raised exception *)

Inductive outcome (A : Type) : Type :=
  | Returns (a : A)
  | Raises.
Arguments Returns {A} a.
Arguments Raises {A}.

Global Instance outcome_ret : MRet outcome := λ A, Returns.
Global Instance outcome_bind : MBind outcome :=
  λ A B f m, match m with Returns a => f a | Raises => Raises end.
Global Instance outcome_fmap : FMap outcome :=
  λ A B f m, match m with Returns a => Returns (f a) | Raises => Raises end.

(** [try: body except Exception: handler] for a handler that cannot raise. *)
Definition try_except {A} (body : outcome A) (handler : A) : A :=
  match body with Returns a => a | Raises => handler end.

(** [l[i]] for a non-negative index: IndexError out of range. *)
Definition py_index {A} (l : list A) (i : nat) : outcome A :=
  match l !! i with Some x => Returns x | None => Raises end.

(** [df.iloc[[-1]]]: the one-row frame of the last row, IndexError on an
    empty frame. *)
Definition iloc_last {A} (l : list A) : outcome (list A) :=
  match last l with Some x => Returns [x] | None => Raises end.

(** ** The pandas operations the module relies on *)

Definition notna {A} (x : option A) : bool :=
  match x with Some _ => true | None => false end.
Definition isna {A} (x : option A) : bool := negb (notna x).

(** Comparison of two cells of one sort key.  [na_position="last"] (the
    default) puts a missing key after every number, whatever the direction. *)
Definition key_compare (ascending : bool) (a b : option Z) : comparison :=
  match a, b with
  | None, None => Eq
  | None, Some _ => Gt
  | Some _, None => Lt
  | Some x, Some y => if ascending then x ?= y else y ?= x
  end.

(** A sort key: the column and its direction. *)
Definition sort_key (R : Type) : Type := ((R → option Z) * bool)%type.

Fixpoint lex_compare {R} (by_ : list (sort_key R)) (a b : R) : comparison :=
  match by_ with
  | [] => Eq
  | (col, asc) :: rest =>
      match key_compare asc (col a) (col b) with
      | Eq => lex_compare rest a b
      | c => c
      end
  end.

Definition lex_leb {R} (by_ : list (sort_key R)) (a b : R) : bool :=
  match lex_compare by_ a b with Gt => false | _ => true end.

(** [sort_values(by, ascending, kind="stable")]: a stable sort; rows that
    compare equal keep their original relative order. *)
Fixpoint insert_sorted {R} (leb : R → R → bool) (x : R) (l : list R) : list R :=
  match l with
  | [] => [x]
  | y :: l' => if leb x y then x :: l else y :: insert_sorted leb x l'
  end.

Definition sort_values {R} (by_ : list (sort_key R)) (df : list R) : list R :=
  foldr (insert_sorted (lex_leb by_)) [] df.

(** [drop_duplicates(subset, keep="first")]: walk the rows in order and keep
    a row when its key was not seen before (NaN keys count as equal). *)
Fixpoint drop_duplicates_from {R K} `{EqDecision K}
    (subset : R → K) (seen : list K) (df : list R) : list R :=
  match df with
  | [] => []
  | r :: df' =>
      if decide (subset r ∈ seen) then drop_duplicates_from subset seen df'
      else r :: drop_duplicates_from subset (subset r :: seen) df'
  end.

Definition drop_duplicates {R K} `{EqDecision K} (subset : R → K) (df : list R) : list R :=
  drop_duplicates_from subset [] df.

(** [Series.idxmax()]: position of the first occurrence of the maximum,
    missing values skipped.  [best] is the running (position, value). *)
Fixpoint idxmax_from (i : nat) (best : option (nat * Z)) (s : list (option Z)) : option nat :=
  match s with
  | [] => fst <$> best
  | None :: s' => idxmax_from (S i) best s'
  | Some v :: s' =>
      match best with
      | Some (_, b) =>
          if b <? v then idxmax_from (S i) (Some (i, v)) s'
          else idxmax_from (S i) best s'
      | None => idxmax_from (S i) (Some (i, v)) s'
      end
  end.

(** On an all-missing series [idxmax] has no position to return. *)
Definition idxmax (s : list (option Z)) : outcome nat :=
  match idxmax_from 0 None s with Some i => Returns i | None => Raises end.

(** [g.loc[[label]]] on the range index. *)
Definition loc_one {A} (g : list A) (i : nat) : outcome (list A) :=
  x ← py_index g i; Returns [x].

(** [left.merge(right, how="left", ...)]: every left row in order, once per
    matching right row (in right order), or once with the right side missing.
    Missing keys match missing keys. *)
Definition merge_left {L R K J} `{EqDecision K}
    (left_on : L → K) (right_on : R → K) (join : L → option R → J)
    (left : list L) (right : list R) : list J :=
  flat_map (λ l,
    match filter (λ r, right_on r = left_on l) right with
    | [] => [join l None]
    | ms => (λ r, join l (Some r)) <$> ms
    end) left.

(** [df.groupby(key).apply(f)]: groups are the distinct non-missing keys in
    ascending order, each with its rows in frame order; the results are
    concatenated.  With no group [f] is not called (pandas 2) and the result
    is the empty frame. *)
Definition group_keys {R} (key : R → option Z) (rows : list R) : list Z :=
  sort_values [(Some, true)] (drop_duplicates id (omap key rows)).

Definition get_group {R} (key : R → option Z) (rows : list R) (k : Z) : list R :=
  filter (λ r, key r = Some k) rows.

Definition groupby_apply {R} (key : R → option Z)
    (f : list R → outcome (list R)) (rows : list R) : outcome (list R) :=
  mjoin <$> mapM (λ k, f (get_group key rows k)) (group_keys key rows).

(** [rs[["finished_at", "started_at"]].max(axis=1)]: the row-wise maximum,
    missing cells skipped; missing when every cell is. *)
Definition row_max (cells : list (option Z)) : option Z :=
  foldr (λ x acc,
    match x, acc with
    | Some a, Some b => Some (Z.max a b)
    | Some a, None => Some a
    | None, _ => acc
    end) None cells.

(** A frame: the column names it carries and its rows. *)
Record Frame (R : Type) : Type := mkFrame { columns : list string; rows : list R }.
Arguments mkFrame {R} columns rows.
Arguments columns {R} _.
Arguments rows {R} _.

(** ** Text helpers *)

Definition is_digit (c : ascii) : bool :=
  let n := nat_of_ascii c in ((48 <=? n) && (n <=? 57))%nat.

Fixpoint str_filter (keep : ascii → bool) (s : string) : string :=
  match s with
  | EmptyString => EmptyString
  | String c s' => if keep c then String c (str_filter keep s') else str_filter keep s'
  end.

(** [.str.replace(r"[^\d:]", "", regex=True)] on ASCII text. *)
Definition strip_non_time (s : string) : string :=
  str_filter (λ c, is_digit c || Ascii.eqb c ":"%char) s.

(** ** run_step rows *)

(** The columns of [rs_cols_desired], numeric ones already coerced. *)
Record RawStep : Type := mkRawStep {
  rs_RunId : option Z;
  rs_ProcessModuleId : option Z;
  rs_Sequence : option Z;
  rs_StartDate : option string;
  rs_StartTime : option string;
  rs_FinishDate : option string;
  rs_FinishTime : option string;
  rs_batch_index : option Z;
  rs_fragment_index : option Z
}.

(** A row of [rs] once the derived columns are attached. *)
Record StepRow : Type := mkStepRow {
  step_raw : RawStep;
  started_at : option Z;
  finished_at : option Z;
  status : option string;
  updated_at : option Z
}.

Definition set_status (v : option string) (r : StepRow) : StepRow :=
  mkStepRow (step_raw r) (started_at r) (finished_at r) v (updated_at r).
Definition set_updated_at (v : option Z) (r : StepRow) : StepRow :=
  mkStepRow (step_raw r) (started_at r) (finished_at r) (status r) v.

Definition RunId (r : StepRow) : option Z := rs_RunId (step_raw r).
Definition ProcessModuleId (r : StepRow) : option Z := rs_ProcessModuleId (step_raw r).
Definition Sequence (r : StepRow) : option Z := rs_Sequence (step_raw r).

(** The text cell of a raw row under a column name. *)
Definition text_column (name : string) (r : RawStep) : option string :=
  if decide (name = "StartDate") then rs_StartDate r
  else if decide (name = "StartTime") then rs_StartTime r
  else if decide (name = "FinishDate") then rs_FinishDate r
  else if decide (name = "FinishTime") then rs_FinishTime r
  else None.

(** The numeric cell of a row under a column name. *)
Definition numeric_column (name : string) (r : StepRow) : option Z :=
  if decide (name = "__batch_index") then rs_batch_index (step_raw r)
  else if decide (name = "__fragment_index") then rs_fragment_index (step_raw r)
  else if decide (name = "Sequence") then Sequence r
  else if decide (name = "RunId") then RunId r
  else if decide (name = "ProcessModuleId") then ProcessModuleId r
  else None.

(** [_coalesce_by_name]: an all-missing series when the frame does not carry
    the column, the column otherwise.  A typed row holds one cell per name, so
    the back-fill across same-named columns has nothing to merge. *)
Definition _coalesce_by_name (df : Frame RawStep) (name : string) : list (option string) :=
  if decide (name ∈ columns df) then text_column name <$> rows df
  else (λ _, None) <$> rows df.

(** Instants and durations are int64 counts of nanoseconds. *)
Definition int64_min : Z := - 2 ^ 63.
Definition int64_max : Z := 2 ^ 63 - 1.

(** [d + t] on one row: NaT as soon as one side is NaT; otherwise the two
    int64 counts are added with an overflow check, and a sum outside int64
    raises ([OverflowError]).  A parsed date lies above [int64_min], the bit
    pattern of NaT, and a parsed time-of-day is not negative (its sign is
    stripped with every other character that is neither digit nor colon), so
    a sum never lands on that pattern. *)
Definition add_instant (d t : option Z) : outcome (option Z) :=
  match d, t with
  | Some a, Some b =>
      if (a + b <? int64_min) || (int64_max <? a + b) then Raises
      else Returns (Some (a + b))
  | _, _ => Returns None
  end.

Section Timestamps.
(** [pd.to_datetime(x, errors="coerce")] followed by [tz_localize(None)] and
    [pd.to_timedelta(x, errors="coerce")] on one text cell: the parsed
    nanoseconds, or [None] (NaT) when pandas cannot parse the text. *)
Variable to_datetime : string → option Z.
Variable to_timedelta : string → option Z.

(** Lines 264-268.  The sum [d + t] is taken over the whole column: one row
    that overflows raises for the column. *)
Definition _combine_dt (date_like time_like : list (option string))
    : outcome (list (option Z)) :=
  let d := (λ c, c ≫= to_datetime) <$> date_like in
  let t := (λ c, to_timedelta (strip_non_time (default "00:00:00" c))) <$> time_like in
  mapM (λ dt, add_instant dt.1 dt.2) (zip d t).

(** Lines 290-296: the two instants of every row. *)
Definition add_timestamps (rs : Frame RawStep) : outcome (list StepRow) :=
  let NaT := (λ _, None) <$> rows rs in
  sf ← (if decide ("StartDate" ∈ columns rs ∧ "FinishDate" ∈ columns rs) then
          started ← _combine_dt (_coalesce_by_name rs "StartDate")
                                (_coalesce_by_name rs "StartTime");
          finished ← _combine_dt (_coalesce_by_name rs "FinishDate")
                                 (_coalesce_by_name rs "FinishTime");
          Returns (started, finished)
        else Returns (NaT, NaT));
  Returns (zip_with (λ r sf, mkStepRow r sf.1 sf.2 None None) (rows rs) (zip sf.1 sf.2)).
End Timestamps.

(** [rs.loc[mask, "status"] = value] *)
Definition loc_set_status (mask : StepRow → bool) (value : string) (rs : list StepRow)
    : list StepRow :=
  (λ r, if mask r then set_status (Some value) r else r) <$> rs.

(** Lines 298-302: the status of each row and its [updated_at]. *)
Definition assign_status (rs : list StepRow) : list StepRow :=
  let rs := set_status None <$> rs in
  let rs := loc_set_status (λ r, notna (finished_at r)) "Completed" rs in
  let rs := loc_set_status (λ r, notna (started_at r) && isna (finished_at r))
              "In Progress" rs in
  let rs := loc_set_status (λ r, isna (started_at r) && isna (finished_at r))
              "Not Started" rs in
  (λ r, set_updated_at (row_max [finished_at r; started_at r]) r) <$> rs.

(** Lines 304-312. *)
Definition _pick_current (g : Frame StepRow) : outcome (list StepRow) :=
  if existsb (λ r, notna (updated_at r)) (rows g) then
    i ← idxmax (updated_at <$> rows g); loc_one (rows g) i
  else
    let sk := filter (λ c, c ∈ columns g) ["__batch_index"; "__fragment_index"] in
    if bool_decide (sk ≠ []) then
      iloc_last (sort_values ((λ c, (numeric_column c, true)) <$> sk) (rows g))
    else if bool_decide ("Sequence" ∈ columns g)
            && existsb (λ r, notna (Sequence r)) (rows g) then
      i ← idxmax (Sequence <$> rows g); loc_one (rows g) i
    else iloc_last (rows g).

(** Lines 314-315: one application of [_pick_current] per run.  Grouping on
    a column the frame does not carry raises ([KeyError]). *)
Definition current_step (rs : Frame StepRow) : outcome (list StepRow) :=
  if bool_decide ("RunId" ∈ columns rs) then
    groupby_apply RunId (λ g, _pick_current (mkFrame (columns rs) g)) (rows rs)
  else Raises.

(** ** The other six tables, as typed rows *)

Record RunRow : Type := mkRunRow {
  run_RunId : option Z;
  run_Label : option string;
  run_Name : option string;
  run_Motivation : option string;
  run_Status : option string;
  run_RunTypeId : option Z
}.

Record PmRow : Type := mkPmRow {
  pm_Id : option Z;
  pm_ProcessId : option Z;
  pm_ModuleId : option Z
}.

Record ProcessRow : Type := mkProcessRow {
  proc_ProcessId : option Z;
  proc_ProcessName : option string;
  proc_CategoryId : option Z
}.

Record CategoryRow : Type := mkCategoryRow {
  cat_CategoryId : option Z;
  cat_CategoryName : option string
}.

Record PtcRow : Type := mkPtcRow {
  ptc_TypeId : option Z;
  ptc_CategoryId : option Z
}.

Record PTypeRow : Type := mkPTypeRow {
  ptype_ProcessTypeId : option Z;
  ptype_ProcessTypeName : option string
}.

Global Instance PtcRow_eq_dec : EqDecision PtcRow.
Proof. solve_decision. Defined.

(** Lines 241-244: one representative row per [Id], a row with a
    [ProcessId] preferred.  [_score] is the helper column, computed per row. *)
Definition _score (r : PmRow) : option Z :=
  Some (if notna (pm_ProcessId r) then 1 else 0).

Definition pm_by_module (pm_raw : list PmRow) : list PmRow :=
  drop_duplicates pm_Id (sort_values [(pm_Id, true); (_score, false)] pm_raw).

(** ** strip_html *)

(** [re.sub(r"<[^>]+>", "", s)]: scanning left to right, [tag] holds the text
    read since an unmatched ['<'].  A ['>'] closes the tag when at least one
    character was read; text after a ['<'] that is never closed is kept. *)
Fixpoint sub_tags (tag : option string) (s : string) : string :=
  match s, tag with
  | EmptyString, None => EmptyString
  | EmptyString, Some buf => String "<"%char buf
  | String c s', None =>
      if Ascii.eqb c "<"%char then sub_tags (Some EmptyString) s'
      else String c (sub_tags None s')
  | String c s', Some buf =>
      if Ascii.eqb c ">"%char then
        match buf with
        | EmptyString => String "<"%char (String ">"%char (sub_tags None s'))
        | _ => sub_tags None s'
        end
      else sub_tags (Some (buf ++ String c EmptyString)%string) s'
  end.

Definition is_space (c : ascii) : bool :=
  let n := nat_of_ascii c in
  (((9 <=? n) && (n <=? 13)) || ((28 <=? n) && (n <=? 32)))%nat.

Fixpoint lstrip (s : string) : string :=
  match s with
  | String c s' => if is_space c then lstrip s' else s
  | EmptyString => EmptyString
  end.

Fixpoint rstrip (s : string) : string :=
  match s with
  | EmptyString => EmptyString
  | String c s' =>
      match rstrip s' with
      | EmptyString => if is_space c then EmptyString else String c EmptyString
      | t => String c t
      end
  end.

Definition strip (s : string) : string := rstrip (lstrip s).

Definition strip_html (s : option string) : option string :=
  match s with
  | None => None
  | Some text => Some (strip (sub_tags None text))
  end.

(** The text holds no occurrence of the character. *)
Fixpoint lacks (x : ascii) (s : string) : Prop :=
  match s with
  | EmptyString => True
  | String c s' => c ≠ x ∧ lacks x s'
  end.

(** The text does not begin with white space. *)
Definition no_leading_space (s : string) : Prop :=
  match s with
  | EmptyString => True
  | String c _ => is_space c = false
  end.

(** ** Name resolution for the selected rows (lines 318-334) *)

(** A row of [c5]: the selected step and the right-hand row each merge
    attached to it ([None] where the key found no match). *)
Record LocRow : Type := mkLocRow {
  loc_step : StepRow;
  loc_pm : option PmRow;
  loc_process : option ProcessRow;
  loc_category : option CategoryRow;
  loc_ptc : option PtcRow;
  loc_ptype : option PTypeRow;
  loc_run : option RunRow
}.

Definition loc_RunId (r : LocRow) : option Z := RunId (loc_step r).
Definition loc_ProcessId (r : LocRow) : option Z := loc_pm r ≫= pm_ProcessId.
Definition loc_ProcessName (r : LocRow) : option string := loc_process r ≫= proc_ProcessName.
Definition loc_CategoryId (r : LocRow) : option Z := loc_process r ≫= proc_CategoryId.
Definition loc_CategoryName (r : LocRow) : option string := loc_category r ≫= cat_CategoryName.
Definition loc_TypeId (r : LocRow) : option Z := loc_ptc r ≫= ptc_TypeId.
Definition loc_ProcessTypeName (r : LocRow) : option string :=
  loc_ptype r ≫= ptype_ProcessTypeName.
Definition loc_Label (r : LocRow) : option string := loc_run r ≫= run_Label.
Definition loc_RunName (r : LocRow) : option string := loc_run r ≫= run_Name.
Definition loc_Motivation (r : LocRow) : option string := loc_run r ≫= run_Motivation.
Definition loc_Status (r : LocRow) : option string := loc_run r ≫= run_Status.
Definition loc_MotivationText (r : LocRow) : option string := strip_html (loc_Motivation r).

Definition with_pm (l : StepRow) (r : option PmRow) : LocRow :=
  mkLocRow l r None None None None None.
Definition with_process (l : LocRow) (r : option ProcessRow) : LocRow :=
  mkLocRow (loc_step l) (loc_pm l) r None None None None.
Definition with_category (l : LocRow) (r : option CategoryRow) : LocRow :=
  mkLocRow (loc_step l) (loc_pm l) (loc_process l) r None None None.
Definition with_ptc (l : LocRow) (r : option PtcRow) : LocRow :=
  mkLocRow (loc_step l) (loc_pm l) (loc_process l) (loc_category l) r None None.
Definition with_ptype (l : LocRow) (r : option PTypeRow) : LocRow :=
  mkLocRow (loc_step l) (loc_pm l) (loc_process l) (loc_category l) (loc_ptc l) r None.
Definition with_run (l : LocRow) (r : option RunRow) : LocRow :=
  mkLocRow (loc_step l) (loc_pm l) (loc_process l) (loc_category l) (loc_ptc l) (loc_ptype l) r.

(** The seven tables as loaded by step 2, before any deduplication. *)
Record Tables : Type := mkTables {
  t_run : list RunRow;
  t_run_step : Frame RawStep;
  t_process_module : list PmRow;
  t_process : list ProcessRow;
  t_process_category : list CategoryRow;
  t_process_type_category : list PtcRow;
  t_process_type : list PTypeRow
}.

Definition resolve_names (T : Tables) (current_step : list StepRow) : list LocRow :=
  let run := drop_duplicates run_RunId (t_run T) in
  let process_tbl := drop_duplicates proc_ProcessId (t_process T) in
  let process_category := drop_duplicates cat_CategoryId (t_process_category T) in
  let process_type_category := drop_duplicates id (t_process_type_category T) in
  let process_type := drop_duplicates ptype_ProcessTypeId (t_process_type T) in
  let c1 := merge_left ProcessModuleId pm_Id with_pm current_step
              (pm_by_module (t_process_module T)) in
  let c2 := merge_left loc_ProcessId proc_ProcessId with_process c1 process_tbl in
  let c3 := merge_left loc_CategoryId cat_CategoryId with_category c2 process_category in
  let c4 := merge_left loc_CategoryId ptc_CategoryId with_ptc c3 process_type_category in
  let c5 := merge_left loc_TypeId ptype_ProcessTypeId with_ptype c4 process_type in
  let run_names := drop_duplicates run_RunId run in
  merge_left loc_RunId run_RunId with_run c5 run_names.

(** Lines 345-347. *)
Definition current_location (c5 : list LocRow) : list LocRow :=
  sort_values [(loc_RunId, false)] c5.

(** ** The JSON record of one resolved row (lines 353-367) *)

Record Batch : Type := mkBatch {
  batch_id : Z;
  batch_number : string;
  batch_name : string;
  batch_status : string;
  motivation : string;
  process_name : string;
  category_name : string;
  process_type_name : string;
  process_status : string;
  started_at_text : string;
  finished_at_text : string
}.

Section Projector.
(** [str] of a pandas timestamp. *)
Variable timestamp_str : Z → string.

Definition to_batch (row : LocRow) : Batch :=
  {| batch_id := match loc_RunId row with Some v => v | None => 0 end;
     batch_number := match loc_Label row with Some v => v | None => "" end;
     batch_name := match loc_RunName row with Some v => v | None => "Unknown" end;
     batch_status := match loc_Status row with Some v => v | None => "" end;
     motivation := match loc_MotivationText row with Some v => v | None => "" end;
     process_name := match loc_ProcessName row with Some v => v | None => "" end;
     category_name := match loc_CategoryName row with Some v => v | None => "" end;
     process_type_name := match loc_ProcessTypeName row with Some v => v | None => "" end;
     process_status := match status (loc_step row) with Some v => v | None => "Unknown" end;
     started_at_text :=
       match started_at (loc_step row) with Some v => timestamp_str v | None => "" end;
     finished_at_text :=
       match finished_at (loc_step row) with Some v => timestamp_str v | None => "" end |}.

Definition batches_of (current_location : list LocRow) : list Batch :=
  to_batch <$> current_location.
End Projector.

(** ** Column lookups that raise *)

(** The column names of the frames of step 2 as the joins see them, after
    the renames of lines 206-231; [h_run_step] belongs to the first read of
    run_step.  The typed rows of [Tables] hold the cells, these hold which
    columns the files carried.  The columns of [rs] are those of
    [t_run_step]. *)
Record Headers : Type := mkHeaders {
  h_run : list string;
  h_run_step : list string;
  h_process_module : list string;
  h_process : list string;
  h_process_category : list string;
  h_process_type_category : list string;
  h_process_type : list string
}.

(** The headers when every file carries every requested column. *)
Definition requested_headers : Headers :=
  mkHeaders ["RunId"; "Label"; "Name"; "Motivation"; "Status"; "RunTypeId"]
            ["RunId"; "ProcessModuleId"]
            ["Id"; "ProcessId"; "ModuleId"]
            ["ProcessId"; "ProcessName"; "CategoryId"]
            ["CategoryId"; "CategoryName"]
            ["TypeId"; "CategoryId"]
            ["ProcessTypeId"; "ProcessTypeName"].

(** [df.rename(columns=mapping)] on the column names. *)
Definition rename (mapping : list (string * string)) (cols : list string) : list string :=
  (λ c, from_option snd c (head (filter (λ m, m.1 = c) mapping))) <$> cols.

(** Looking up the columns [wanted] in a frame whose columns are [have]:
    [KeyError] as soon as one is missing.  This is [df[wanted]],
    [drop_duplicates(subset=wanted)], [sort_values(wanted)] and the key of a
    merge or of a groupby. *)
Definition require (wanted have : list string) : outcome unit :=
  if forallb (λ c, bool_decide (c ∈ have)) wanted then Returns () else Raises.

(** The columns of [left.merge(right, how="left", on=key)] and of
    [left.merge(right, how="left", left_on=.., right_on=..)].  The frames hold
    requested columns only, so apart from the key no name occurs on both
    sides and no suffix is applied. *)
Definition merge_on (key : string) (left right : list string) : outcome (list string) :=
  _ ← require [key] left;
  _ ← require [key] right;
  Returns (left ++ filter (λ c, c ≠ key) right)%list.

Definition merge_left_right (left_on right_on : string) (left right : list string)
    : outcome (list string) :=
  _ ← require [left_on] left;
  _ ← require [right_on] right;
  Returns (left ++ right)%list.

(** Lines 241-244: the columns of [pm_by_module]; [_score] is read from
    [ProcessId], the sort and the deduplication look up [Id]. *)
Definition pm_by_module_columns (pm_raw : list string) : outcome (list string) :=
  _ ← require ["ProcessId"] pm_raw;
  let scored := (pm_raw ++ ["_score"])%list in
  _ ← require ["Id"; "_score"] scored;
  _ ← require ["Id"] scored;
  Returns pm_raw.

(** Lines 248-253: [j1] .. [j6].  Their rows are never used; what is left
    of them is that each merge looks up its key on both sides. *)
Definition joins (H : Headers) : outcome unit :=
  j1 ← merge_left_right "ProcessModuleId" "Id" (h_run_step H) (h_process_module H);
  j2 ← merge_on "ProcessId" j1 (h_process H);
  j3 ← merge_on "CategoryId" j2 (h_process_category H);
  j4 ← merge_on "CategoryId" j3 (h_process_type_category H);
  j5 ← merge_left_right "TypeId" "ProcessTypeId" j4 (h_process_type H);
  j6 ← merge_on "RunId" j5 (h_run H);
  Returns ().

(** ** Step 3 on loaded tables (lines 290-347) *)

Section Pipeline.
Variable to_datetime : string → option Z.
Variable to_timedelta : string → option Z.
Variable timestamp_str : Z → string.

(** [rs] with its four derived columns. *)
Definition step_frame (T : Tables) : outcome (Frame StepRow) :=
  let rs := t_run_step T in
  stamped ← add_timestamps to_datetime to_timedelta rs;
  Returns (mkFrame (columns rs ++ ["started_at"; "finished_at"; "status"; "updated_at"])
                   (assign_status stamped)).

(** Lines 314-347.  The merges [c1] .. [c5] and the selection of
    [run_names] look their columns up on the headers and raise when one is
    missing; [resolve_names] is what they do to the rows. *)
Definition location_rows (H : Headers) (T : Tables) : outcome (list LocRow) :=
  rs ← step_frame T;
  cs ← current_step rs;
  let pm_cols := ["Id"; "ProcessId"; "ModuleId"] in
  _ ← require pm_cols (h_process_module H);
  c1 ← merge_left_right "ProcessModuleId" "Id" (columns rs) pm_cols;
  c2 ← merge_on "ProcessId" c1 (h_process H);
  c3 ← merge_on "CategoryId" c2 (h_process_category H);
  c4 ← merge_on "CategoryId" c3 (h_process_type_category H);
  c5 ← merge_left_right "TypeId" "ProcessTypeId" c4 (h_process_type H);
  let run_cols := ["RunId"; "Label"; "Name"; "Motivation"; "Status"] in
  _ ← require run_cols (h_run H);
  c5 ← merge_on "RunId" c5 (rename [("Name", "RunName")] run_cols);
  _ ← require ["RunId"] c5;
  Returns (current_location (resolve_names T cs)).

Definition location_batches (H : Headers) (T : Tables) : outcome (list Batch) :=
  batches_of timestamp_str <$> location_rows H T.
End Pipeline.

(** ** Step 1: locating the blobs *)

Definition ascii_lower (c : ascii) : ascii :=
  let n := nat_of_ascii c in
  if ((65 <=? n) && (n <=? 90))%nat then ascii_of_nat (n + 32) else c.

(** [str.lower] on ASCII text. *)
Fixpoint lower (s : string) : string :=
  match s with
  | EmptyString => EmptyString
  | String c s' => String (ascii_lower c) (lower s')
  end.

(** [s.endswith(suffix)] *)
Definition endswith (s suffix : string) : bool :=
  let n := String.length s in
  let m := String.length suffix in
  ((m <=? n)%nat && String.eqb (substring (n - m) m s) suffix).

Definition NEEDED : gset string :=
  {[ "run"; "run_step"; "process_module"; "process"; "process_category";
     "process_type_category"; "process_type" ]}.

(** [sorted(xs)] on strings. *)
Definition sorted (xs : list string) : list string :=
  foldr (insert_sorted String.leb) [] xs.

Definition CANDIDATES : gmap string (list string) :=
  list_to_map
    [ ("run", ["run.parquet"; "parquet/run.parquet"; "tables/run.parquet"; "delta/run.parquet"]);
      ("run_step", ["run_step.parquet"; "parquet/run_step.parquet"; "tables/run_step.parquet";
                    "delta/run_step.parquet"]);
      ("process_module", ["process_module.parquet"; "parquet/process_module.parquet";
                          "tables/process_module.parquet"]);
      ("process", ["process.parquet"; "parquet/process.parquet"; "tables/process.parquet"]);
      ("process_category", ["process_category.parquet"; "parquet/process_category.parquet";
                            "tables/process_category.parquet"]);
      ("process_type_category", ["process_type_category.parquet";
                                 "parquet/process_type_category.parquet";
                                 "tables/process_type_category.parquet"]);
      ("process_type", ["process_type.parquet"; "parquet/process_type.parquet";
                        "tables/process_type.parquet"]) ].

Definition pick_blob_from_list (all_blobs : list string) (table : string) : option string :=
  let leaf := lower (table ++ ".parquet") in
  let exact := List.filter
    (λ b, String.eqb (lower b) leaf || endswith (lower b) ("/" ++ leaf)) all_blobs in
  match exact with
  | e :: _ => Some e
  | [] => head (List.filter (λ b, endswith (lower b) leaf) all_blobs)
  end.

(** The test of the first comprehension of [pick_blob_from_list]. *)
Definition exact_match (leaf b : string) : Prop :=
  lower b = leaf ∨ ∃ p, lower b = (p ++ "/" ++ leaf)%string.

(** What the invocation does to the blob store, in order. *)
Inductive Event : Type :=
  | Head (path : string)
  | RangeGet (path : string)
  | Download (blob : string).

(** A trace without any download of a blob. *)
Definition no_download (ev : list Event) : Prop :=
  Forall (λ e, ∀ blob, e ≠ Download blob) ev.

(** [status_code in (200, 206)] *)
Definition found (status_code : Z) : bool := (status_code =? 200) || (status_code =? 206).

(** Python truthiness of a blob name or [None]. *)
Definition truthy (blob : option string) : bool :=
  match blob with
  | Some (String _ _) => true
  | _ => false
  end.

Section Locator.
(** The status codes the store answers to [SESSION.head(url)] and to the
    ranged [SESSION.get(url)] for a candidate path.  Transport errors are
    outside the model: a probe always comes back with a response. *)
Variable head_status : string → Z.
Variable get_status : string → Z.

(** The loop of [guess_blob_for_table] over the candidates. *)
Fixpoint guess_candidates (cands : list string) : option string * list Event :=
  match cands with
  | [] => (None, [])
  | cand :: rest =>
      if found (head_status cand) then (Some cand, [Head cand])
      else if found (get_status cand) then (Some cand, [Head cand; RangeGet cand])
      else
        let '(r, ev) := guess_candidates rest in
        (r, Head cand :: RangeGet cand :: ev)
  end.

(** [CANDIDATES[table]]; the callers only pass keys of the dictionary. *)
Definition guess_blob_for_table (table : string) : option string * list Event :=
  guess_candidates (default [] (CANDIDATES !! table)).

(** Lines 194-201: the loop over [sorted(NEEDED)].  [inl tbl] is the early
    return for the first table that stays unresolved. *)
Fixpoint discover (blobs : list string) (tables : list string)
    (selected : gmap string string) : (string + gmap string string) * list Event :=
  match tables with
  | [] => (inr selected, [])
  | tbl :: rest =>
      let blob := match blobs with [] => None | _ => pick_blob_from_list blobs tbl end in
      let '(blob, ev) := if truthy blob then (blob, []) else guess_blob_for_table tbl in
      if truthy blob then
        let '(r, ev') := discover blobs rest (<[tbl := default "" blob]> selected) in
        (r, (ev ++ ev')%list)
      else (inl tbl, ev)
  end.

(** A table stays unresolved when the listing offers no blob for it and
    every candidate path is answered with a status other than 200 or 206. *)
Definition unresolved (blobs : list string) (tbl : string) : Prop :=
  truthy (match blobs with [] => None | _ => pick_blob_from_list blobs tbl end) = false ∧
  ∀ cand, cand ∈ default [] (CANDIDATES !! tbl) →
    found (head_status cand) = false ∧ found (get_status cand) = false.
End Locator.

(** ** Listing the container (lines 49-77) *)

(** An element of the parsed listing: its tag without the namespace, its
    text, and its children in document order. *)
#[warnings="-register-all"]
Inductive Element : Type :=
  | Elem (tag : string) (text : option string) (children : list Element).

Definition tag_of (e : Element) : string := match e with Elem t _ _ => t end.
Definition text_of (e : Element) : option string := match e with Elem _ t _ => t end.
Definition children_of (e : Element) : list Element := match e with Elem _ _ cs => cs end.

(** Every element below [e], in document order. *)
Fixpoint descendants (e : Element) : list Element :=
  match e with
  | Elem _ _ cs => flat_map (λ c, c :: descendants c) cs
  end.

(** Truthiness of [el.text]: present and not empty. *)
Definition truthy_text (t : option string) : option string :=
  match t with
  | Some (String c s) => Some (String c s)
  | _ => None
  end.

(** [elem.findall(".//{*}tag")] *)
Definition _findall_nsless (elem : Element) (tag : string) : list Element :=
  filter (λ e, tag_of e = tag) (descendants elem).

(** [elem.find(".//{*}tag")], then the text when the element exists and its
    text is truthy. *)
Definition _findtext_nsless (elem : Element) (tag : string) : option string :=
  head (_findall_nsless elem tag) ≫= λ el, truthy_text (text_of el).

(** Lines 70-73: the names the page contributes. *)
Definition page_blob_names (root : Element) : list string :=
  omap (λ b, head (filter (λ n, tag_of n = "Name") (children_of b))
               ≫= λ n, truthy_text (text_of n))
       (_findall_nsless root "Blob").

Section Listing.
(** The answer to the list request sent with a continuation marker ([None]
    on the first request): status code and body.  [ET.fromstring] may raise on
    a body that is not XML. *)
Variable SESSION_get_list : option string → Z * string.
Variable ET_fromstring : string → outcome Element.

(** The [while True] loop; [fuel] bounds the number of requests, [None] is
    a loop that has not ended within it. *)
Fixpoint azure_list_blobs_loop (fuel : nat) (marker : option string) (blobs : list string)
    : option (outcome (list string)) :=
  match fuel with
  | O => None
  | S fuel' =>
      let r := SESSION_get_list marker in
      if negb (r.1 =? 200) then Some (Returns blobs)
      else
        match ET_fromstring r.2 with
        | Raises => Some Raises
        | Returns root =>
            let blobs := (blobs ++ page_blob_names root)%list in
            let marker := _findtext_nsless root "NextMarker" in
            if truthy marker then azure_list_blobs_loop fuel' marker blobs
            else Some (Returns blobs)
        end
  end.

Definition azure_list_blobs (fuel : nat) : option (outcome (list string)) :=
  azure_list_blobs_loop fuel None [].

(** The course of the requests from a marker on: the pages answered and
    parsed, in order, and how the loop ends, either by leaving it (the next
    request is refused, or the last page carries no [NextMarker]) or by an
    exception (a body that does not parse). *)
Inductive listing_ends : option string → list Element → outcome unit → Prop :=
  | ends_refused marker :
      (SESSION_get_list marker).1 ≠ 200 →
      listing_ends marker [] (Returns ())
  | ends_unparsable marker :
      (SESSION_get_list marker).1 = 200 →
      ET_fromstring (SESSION_get_list marker).2 = Raises →
      listing_ends marker [] Raises
  | ends_last_page marker root :
      (SESSION_get_list marker).1 = 200 →
      ET_fromstring (SESSION_get_list marker).2 = Returns root →
      truthy (_findtext_nsless root "NextMarker") = false →
      listing_ends marker [root] (Returns ())
  | ends_later marker root roots how :
      (SESSION_get_list marker).1 = 200 →
      ET_fromstring (SESSION_get_list marker).2 = Returns root →
      truthy (_findtext_nsless root "NextMarker") = true →
      listing_ends (_findtext_nsless root "NextMarker") roots how →
      listing_ends marker (root :: roots) how.
End Listing.

(** ** The schema-defensive reader (lines 120-178) *)

(** A pandas frame as the reader sees it: named columns in order, names may
    repeat. *)
Definition DataFrame (Cell : Type) : Type := list (string * list Cell).

Definition df_columns {Cell} (df : DataFrame Cell) : list string := df.*1.

(** [pd.DataFrame(columns=columns)] *)
Definition empty_frame {Cell} (columns : list string) : DataFrame Cell :=
  (λ c, (c, [])) <$> columns.

(** [df[names]] for names the frame carries: every column under each name. *)
Definition getitem {Cell} (df : DataFrame Cell) (names : list string) : DataFrame Cell :=
  flat_map (λ c, filter (λ col, col.1 = c) df) names.

(** [len(col_names) != len(set(col_names))] *)
Definition has_duplicates (col_names : list string) : bool :=
  negb (length col_names =? size (list_to_set col_names : gset string))%nat.

(** Lines 140-145: the positions of the first occurrence of every name. *)
Fixpoint unique_indices_from (seen : gset string) (i : nat) (col_names : list string)
    : list nat :=
  match col_names with
  | [] => []
  | col_name :: rest =>
      if decide (col_name ∈ seen) then unique_indices_from seen (S i) rest
      else i :: unique_indices_from ({[col_name]} ∪ seen) (S i) rest
  end.

(** Position [i] holds the first occurrence of its name in the schema. *)
Definition first_occurrence (col_names : list string) (i : nat) : Prop :=
  ∃ c, col_names !! i = Some c ∧ ∀ j, (j < i)%nat → col_names !! j ≠ Some c.

(** The [columns=] argument of [parquet_file.read]: [None] reads the whole
    file (lines 136-156). *)
Definition read_request (columns col_names : list string) : outcome (option (list string)) :=
  if has_duplicates col_names then
    let unique_indices := unique_indices_from ∅ 0 col_names in
    names ← mapM (py_index col_names) unique_indices;
    Returns (Some names)
  else
    let available_cols := filter (λ c, c ∈ col_names) columns in
    match available_cols with
    | _ :: _ => Returns (Some available_cols)
    | [] => Returns None
    end.

(** Lines 162-168: keep the wanted columns the frame carries. *)
Definition restrict_columns {Cell} (columns : list string) (df : DataFrame Cell)
    : DataFrame Cell :=
  match columns with
  | [] => df
  | _ :: _ =>
      let available_cols := filter (λ c, c ∈ df_columns df) columns in
      match available_cols with
      | _ :: _ => getitem df available_cols
      | [] => empty_frame columns
      end
  end.

Section Reader.
Context {Cell Blob Table : Type}.

(** An opened [pq.ParquetFile]: the names of its arrow schema and its
    [read(columns=...)] method. *)
Record ParquetFile : Type := mkParquetFile {
  schema_arrow : list string;
  read : option (list string) → outcome Table
}.

(** The store and pyarrow: [SESSION.get] on a blob's URL (status code and
    content), opening a file, and [to_pandas]; each may raise. *)
Variable SESSION_get : string → outcome (Z * Blob).
Variable pq_ParquetFile : Blob → outcome ParquetFile.
Variable to_pandas : Table → outcome (DataFrame Cell).

Definition download_blob_to_memory (blob : string) : outcome (option Blob) :=
  r ← SESSION_get blob;
  if negb (r.1 =? 200) then Returns None else Returns (Some r.2).

(** The body of the [try] block; the [None] case is the early [return] of
    line 127. *)
Definition read_parquet_subset_body (blob_name : string) (columns : list string)
    : outcome (DataFrame Cell) :=
  blob_data ← download_blob_to_memory blob_name;
  match blob_data with
  | None => Returns (empty_frame columns)
  | Some data =>
      parquet_file ← pq_ParquetFile data;
      let col_names := schema_arrow parquet_file in
      request ← read_request columns col_names;
      table ← read parquet_file request;
      df ← to_pandas table;
      Returns (restrict_columns columns df)
  end.

Definition read_parquet_subset (blob_name name : string) (columns : list string)
    : DataFrame Cell :=
  try_except (read_parquet_subset_body blob_name columns) (empty_frame columns).

(** The ways downloading, opening, reading or converting a blob can fail:
    the request raises or is answered with a status other than 200, pyarrow
    cannot open the content, the column read raises, or the conversion to
    pandas raises. *)
Inductive read_failure (blob_name : string) (columns : list string) : Prop :=
  | get_raises :
      SESSION_get blob_name = Raises → read_failure blob_name columns
  | get_refused status content :
      SESSION_get blob_name = Returns (status, content) → status ≠ 200 →
      read_failure blob_name columns
  | open_raises content :
      SESSION_get blob_name = Returns (200, content) →
      pq_ParquetFile content = Raises → read_failure blob_name columns
  | read_raises content parquet_file request :
      SESSION_get blob_name = Returns (200, content) →
      pq_ParquetFile content = Returns parquet_file →
      read_request columns (schema_arrow parquet_file) = Returns request →
      read parquet_file request = Raises → read_failure blob_name columns
  | to_pandas_raises content parquet_file request table :
      SESSION_get blob_name = Returns (200, content) →
      pq_ParquetFile content = Returns parquet_file →
      read_request columns (schema_arrow parquet_file) = Returns request →
      read parquet_file request = Returns table →
      to_pandas table = Raises → read_failure blob_name columns.
End Reader.

(** A stored parquet file as pyarrow serves it, the table being the frame it
    converts to.  The schema lists the stored columns in order, a name as
    often as it is stored; a read by names returns, for each requested name in
    turn, every stored column of that name; a read without names returns every
    column. *)
Definition pyarrow_file {Cell} (stored : DataFrame Cell) : @ParquetFile (DataFrame Cell) :=
  mkParquetFile (df_columns stored)
    (λ request,
       Returns match request with
               | Some names => getitem stored names
               | None => stored
               end).

(** ** The entry point (lines 186-379) *)

(** What [get_current_batch_location] hands to Flask: the success payload,
    the failure payload of line 200 with its status, or the payload of the
    outer [except] (its message is the text of the exception). *)
Inductive Response : Type :=
  | Success (data : list Batch) (count : nat)
  | Failure (error : string) (http_status : Z)
  | Crashed (http_status : Z).

(** What a stretch of the invocation comes to: its value, or that it
    raised, and what the store saw up to there.  Nothing follows a raise. *)
Definition Step (A : Type) : Type := (outcome A * list Event)%type.

Global Instance Step_ret : MRet Step := λ A a, (Returns a, []).
Global Instance Step_bind : MBind Step :=
  λ A B f m,
    match m.1 with
    | Returns a => ((f a).1, (m.2 ++ (f a).2)%list)
    | Raises => (Raises, m.2)
    end.

(** A computation that touches no blob. *)
Definition silent {A} (r : outcome A) : Step A := (r, []).

Section Invocation.
Context {Cell Blob Table : Type}.

(** [azure_list_blobs(CONTAINER, PREFIX)] as it returned for this call. *)
Variable listing : list string.
Variable head_status : string → Z.
Variable get_status : string → Z.
Variable SESSION_get : string → outcome (Z * Blob).
Variable pq_ParquetFile : Blob → outcome (@ParquetFile Table).
Variable to_pandas : Table → outcome (DataFrame Cell).

(** The typed view of a frame the reader returned: renamed columns, numeric
    cells coerced. *)
Variable as_run : DataFrame Cell → list RunRow.
Variable as_run_step : DataFrame Cell → Frame RawStep.
Variable as_process_module : DataFrame Cell → list PmRow.
Variable as_process : DataFrame Cell → list ProcessRow.
Variable as_process_category : DataFrame Cell → list CategoryRow.
Variable as_process_type_category : DataFrame Cell → list PtcRow.
Variable as_process_type : DataFrame Cell → list PTypeRow.

Variable to_datetime : string → option Z.
Variable to_timedelta : string → option Z.
Variable timestamp_str : Z → string.

(** One call of the reader on [selected[tbl]] and the download it performs;
    the discovery loop has stored a blob under every key that is read.  The
    reader itself never raises. *)
Definition read_table (selected : gmap string string) (tbl name : string)
    (columns : list string) : Step (DataFrame Cell) :=
  let blob_name := default "" (selected !! tbl) in
  (Returns (read_parquet_subset SESSION_get pq_ParquetFile to_pandas blob_name name columns),
   [Download blob_name]).

Definition rs_cols_desired : list string :=
  ["RunId"; "ProcessModuleId"; "Sequence"; "StartDate"; "StartTime"; "FinishDate";
   "FinishTime"; "__batch_index"; "__fragment_index"].

(** Lines 204-367 in program order: the nine reads, the lookups that raise
    between them, and step 3 on what was read.  The second read of run_step
    only feeds the unreachable fallback; the third is [rs], whose columns are
    those of the frame that was read. *)
Definition steps_2_and_3 (selected : gmap string string) : Step (list Batch) :=
  run ← read_table selected "run" "run"
          ["Id"; "Label"; "Name"; "Motivation"; "Status"; "RunTypeId"];
  let run_cols := rename [("Id", "RunId")] (df_columns run) in
  _ ← silent (require ["RunId"] run_cols);
  run_step ← read_table selected "run_step" "run_step" ["RunId"; "ProcessModuleId"];
  process_tbl ← read_table selected "process" "process" ["Id"; "Name"; "CategoryId"];
  let process_cols :=
    rename [("Id", "ProcessId"); ("Name", "ProcessName")] (df_columns process_tbl) in
  _ ← silent (require ["ProcessId"] process_cols);
  process_category ← read_table selected "process_category" "process_category"
                       ["Id"; "Name"];
  let category_cols :=
    rename [("Id", "CategoryId"); ("Name", "CategoryName")] (df_columns process_category) in
  _ ← silent (require ["CategoryId"] category_cols);
  process_type_category ← read_table selected "process_type_category"
                            "process_type_category" ["TypeId"; "CategoryId"];
  process_type ← read_table selected "process_type" "process_type" ["Id"; "Name"];
  let type_cols :=
    rename [("Id", "ProcessTypeId"); ("Name", "ProcessTypeName")] (df_columns process_type) in
  _ ← silent (require ["ProcessTypeId"] type_cols);
  pm_raw ← read_table selected "process_module" "process_module"
             ["Id"; "ProcessId"; "ModuleId"];
  pm_cols ← silent (pm_by_module_columns (df_columns pm_raw));
  let H := mkHeaders run_cols (df_columns run_step) pm_cols process_cols category_cols
                     (df_columns process_type_category) type_cols in
  _ ← silent (joins H);
  _ ← read_table selected "run_step" "run_step_basic_check" ["RunId"; "ProcessModuleId"];
  rs ← read_table selected "run_step" "run_step_for_status" rs_cols_desired;
  let T := mkTables (as_run run) (mkFrame (df_columns rs) (rows (as_run_step rs)))
                    (as_process_module pm_raw)
                    (as_process process_tbl) (as_process_category process_category)
                    (as_process_type_category process_type_category)
                    (as_process_type process_type) in
  silent (location_batches to_datetime to_timedelta timestamp_str H T).

(** The outer [try]: every exception of steps 2 and 3 becomes the payload of
    line 379. *)
Definition get_current_batch_location : Response * list Event :=
  let blobs := listing in
  let '(located, ev) := discover head_status get_status blobs (sorted (elements NEEDED)) ∅ in
  match located with
  | inl tbl => (Failure ("Missing remote parquet for table: " ++ tbl) 500, ev)
  | inr selected =>
      let '(r, ev') := steps_2_and_3 selected in
      (match r with
       | Returns batches => Success batches (length batches)
       | Raises => Crashed 500
       end, (ev ++ ev')%list)
  end.
End Invocation.

(** ** A concrete text model of the two pandas parsers

    The development is parametric in [pd.to_datetime] and [pd.to_timedelta].
    To run the pipeline on examples, [PandasText] fixes them on the text the
    snapshots use: ISO dates [YYYY-MM-DD] and clock times [H:M:S].  The empty
    string is NaT for both, as in pandas; text of any other shape is taken as
    unparsable. *)
Module PandasText.

Definition digit_value (c : ascii) : Z := Z.of_nat (nat_of_ascii c) - 48.

(** A non-empty run of digits as a number. *)
Fixpoint digits_from (acc : Z) (s : string) : option Z :=
  match s with
  | EmptyString => Some acc
  | String c s' => if is_digit c then digits_from (10 * acc + digit_value c) s' else None
  end.

Definition number (s : string) : option Z :=
  match s with
  | EmptyString => None
  | _ => digits_from 0 s
  end.

(** [s.split(sep)] for a one-character separator. *)
Fixpoint split (sep : ascii) (s : string) : list string :=
  match s with
  | EmptyString => [EmptyString]
  | String c s' =>
      if Ascii.eqb c sep then EmptyString :: split sep s'
      else match split sep s' with
           | part :: parts => String c part :: parts
           | [] => [String c EmptyString]
           end
  end.

Definition to_timedelta (s : string) : option Z :=
  match split ":"%char s with
  | [n] => number n
  | [h; m; sec] =>
      h ← number h; m ← number m; sec ← number sec;
      Some ((h * 3600 + m * 60 + sec) * 1000000000)
  | _ => None
  end.

Definition is_leap (y : Z) : bool :=
  ((y mod 4 =? 0) && negb (y mod 100 =? 0)) || (y mod 400 =? 0).

Definition days_in_month (y m : Z) : Z :=
  if m =? 2 then (if is_leap y then 29 else 28)
  else if (m =? 4) || (m =? 6) || (m =? 9) || (m =? 11) then 30
  else 31.

(** Days from 1970-01-01 to a date of the proleptic Gregorian calendar. *)
Definition days_from_civil (y m d : Z) : Z :=
  let y' := if m <=? 2 then y - 1 else y in
  let era := y' / 400 in
  let yoe := y' - era * 400 in
  let doy := (153 * (if 2 <? m then m - 3 else m + 9) + 2) / 5 + d - 1 in
  let doe := yoe * 365 + yoe / 4 - yoe / 100 + doy in
  era * 146097 + doe - 719468.

Definition to_datetime (s : string) : option Z :=
  match split "-"%char s with
  | [y; m; d] =>
      y ← number y; m ← number m; d ← number d;
      if (1 <=? m) && (m <=? 12) && (1 <=? d) && (d <=? days_in_month y m)
      then Some (days_from_civil y m d * 86400 * 1000000000)
      else None
  | _ => None
  end.

End PandasText.

(** * Properties *)

(** ** Stable sorting *)

Section InsertionSort.
Context {R : Type} (leb : R → R → bool).
Hypothesis leb_total : ∀ a b, leb a b = false → leb b a = true.
Hypothesis leb_trans : ∀ a b c, leb a b = true → leb b c = true → leb a c = true.

Local Abbreviation le := (λ a b, leb a b = true).

Lemma insert_sorted_perm x l : insert_sorted leb x l ≡ₚ x :: l.
Proof.
  induction l as [|y l IH]; simpl; [done|].
  destruct (leb x y); [done|].
  rewrite IH. apply Permutation_swap.
Qed.

Lemma foldr_insert_perm l : foldr (insert_sorted leb) [] l ≡ₚ l.
Proof.
  induction l as [|x l IH]; simpl; [done|].
  by rewrite insert_sorted_perm, IH.
Qed.

Lemma insert_sorted_sorted x l :
  StronglySorted le l → StronglySorted le (insert_sorted leb x l).
Proof.
  induction 1 as [|y l Hs IH Hy]; simpl.
  - repeat constructor.
  - destruct (leb x y) eqn:Hxy.
    + constructor; [by constructor|].
      constructor; [done|].
      eapply Forall_impl; [exact Hy|]. intros z Hz. by eapply leb_trans.
    + constructor; [done|].
      rewrite insert_sorted_perm. constructor; [by apply leb_total | done].
Qed.

Lemma foldr_insert_sorted l : StronglySorted le (foldr (insert_sorted leb) [] l).
Proof.
  induction l as [|x l IH]; simpl; [constructor|].
  by apply insert_sorted_sorted.
Qed.

(** Filtering commutes with insertion into a sorted list: the sort is
    stable, so the rows of one class keep the order the sort gives them. *)
Lemma filter_insert_sorted (P : R → Prop) `{∀ x, Decision (P x)} x l :
  StronglySorted le l →
  filter P (insert_sorted leb x l) =
    if decide (P x) then insert_sorted leb x (filter P l) else filter P l.
Proof.
  induction 1 as [|y l Hs IH Hy]; simpl.
  - rewrite filter_cons, filter_nil. by destruct (decide (P x)).
  - destruct (leb x y) eqn:Hxy.
    + rewrite (filter_cons _ x). destruct (decide (P x)) as [Hx|Hx]; [|done].
      assert (Forall (λ z, leb x z = true) (filter P (y :: l))) as Hall.
      { apply Forall_forall. intros z [_ Hz]%list_elem_of_filter.
        apply elem_of_cons in Hz as [->|Hz]; [done|].
        rewrite Forall_forall in Hy. eapply leb_trans; [exact Hxy|]. by apply Hy. }
      destruct (filter P (y :: l)) as [|z l'] eqn:Hf; simpl; [done|].
      apply Forall_cons in Hall as [Hz _]. rewrite Hz. reflexivity.
    + destruct (decide (P y)) as [Hy'|Hy'].
      * rewrite !(filter_cons_True _ y) by done. rewrite IH.
        destruct (decide (P x)); [|done]. simpl. by rewrite Hxy.
      * rewrite !(filter_cons_False _ y) by done. exact IH.
Qed.

Lemma filter_foldr_insert (P : R → Prop) `{∀ x, Decision (P x)} l :
  filter P (foldr (insert_sorted leb) [] l) = foldr (insert_sorted leb) [] (filter P l).
Proof.
  induction l as [|x l IH]; simpl; [done|].
  rewrite filter_insert_sorted by apply foldr_insert_sorted.
  rewrite filter_cons. destruct (decide (P x)); simpl; by rewrite IH.
Qed.
End InsertionSort.

(** ** The sort order of [sort_values] *)

Lemma key_compare_refl asc a : key_compare asc a a = Eq.
Proof. destruct a as [x|], asc; simpl; auto using Z.compare_refl. Qed.

Lemma key_compare_Eq asc a b : key_compare asc a b = Eq → a = b.
Proof.
  destruct a as [x|], b as [y|], asc; simpl; try done.
  - by intros ->%Z.compare_eq.
  - by intros ->%Z.compare_eq.
Qed.

Lemma key_compare_antisym asc a b :
  key_compare asc b a = CompOpp (key_compare asc a b).
Proof. destruct a as [x|], b as [y|], asc; simpl; auto using Z.compare_antisym. Qed.

Lemma key_compare_Lt_trans asc a b c :
  key_compare asc a b = Lt → key_compare asc b c = Lt → key_compare asc a c = Lt.
Proof.
  destruct a as [x|], b as [y|], c as [z|], asc; simpl; try done;
    rewrite ?Z.compare_lt_iff; lia.
Qed.

Section LexOrder.
Context {R : Type} (by_ : list (sort_key R)).

Lemma lex_compare_antisym a b :
  lex_compare by_ b a = CompOpp (lex_compare by_ a b).
Proof.
  induction by_ as [|[col asc] rest IH]; simpl; [done|].
  rewrite (key_compare_antisym asc (col a) (col b)).
  by destruct (key_compare asc (col a) (col b)).
Qed.

Lemma lex_leb_total a b : lex_leb by_ a b = false → lex_leb by_ b a = true.
Proof.
  unfold lex_leb. rewrite (lex_compare_antisym a b).
  by destruct (lex_compare by_ a b).
Qed.

Lemma lex_leb_trans a b c :
  lex_leb by_ a b = true → lex_leb by_ b c = true → lex_leb by_ a c = true.
Proof.
  unfold lex_leb. induction by_ as [|[col asc] rest IH]; simpl; [done|].
  destruct (key_compare asc (col a) (col b)) eqn:Hab; [| |done];
    destruct (key_compare asc (col b) (col c)) eqn:Hbc; try done.
  - apply key_compare_Eq in Hab, Hbc. rewrite Hab, Hbc, key_compare_refl. apply IH.
  - apply key_compare_Eq in Hab. by rewrite Hab, Hbc.
  - apply key_compare_Eq in Hbc. by rewrite <- Hbc, Hab.
  - by rewrite (key_compare_Lt_trans _ _ _ _ Hab Hbc).
Qed.

Lemma sort_values_perm (df : list R) : sort_values by_ df ≡ₚ df.
Proof. apply foldr_insert_perm. Qed.

Lemma sort_values_sorted (df : list R) :
  StronglySorted (λ a b, lex_leb by_ a b = true) (sort_values by_ df).
Proof. apply foldr_insert_sorted; [apply lex_leb_total | apply lex_leb_trans]. Qed.

Lemma filter_sort_values (P : R → Prop) `{∀ x, Decision (P x)} (df : list R) :
  filter P (sort_values by_ df) = sort_values by_ (filter P df).
Proof. apply filter_foldr_insert; [apply lex_leb_total | apply lex_leb_trans]. Qed.

Lemma sort_values_nil_inv (df : list R) : sort_values by_ df = [] → df = [].
Proof. intros Hs. apply Permutation_nil. by rewrite <- Hs, sort_values_perm. Qed.
End LexOrder.

(** ** [drop_duplicates] *)

Section DropDuplicates.
Context {R K : Type} `{EqDecision K} (subset : R → K).

Lemma drop_duplicates_from_filter (k : K) seen (df : list R) :
  filter (λ r, subset r = k) (drop_duplicates_from subset seen df) =
    if decide (k ∈ seen) then [] else take 1 (filter (λ r, subset r = k) df).
Proof.
  revert seen. induction df as [|r df IH]; intros seen; simpl.
  - by destruct (decide (k ∈ seen)).
  - destruct (decide (subset r ∈ seen)) as [Hin|Hin].
    + rewrite IH. destruct (decide (k ∈ seen)) as [|Hk]; [done|].
      rewrite filter_cons_False; [done|]. by intros <-.
    + destruct (decide (subset r = k)) as [Heq|Hne].
      * rewrite !filter_cons_True by done. rewrite IH.
        rewrite decide_True by (rewrite <- Heq; set_solver).
        rewrite decide_False by (by rewrite <- Heq). done.
      * rewrite !filter_cons_False by done. rewrite IH.
        destruct (decide (k ∈ seen)) as [Hk|Hk].
        -- rewrite decide_True; [done|set_solver].
        -- rewrite decide_False; [done|]. set_solver.
Qed.

(** The rows kept under one key: the first row of the frame with it. *)
Lemma drop_duplicates_filter (k : K) (df : list R) :
  filter (λ r, subset r = k) (drop_duplicates subset df) =
    take 1 (filter (λ r, subset r = k) df).
Proof.
  unfold drop_duplicates. rewrite drop_duplicates_from_filter.
  rewrite decide_False; [done | set_solver].
Qed.

Lemma drop_duplicates_from_sublist seen (df : list R) :
  sublist (drop_duplicates_from subset seen df) df.
Proof.
  revert seen. induction df as [|r df IH]; intros seen; simpl; [done|].
  destruct (decide (subset r ∈ seen)).
  - by apply sublist_cons.
  - by apply sublist_skip.
Qed.

Lemma drop_duplicates_from_NoDup seen (df : list R) :
  NoDup (subset <$> drop_duplicates_from subset seen df) ∧
  ∀ r, r ∈ drop_duplicates_from subset seen df → subset r ∉ seen.
Proof.
  revert seen. induction df as [|r df IH]; intros seen; simpl.
  - split; [constructor | set_solver].
  - destruct (decide (subset r ∈ seen)) as [Hin|Hin]; [apply IH|].
    destruct (IH (subset r :: seen)) as [Hnd Hseen]. split.
    + rewrite fmap_cons. constructor; [|done].
      intros (r' & Heq & Hr')%list_elem_of_fmap.
      apply Hseen in Hr'. rewrite <- Heq in Hr'. set_solver.
    + intros r' [->|Hr']%elem_of_cons; [done|].
      apply Hseen in Hr'. set_solver.
Qed.

Lemma drop_duplicates_NoDup (df : list R) : NoDup (subset <$> drop_duplicates subset df).
Proof. apply drop_duplicates_from_NoDup. Qed.

Lemma drop_duplicates_elem (df : list R) r : r ∈ drop_duplicates subset df → r ∈ df.
Proof. intros Hr. eapply elem_of_sublist; [exact Hr|]. apply drop_duplicates_from_sublist. Qed.

Lemma drop_duplicates_keys (df : list R) k :
  k ∈ subset <$> drop_duplicates subset df ↔ k ∈ subset <$> df.
Proof.
  split.
  - intros (r & -> & Hr)%list_elem_of_fmap. apply list_elem_of_fmap.
    eauto using drop_duplicates_elem.
  - intros (r & -> & Hr)%list_elem_of_fmap.
    assert (r ∈ filter (λ r', subset r' = subset r) df) as Hf
      by (by apply list_elem_of_filter).
    destruct (filter (λ r', subset r' = subset r) df) as [|r0 l] eqn:Hfilt;
      [by apply elem_of_nil in Hf|].
    assert (r0 ∈ filter (λ r', subset r' = subset r) (drop_duplicates subset df)) as H0.
    { rewrite drop_duplicates_filter, Hfilt. simpl. set_solver. }
    apply list_elem_of_filter in H0 as [Heq H0]. apply list_elem_of_fmap. eauto.
Qed.
End DropDuplicates.

(** ** process_module: the representative row *)

Lemma lex_leb_same_Id a b :
  pm_Id a = pm_Id b →
  lex_leb [(pm_Id, true); (_score, false)] a b
    = notna (pm_ProcessId a) || negb (notna (pm_ProcessId b)).
Proof.
  intros Heq. unfold lex_leb, _score. simpl. rewrite Heq, key_compare_refl.
  by destruct (pm_ProcessId a), (pm_ProcessId b).
Qed.

Lemma take_1_insert_sorted {R} (leb : R → R → bool) x l :
  take 1 (insert_sorted leb x l) =
    match l with [] => [x] | y :: _ => if leb x y then [x] else [y] end.
Proof. destruct l as [|y l]; simpl; [done|]. by destruct (leb x y). Qed.

Lemma notna_is_Some {A} (x : option A) : notna x = true ↔ is_Some x.
Proof. destruct x; simpl; split; (done || eauto || by intros [??]). Qed.

Lemma sort_same_Id_head k (m : list PmRow) :
  Forall (λ r, pm_Id r = k) m →
  take 1 (sort_values [(pm_Id, true); (_score, false)] m) =
    match filter (λ r, is_Some (pm_ProcessId r)) m with
    | r :: _ => [r]
    | [] => take 1 m
    end.
Proof.
  induction 1 as [|x m Hx Hm IH]; [done|].
  change (sort_values ?b (x :: m)) with (insert_sorted (lex_leb b) x (sort_values b m)).
  rewrite take_1_insert_sorted.
  destruct (sort_values _ m) as [|y s] eqn:Hs.
  - apply sort_values_nil_inv in Hs as ->.
    rewrite filter_cons, filter_nil. by destruct (decide _).
  - assert (y ∈ m) as Hy
      by (rewrite <- (sort_values_perm [(pm_Id, true); (_score, false)] m), Hs; left).
    assert (pm_Id x = pm_Id y) as Hid.
    { rewrite Forall_forall in Hm. by rewrite Hx, (Hm y Hy). }
    rewrite (lex_leb_same_Id _ _ Hid). simpl in IH.
    rewrite filter_cons. destruct (decide (is_Some (pm_ProcessId x))) as [Hpx|Hpx].
    + apply notna_is_Some in Hpx as ->. done.
    + assert (notna (pm_ProcessId x) = false) as ->.
      { destruct (notna (pm_ProcessId x)) eqn:E; [|done]. by apply notna_is_Some in E. }
      simpl. destruct (filter _ m) as [|r f] eqn:Hf.
      * assert (notna (pm_ProcessId y) = false) as ->; [|done].
        destruct (notna (pm_ProcessId y)) eqn:E; [|done].
        apply notna_is_Some in E.
        assert (y ∈ filter (λ r, is_Some (pm_ProcessId r)) m) as Hin
          by (by apply list_elem_of_filter).
        rewrite Hf in Hin. by apply elem_of_nil in Hin.
      * injection IH as ->.
        assert (r ∈ filter (λ r, is_Some (pm_ProcessId r)) m) as Hin
          by (rewrite Hf; set_solver).
        apply list_elem_of_filter in Hin as [Hr _].
        apply notna_is_Some in Hr as ->. done.
Qed.

(** C4. [pm_by_module] keeps one row per [Id]: for every [Id] value [k], the
    rows kept under [k] are the first row of the table (in row order) with
    that [Id] and a non-null [ProcessId] when there is one, else the first row
    with that [Id]; no [Id] of the table is lost and none is repeated.  On two
    rows with [Id = 50], one with [ProcessId = None] and one with
    [ProcessId = 9], the row with [ProcessId = 9] is kept, in either row
    order.  The result is a function of the table alone, so it is the same on
    every run over unchanged input. *)
Theorem pm_by_module_representative (pm_raw : list PmRow) :
  NoDup (pm_Id <$> pm_by_module pm_raw) ∧
  (∀ k, k ∈ pm_Id <$> pm_by_module pm_raw ↔ k ∈ pm_Id <$> pm_raw) ∧
  (∀ k, filter (λ r, pm_Id r = k) (pm_by_module pm_raw) =
        match filter (λ r, is_Some (pm_ProcessId r)) (filter (λ r, pm_Id r = k) pm_raw) with
        | r :: _ => [r]
        | [] => take 1 (filter (λ r, pm_Id r = k) pm_raw)
        end) ∧
  (∀ m1 m2, pm_by_module [mkPmRow (Some 50) None m1; mkPmRow (Some 50) (Some 9) m2]
            = [mkPmRow (Some 50) (Some 9) m2] ∧
            pm_by_module [mkPmRow (Some 50) (Some 9) m2; mkPmRow (Some 50) None m1]
            = [mkPmRow (Some 50) (Some 9) m2]).
Proof.
  unfold pm_by_module. split; [apply drop_duplicates_NoDup|]. split; [|split].
  - intros k. rewrite drop_duplicates_keys.
    by rewrite (sort_values_perm _ pm_raw).
  - intros k. rewrite drop_duplicates_filter, filter_sort_values.
    apply (sort_same_Id_head k), Forall_forall.
    by intros r [? _]%list_elem_of_filter.
  - done.
Qed.

(** ** Status of a step *)

Lemma assign_status_fmap (rs : list StepRow) :
  assign_status rs =
    (λ r, mkStepRow (step_raw r) (started_at r) (finished_at r)
            (Some match finished_at r, started_at r with
                  | Some _, _ => "Completed"
                  | None, Some _ => "In Progress"
                  | None, None => "Not Started"
                  end)
            (row_max [finished_at r; started_at r])) <$> rs.
Proof.
  unfold assign_status, loc_set_status. rewrite <- !list_fmap_compose.
  apply list_fmap_ext. intros _ [raw [s|] [f|] st u] _; reflexivity.
Qed.

Lemma assign_status_length (rs : list StepRow) : length (assign_status rs) = length rs.
Proof. by rewrite assign_status_fmap, length_fmap. Qed.

(** C3. Row [i] of the classified frame is row [i] of the input with its
    instants unchanged, and its status is ["Completed"] exactly when
    [finished_at] is present, ["In Progress"] exactly when [started_at] is
    present and [finished_at] is absent, ["Not Started"] exactly when both are
    absent; it is always one of the three. *)
Theorem status_classification (rs : list StepRow) (i : nat) (r' : StepRow) :
  assign_status rs !! i = Some r' →
  ∃ r, rs !! i = Some r ∧
    step_raw r' = step_raw r ∧
    started_at r' = started_at r ∧ finished_at r' = finished_at r ∧
    (status r' = Some "Completed" ↔ is_Some (finished_at r)) ∧
    (status r' = Some "In Progress" ↔ is_Some (started_at r) ∧ finished_at r = None) ∧
    (status r' = Some "Not Started" ↔ started_at r = None ∧ finished_at r = None) ∧
    (status r' = Some "Completed" ∨ status r' = Some "In Progress"
     ∨ status r' = Some "Not Started").
Proof.
  rewrite assign_status_fmap, list_lookup_fmap.
  destruct (rs !! i) as [r|]; [|done]. simpl. intros [= <-].
  exists r. split; [done|]. simpl. repeat split; try done;
    destruct (finished_at r), (started_at r); simpl;
    try done; try (by intros [? ?]); try (by intros [[? ?] ?]); try (by intros [? [? ?]]);
    eauto.
Qed.

Lemma status_classification_witness :
  let done_ := mkStepRow (mkRawStep (Some 101) (Some 1) (Some 1) None None None None None None)
                 None (Some 1704448800000000000) None None in
  let open_ := mkStepRow (mkRawStep (Some 101) (Some 2) (Some 2) None None None None None None)
                 (Some 1704448800000000000) None None None in
  ∃ r', assign_status [done_; open_] !! 1%nat = Some r' ∧ status r' = Some "In Progress".
Proof.
  intros done_ open_.
  exists (mkStepRow (step_raw open_) (Some 1704448800000000000) None (Some "In Progress")
            (Some 1704448800000000000)).
  split; [reflexivity|].
  destruct (status_classification [done_; open_] 1
              (mkStepRow (step_raw open_) (Some 1704448800000000000) None (Some "In Progress")
                 (Some 1704448800000000000)) eq_refl)
    as (r & Hr & _ & _ & _ & _ & Hin & _).
  apply Hin. injection Hr as <-. split; [by eexists | reflexivity].
Defined.

(** ** [idxmax]: the first position of the maximum *)

Lemma idxmax_from_spec (s : list (option Z)) : ∀ i best,
  match idxmax_from i best s with
  | None => best = None ∧ Forall (λ x, x = None) s
  | Some k =>
      (∃ b, best = Some (k, b) ∧ Forall (λ x, ∀ w, x = Some w → w ≤ b) s) ∨
      (∃ j v, k = (i + j)%nat ∧ s !! j = Some (Some v) ∧
              (∀ k0 b, best = Some (k0, b) → b < v) ∧
              Forall (λ x, ∀ w, x = Some w → w ≤ v) s ∧
              (∀ j' w, (j' < j)%nat → s !! j' = Some (Some w) → w < v))
  end.
Proof.
  induction s as [|[v|] s IH]; intros i best; simpl.
  - destruct best as [[k b]|]; simpl; [left; eauto | done].
  - assert (∀ k,
      ((∃ b, Some (i, v) = Some (k, b) ∧ Forall (λ x, ∀ w, x = Some w → w ≤ b) s) ∨
       (∃ j v', k = (S i + j)%nat ∧ s !! j = Some (Some v') ∧
          (∀ k0 b, Some (i, v) = Some (k0, b) → b < v') ∧
          Forall (λ x, ∀ w, x = Some w → w ≤ v') s ∧
          (∀ j' w, (j' < j)%nat → s !! j' = Some (Some w) → w < v'))) →
      (∀ k0 b, best = Some (k0, b) → b < v) →
      ∃ j v', k = (i + j)%nat ∧ (Some v :: s) !! j = Some (Some v') ∧
          (∀ k0 b, best = Some (k0, b) → b < v') ∧
          Forall (λ x, ∀ w, x = Some w → w ≤ v') (Some v :: s) ∧
          (∀ j' w, (j' < j)%nat → (Some v :: s) !! j' = Some (Some w) → w < v')) as Hnew.
    { intros k [(b & [= <- <-] & Hall)|(j & v' & -> & Hj & Hb & Hall & Hfirst)] Hbest.
      - exists 0%nat, v. split; [lia|]. split; [done|]. split; [done|]. split.
        + constructor; [|done]. intros w [= <-]. lia.
        + intros j' w Hj'. lia.
      - assert (v < v') as Hv by (by eapply Hb).
        exists (S j), v'. split; [lia|]. split; [done|]. split.
        { intros k0 b Hk0. specialize (Hbest _ _ Hk0). lia. }
        split.
        + constructor; [|done]. intros w [= <-]. lia.
        + intros [|j'] w Hj'; simpl; [intros [= <-]; lia|]. apply Hfirst. lia. }
    destruct best as [[k0 b]|].
    + destruct (b <? v) eqn:Hbv.
      * apply Z.ltb_lt in Hbv. specialize (IH (S i) (Some (i, v))).
        destruct (idxmax_from (S i) (Some (i, v)) s) as [k|]; [|by destruct IH].
        right. apply Hnew; [done|]. intros ? ? [= <- <-]. done.
      * apply Z.ltb_ge in Hbv. specialize (IH (S i) (Some (k0, b))).
        destruct (idxmax_from (S i) (Some (k0, b)) s) as [k|]; [|by destruct IH].
        destruct IH as [(b' & [= <- <-] & Hall)|(j & v' & -> & Hj & Hb & Hall & Hfirst)].
        -- left. exists b. split; [done|]. constructor; [|done]. intros w [= <-]. done.
        -- right. assert (b < v') as Hv by (by eapply Hb).
           exists (S j), v'. split; [lia|]. split; [done|]. split.
           { intros ? ? [= <- <-]. done. }
           split.
           ++ constructor; [|done]. intros w [= <-]. lia.
           ++ intros [|j'] w Hj'; simpl; [intros [= <-]; lia|]. apply Hfirst. lia.
    + specialize (IH (S i) (Some (i, v))).
      destruct (idxmax_from (S i) (Some (i, v)) s) as [k|]; [|by destruct IH].
      right. apply Hnew; [done|]. done.
  - specialize (IH (S i) best).
    destruct (idxmax_from (S i) best s) as [k|].
    + destruct IH as [(b & -> & Hall)|(j & v' & -> & Hj & Hb & Hall & Hfirst)].
      * left. exists b. split; [done|]. constructor; [done|done].
      * right. exists (S j), v'. split; [lia|]. split; [done|]. split; [done|]. split.
        -- constructor; [done|done].
        -- intros [|j'] w Hj'; simpl; [done|]. apply Hfirst. lia.
    + destruct IH as [-> Hall]. split; [done|]. by constructor.
Qed.

Lemma idxmax_first_max (s : list (option Z)) :
  (∃ v, Some v ∈ s) →
  ∃ i v, idxmax s = Returns i ∧ s !! i = Some (Some v) ∧
         (∀ j w, s !! j = Some (Some w) → w ≤ v) ∧
         (∀ j w, (j < i)%nat → s !! j = Some (Some w) → w < v).
Proof.
  intros [v0 Hv0]. unfold idxmax.
  pose proof (idxmax_from_spec s 0 None) as H.
  destruct (idxmax_from 0 None s) as [k|].
  - destruct H as [(b & [=] & _)|(j & v & -> & Hj & _ & Hall & Hfirst)].
    exists j, v. split; [done|]. split; [done|]. split; [|done].
    intros j' w Hj'. rewrite Forall_forall in Hall.
    apply (Hall (Some w)); [|done]. by eapply list_elem_of_lookup_2.
  - destruct H as [_ Hall]. rewrite Forall_forall in Hall. by specialize (Hall _ Hv0).
Qed.

(** Selecting by [idxmax] of a column: the first row, in row order, that
    carries the maximum. *)
Lemma idxmax_loc_one {A} (col : A → option Z) (l : list A) :
  (∃ r, r ∈ l ∧ is_Some (col r)) →
  ∃ i r v, (i ← idxmax (col <$> l); loc_one l i) = Returns [r] ∧
    l !! i = Some r ∧ col r = Some v ∧
    (∀ r' w, r' ∈ l → col r' = Some w → w ≤ v) ∧
    (∀ j r', (j < i)%nat → l !! j = Some r' → col r' ≠ Some v).
Proof.
  intros (r0 & Hr0 & v0 & Hv0).
  destruct (idxmax_first_max (col <$> l)) as (i & v & Hi & Hl & Hmax & Hfirst).
  { exists v0. rewrite <- Hv0. apply list_elem_of_fmap. eauto. }
  rewrite list_lookup_fmap in Hl.
  destruct (l !! i) as [r|] eqn:Hr; [|done]. injection Hl as Hv.
  exists i, r, v. rewrite Hi. simpl. unfold loc_one, py_index. rewrite Hr. simpl.
  split; [done|]. split; [done|]. split; [done|]. split.
  - intros r' w [j Hj]%list_elem_of_lookup_1 Hw. apply (Hmax j).
    by rewrite list_lookup_fmap, Hj, <- Hw.
  - intros j r' Hlt Hj Hv'. specialize (Hfirst j v Hlt).
    rewrite list_lookup_fmap, Hj in Hfirst. simpl in Hfirst. rewrite Hv' in Hfirst.
    specialize (Hfirst eq_refl). lia.
Qed.

(** ** The current-step ladder *)

Lemma existsb_notna {A B} (col : A → option B) (l : list A) :
  existsb (λ r, notna (col r)) l = true ↔ ∃ r, r ∈ l ∧ is_Some (col r).
Proof.
  rewrite existsb_exists. split; intros (r & Hr & Hc); exists r.
  - by rewrite list_elem_of_In, <- notna_is_Some.
  - by rewrite <- list_elem_of_In, notna_is_Some.
Qed.

Lemma existsb_notna_false {A B} (col : A → option B) (l : list A) :
  (∀ r, r ∈ l → col r = None) → existsb (λ r, notna (col r)) l = false.
Proof.
  intros Hall. destruct (existsb _ l) eqn:E; [|done].
  apply existsb_notna in E as (r & Hr & [v Hv]). by rewrite (Hall r Hr) in Hv.
Qed.

Lemma iloc_last_elem {A} (l : list A) :
  l ≠ [] → ∃ x, iloc_last l = Returns [x] ∧ last l = Some x ∧ x ∈ l.
Proof.
  intros Hl. unfold iloc_last. destruct (last l) as [x|] eqn:Hx.
  - exists x. split; [done|]. split; [done|].
    apply last_Some in Hx as [l' ->]. set_solver.
  - by apply last_None in Hx.
Qed.

(** Whatever rung applies, a non-empty group yields exactly one of its rows
    and never raises. *)
Lemma pick_current_total (g : Frame StepRow) :
  rows g ≠ [] → ∃ r, _pick_current g = Returns [r] ∧ r ∈ rows g.
Proof.
  intros Hne. unfold _pick_current.
  destruct (existsb (λ r, notna (updated_at r)) (rows g)) eqn:Hu.
  { apply existsb_notna, idxmax_loc_one in Hu as (i & r & v & -> & Hi & _).
    exists r. split; [done|]. by eapply list_elem_of_lookup_2. }
  case_bool_decide.
  { destruct (iloc_last_elem (sort_values
      ((λ c, (numeric_column c, true)) <$>
         filter (λ c, c ∈ columns g) ["__batch_index"; "__fragment_index"]) (rows g)))
      as (x & -> & _ & Hx).
    - intros Hs. by apply sort_values_nil_inv in Hs.
    - exists x. split; [done|]. by rewrite sort_values_perm in Hx. }
  destruct (bool_decide ("Sequence" ∈ columns g) &&
            existsb (λ r, notna (Sequence r)) (rows g)) eqn:Hs.
  { apply andb_true_iff in Hs as [_ Hs].
    apply existsb_notna, idxmax_loc_one in Hs as (i & r & v & -> & Hi & _).
    exists r. split; [done|]. by eapply list_elem_of_lookup_2. }
  destruct (iloc_last_elem (rows g) Hne) as (x & -> & _ & Hx). eauto.
Qed.

(** C10. When rung 1 decides ([col] is [updated_at] and some row of the run
    has one) or rung 3 decides ([col] is [Sequence]: no row has an
    [updated_at], no ordinal column is carried, [Sequence] is carried and some
    row has one), the selected row carries the maximum of [col] and no row
    before it in row order carries that value: among tied rows the first
    wins. *)
Theorem pick_current_first_of_ties (g : Frame StepRow) (col : StepRow → option Z) :
  (col = updated_at ∧ (∃ r, r ∈ rows g ∧ is_Some (updated_at r))) ∨
  (col = Sequence ∧ (∀ r, r ∈ rows g → updated_at r = None) ∧
   ("__batch_index" ∉ columns g) ∧ ("__fragment_index" ∉ columns g) ∧
   ("Sequence" ∈ columns g) ∧ (∃ r, r ∈ rows g ∧ is_Some (Sequence r))) →
  ∃ i r v, _pick_current g = Returns [r] ∧ rows g !! i = Some r ∧ col r = Some v ∧
    (∀ r' w, r' ∈ rows g → col r' = Some w → w ≤ v) ∧
    (∀ j r', (j < i)%nat → rows g !! j = Some r' → col r' ≠ Some v).
Proof.
  unfold _pick_current.
  intros [[-> Hany]|(-> & Hnone & Hb & Hf & Hs & Hany)].
  - pose proof Hany as Hex. apply existsb_notna in Hex as ->.
    by apply idxmax_loc_one.
  - rewrite (existsb_notna_false updated_at) by done.
    rewrite filter_cons_False, filter_cons_False, filter_nil by done.
    rewrite bool_decide_eq_false_2 by (by intros []).
    rewrite bool_decide_eq_true_2 by done.
    pose proof Hany as Hex. apply existsb_notna in Hex as ->. simpl.
    by apply idxmax_loc_one.
Qed.

Lemma pick_current_first_of_ties_witness :
  let step u v := mkStepRow (mkRawStep (Some 7) (Some u) None None None None None None None)
                    None (Some v) (Some "Completed") (Some v) in
  let g := mkFrame ["RunId"; "ProcessModuleId"; "updated_at"] [step 1 5; step 2 9; step 3 9] in
  (∃ r, r ∈ rows g ∧ is_Some (updated_at r)) ∧
  ∃ i r v, _pick_current g = Returns [r] ∧ rows g !! i = Some r ∧ updated_at r = Some v ∧
    (∀ r' w, r' ∈ rows g → updated_at r' = Some w → w ≤ v) ∧
    (∀ j r', (j < i)%nat → rows g !! j = Some r' → updated_at r' ≠ Some v).
Proof.
  intros step g.
  assert (∃ r, r ∈ rows g ∧ is_Some (updated_at r)) as Hany.
  { exists (step 1 5). split; [left | by eexists]. }
  split; [exact Hany|].
  apply (pick_current_first_of_ties g updated_at). left. split; [reflexivity | exact Hany].
Defined.

Lemma lex_leb_refl {R} (by_ : list (sort_key R)) (a : R) : lex_leb by_ a a = true.
Proof.
  destruct (lex_leb by_ a a) eqn:E; [done|]. by rewrite (lex_leb_total _ _ _ E) in E.
Qed.

(** Rung 2: with no [updated_at] in the run and an ordinal column carried,
    the selected row is the last row of the stable sort on the carried
    ordinal columns; every row of the run sorts at or before it, a null
    ordinal sorting after every number. *)
Lemma pick_current_ordinal_rung (g : Frame StepRow) :
  let sk := filter (λ c, c ∈ columns g) ["__batch_index"; "__fragment_index"] in
  let by_ := (λ c, (numeric_column c, true)) <$> sk in
  (∀ r, r ∈ rows g → updated_at r = None) → sk ≠ [] → rows g ≠ [] →
  ∃ r, _pick_current g = Returns [r] ∧ last (sort_values by_ (rows g)) = Some r ∧
       ∀ r', r' ∈ rows g → lex_leb by_ r' r = true.
Proof.
  intros sk by_ Hnone Hsk Hne. unfold _pick_current.
  rewrite (existsb_notna_false updated_at) by done.
  fold sk. rewrite bool_decide_eq_true_2 by done. fold by_.
  destruct (iloc_last_elem (sort_values by_ (rows g))) as (x & -> & Hlast & Hx).
  { intros Hs. by apply sort_values_nil_inv in Hs. }
  exists x. split; [done|]. split; [done|].
  intros r' Hr'. rewrite <- (sort_values_perm by_) in Hr'.
  pose proof (sort_values_sorted by_ (rows g)) as Hsorted.
  apply last_Some in Hlast as [l' Hl']. rewrite Hl' in Hr', Hsorted.
  apply elem_of_app in Hr' as [Hr'|Hr'].
  - apply (StronglySorted_app_1_elem_of (λ a b, lex_leb by_ a b = true) l' [x]);
      [done | done | left].
  - apply list_elem_of_singleton in Hr' as ->. apply lex_leb_refl.
Qed.

(** Rung 4: with no [updated_at], no ordinal column and no usable
    [Sequence], the last row in row order is selected. *)
Lemma pick_current_last_rung (g : Frame StepRow) :
  (∀ r, r ∈ rows g → updated_at r = None) →
  ("__batch_index" ∉ columns g) → ("__fragment_index" ∉ columns g) →
  ("Sequence" ∉ columns g) ∨ (∀ r, r ∈ rows g → Sequence r = None) →
  rows g ≠ [] →
  ∃ r, _pick_current g = Returns [r] ∧ last (rows g) = Some r.
Proof.
  intros Hnone Hb Hf Hseq Hne. unfold _pick_current.
  rewrite (existsb_notna_false updated_at) by done.
  rewrite filter_cons_False, filter_cons_False, filter_nil by done.
  rewrite bool_decide_eq_false_2 by (by intros []).
  assert (bool_decide ("Sequence" ∈ columns g) &&
          existsb (λ r, notna (Sequence r)) (rows g) = false) as ->.
  { destruct Hseq as [Hseq|Hseq].
    - by rewrite bool_decide_eq_false_2.
    - rewrite (existsb_notna_false Sequence) by done. apply andb_false_r. }
  destruct (iloc_last_elem (rows g) Hne) as (x & -> & Hx & _). eauto.
Qed.

(** C1 (defect in rung 2).  Run 303 has two steps without timestamps, one read
    with [__batch_index = 7] and one with a null [__batch_index].  The stable
    ascending sort puts the null ordinal last, so the step without an ordinal
    is selected, in either row order, and not the step with the highest
    ordinal 7. *)
Theorem pick_current_null_ordinal_selected :
  let cols := ["RunId"; "ProcessModuleId"; "__batch_index"] in
  let with_7 := mkRawStep (Some 303) (Some 1) None None None None None (Some 7) None in
  let with_null := mkRawStep (Some 303) (Some 2) None None None None None None None in
  let selected := mkStepRow with_null None None (Some "Not Started") None in
  let run_steps rows := mkTables [] (mkFrame cols rows) [] [] [] [] [] in
  (step_frame PandasText.to_datetime PandasText.to_timedelta
     (run_steps [with_7; with_null]) ≫= current_step) = Returns [selected] ∧
  (step_frame PandasText.to_datetime PandasText.to_timedelta
     (run_steps [with_null; with_7]) ≫= current_step) = Returns [selected] ∧
  rs_batch_index (step_raw selected) = None.
Proof. repeat split; vm_compute; reflexivity. Qed.

(** ** One selected row per run *)

Lemma mapM_Returns {A B} (f : A → outcome B) (l : list A) :
  (∀ x, x ∈ l → ∃ y, f x = Returns y) →
  ∃ ys, mapM f l = Returns ys ∧ Forall2 (λ x y, f x = Returns y) l ys.
Proof.
  induction l as [|x l IH]; intros Hf; simpl.
  - exists []. by split.
  - destruct (Hf x) as [y Hy]; [left|].
    destruct IH as (ys & Hys & Hall); [intros; apply Hf; by right|].
    exists (y :: ys). rewrite Hy. simpl. rewrite Hys. simpl. split; [done|].
    by constructor.
Qed.

Lemma mapM_Returns_inv {A B} (f : A → outcome B) (l : list A) (ys : list B) :
  mapM f l = Returns ys → Forall2 (λ x y, f x = Returns y) l ys.
Proof.
  revert ys. induction l as [|x l IH]; intros ys; simpl.
  - intros [= <-]. constructor.
  - destruct (f x) as [y|] eqn:Hy; simpl; [|done].
    destruct (mapM f l) as [k|]; simpl; [|done].
    intros [= <-]. constructor; [done | by apply IH].
Qed.


Lemma mapM_lookup {A B} (f : A → outcome B) (l : list A) (ys : list B) (i : nat) (x : A) :
  mapM f l = Returns ys → l !! i = Some x → ∃ y, ys !! i = Some y ∧ f x = Returns y.
Proof.
  intros Hm%mapM_Returns_inv Hx.
  destruct (Forall2_lookup_l _ _ _ _ _ Hm Hx) as (y & Hy & Hf). eauto.
Qed.

Lemma drop_duplicates_id_NoDup {K} `{EqDecision K} (l : list K) : NoDup (drop_duplicates id l).
Proof. rewrite <- (list_fmap_id (drop_duplicates id l)). apply drop_duplicates_NoDup. Qed.

Lemma drop_duplicates_id_elem {K} `{EqDecision K} (l : list K) k :
  k ∈ drop_duplicates id l ↔ k ∈ l.
Proof.
  pose proof (drop_duplicates_keys id l k) as Hk. by rewrite !list_fmap_id in Hk.
Qed.

Section GroupBy.
Context {R : Type} (key : R → option Z).

Lemma group_keys_NoDup (rows : list R) : NoDup (group_keys key rows).
Proof.
  unfold group_keys. rewrite sort_values_perm. apply drop_duplicates_id_NoDup.
Qed.

Lemma group_keys_elem (rows : list R) k :
  k ∈ group_keys key rows ↔ ∃ r, r ∈ rows ∧ key r = Some k.
Proof.
  unfold group_keys. rewrite sort_values_perm, drop_duplicates_id_elem.
  rewrite list_elem_of_omap. done.
Qed.

(** When [f] returns one row of the group it is given, [groupby_apply]
    returns one row per key, in key order. *)
Lemma groupby_apply_one (f : list R → outcome (list R)) (rows : list R) :
  (∀ g, g ≠ [] → ∃ r, f g = Returns [r] ∧ r ∈ g) →
  ∃ out, groupby_apply key f rows = Returns out ∧
         key <$> out = Some <$> group_keys key rows ∧
         ∀ r, r ∈ out → r ∈ rows.
Proof.
  intros Hf. unfold groupby_apply.
  assert (∀ ks, (∀ k, k ∈ ks → k ∈ group_keys key rows) →
    ∃ picked, mapM (λ k, f (get_group key rows k)) ks = Returns picked ∧
      key <$> mjoin picked = Some <$> ks ∧ ∀ r, r ∈ mjoin picked → r ∈ rows) as Hks.
  { induction ks as [|k ks IH]; intros Hin; simpl.
    - exists []. split; [done|]. split; [done|]. intros r Hr. by apply elem_of_nil in Hr.
    - destruct IH as (picked & Hp & Hkeys & Hrows); [intros; apply Hin; by right|].
      destruct (Hf (get_group key rows k)) as (r & Hr & Hg).
      { assert (k ∈ group_keys key rows) as Hk by (apply Hin; left).
        apply group_keys_elem in Hk as (r & Hr & Hk). intros Hnil.
        assert (r ∈ get_group key rows k) as Hg by (by apply list_elem_of_filter).
        rewrite Hnil in Hg. by apply elem_of_nil in Hg. }
      apply list_elem_of_filter in Hg as [Hk Hg].
      exists ([r] :: picked). rewrite Hr. simpl. rewrite Hp. simpl.
      split; [done|]. split.
      { change (mjoin ([r] :: picked)) with (r :: mjoin picked).
        rewrite Hk. f_equal. exact Hkeys. }
      change (mjoin ([r] :: picked)) with (r :: mjoin picked).
      intros r' [->|Hr']%elem_of_cons; [done | by apply Hrows]. }
  destruct (Hks (group_keys key rows)) as (picked & Hp & Hkeys & Hrows); [done|].
  exists (mjoin picked). rewrite Hp. done.
Qed.
End GroupBy.

Lemma current_step_total (rs : Frame StepRow) :
  "RunId" ∈ columns rs →
  ∃ cs, current_step rs = Returns cs ∧
        RunId <$> cs = Some <$> group_keys RunId (rows rs) ∧
        ∀ r, r ∈ cs → r ∈ rows rs.
Proof.
  intros Hcol. unfold current_step. rewrite bool_decide_eq_true_2 by done.
  apply groupby_apply_one. intros g Hg.
  by apply (pick_current_total (mkFrame (columns rs) g)).
Qed.

Lemma current_step_inv (rs : Frame StepRow) (cs : list StepRow) :
  current_step rs = Returns cs →
  "RunId" ∈ columns rs ∧
  RunId <$> cs = Some <$> group_keys RunId (rows rs) ∧
  ∀ r, r ∈ cs → r ∈ rows rs.
Proof.
  intros Hcs.
  assert ("RunId" ∈ columns rs) as Hcol.
  { unfold current_step in Hcs. by case_bool_decide. }
  destruct (current_step_total rs Hcol) as (cs' & Hcs' & Hkeys & Hrows).
  rewrite Hcs in Hcs'. injection Hcs' as <-. done.
Qed.

(** ** Left merges *)

Section MergeLeft.
Context {L R K J X : Type} `{EqDecision K}.
Context (left_on : L → K) (right_on : R → K) (join : L → option R → J).
Context (g : J → X) (f : L → X).
Hypothesis g_join : ∀ l r, g (join l r) = f l.

Lemma merge_left_row (l : L) (right : list R) :
  let out := match filter (λ r, right_on r = left_on l) right with
             | [] => [join l None]
             | ms => (λ r, join l (Some r)) <$> ms
             end in
  out ≠ [] ∧ Forall (λ j, g j = f l) out.
Proof.
  cbv zeta. destruct (filter _ right) as [|m ms].
  - split; [done|]. repeat constructor. apply g_join.
  - split; [done|]. apply Forall_forall.
    intros j (r & -> & _)%list_elem_of_fmap. apply g_join.
Qed.

Lemma merge_left_cons (l : L) (left : list L) (right : list R) :
  merge_left left_on right_on join (l :: left) right =
    (match filter (λ r, right_on r = left_on l) right with
     | [] => [join l None]
     | ms => (λ r, join l (Some r)) <$> ms
     end ++ merge_left left_on right_on join left right)%list.
Proof. reflexivity. Qed.

(** A left merge neither loses nor invents left rows. *)
Lemma merge_left_elem (left : list L) (right : list R) x :
  x ∈ g <$> merge_left left_on right_on join left right ↔ x ∈ f <$> left.
Proof.
  induction left as [|l left IH]; [done|].
  rewrite merge_left_cons, fmap_app, elem_of_app, IH, fmap_cons, elem_of_cons.
  destruct (merge_left_row l right) as [Hne Hall]. cbv zeta in Hne, Hall.
  destruct (match filter _ right with [] => _ | _ => _ end) as [|j out]; [done|].
  rewrite Forall_forall in Hall. split.
  - intros [(j' & -> & Hj')%list_elem_of_fmap|?]; [left; by apply Hall | by right].
  - intros [->|?]; [left | by right].
    apply list_elem_of_fmap. exists j. split; [symmetry; apply Hall|]; left.
Qed.

Lemma filter_key_NoDup (right : list R) k :
  NoDup (right_on <$> right) → (length (filter (λ r, right_on r = k) right) ≤ 1)%nat.
Proof.
  induction right as [|r right IH]; simpl; [lia|].
  rewrite ?fmap_cons. intros [Hr Hnd]%NoDup_cons.
  destruct (decide (right_on r = k)) as [Heq|Hne].
  - rewrite filter_cons_True by done. simpl.
    destruct (filter _ right) as [|r' ?] eqn:Hf; [simpl; lia|].
    exfalso. apply Hr.
    assert (r' ∈ filter (λ r, right_on r = k) right) as Hin by (rewrite Hf; left).
    apply list_elem_of_filter in Hin as [Hk Hin].
    apply list_elem_of_fmap. exists r'. by rewrite Hk.
  - rewrite filter_cons_False by done. by apply IH.
Qed.

(** With at most one right row per key there is no fan-out. *)
Lemma merge_left_unique (left : list L) (right : list R) :
  NoDup (right_on <$> right) →
  g <$> merge_left left_on right_on join left right = f <$> left.
Proof.
  intros Hnd. induction left as [|l left IH]; [done|].
  rewrite merge_left_cons, fmap_app, IH, fmap_cons.
  pose proof (filter_key_NoDup right (left_on l) Hnd) as Hlen.
  destruct (filter _ right) as [|m [|m' ms]]; simpl in *; [| |lia];
    by rewrite g_join.
Qed.
End MergeLeft.

(** ** The resolved rows *)

Lemma fmap_zip_with_left {A B C} (h : A → B → C) (p : C → A) (l : list A) (k : list B) :
  (∀ x y, p (h x y) = x) → (length l ≤ length k)%nat → p <$> zip_with h l k = l.
Proof.
  intros Hp. revert k. induction l as [|x l IH]; intros [|y k] Hlen; simpl in *;
    try done; try lia.
  rewrite Hp. f_equal. apply IH. lia.
Qed.

Lemma coalesce_length (df : Frame RawStep) name :
  length (_coalesce_by_name df name) = length (rows df).
Proof. unfold _coalesce_by_name. by destruct (decide _); rewrite length_fmap. Qed.

Lemma combine_dt_length to_datetime to_timedelta (dates times : list (option string)) col :
  _combine_dt to_datetime to_timedelta dates times = Returns col →
  length col = Nat.min (length dates) (length times).
Proof.
  unfold _combine_dt. intros Hm%mapM_Returns_inv%Forall2_length.
  by rewrite <- Hm, length_zip, !length_fmap.
Qed.

Lemma add_timestamps_raw to_datetime to_timedelta (rs : Frame RawStep) stamped :
  add_timestamps to_datetime to_timedelta rs = Returns stamped →
  step_raw <$> stamped = rows rs.
Proof.
  unfold add_timestamps. destruct (decide _) as [?|?].
  - destruct (_combine_dt _ _ (_coalesce_by_name rs "StartDate") _)
      as [started|] eqn:Hs; [|done].
    destruct (_combine_dt _ _ (_coalesce_by_name rs "FinishDate") _)
      as [finished|] eqn:Hf; [|done].
    cbn. intros [= <-]. apply fmap_zip_with_left; [done|].
    apply combine_dt_length in Hs, Hf.
    rewrite length_zip, Hs, Hf, !coalesce_length. lia.
  - simpl. intros [= <-]. apply fmap_zip_with_left; [done|].
    rewrite length_zip, !length_fmap. lia.
Qed.

Lemma step_frame_raw to_datetime to_timedelta (T : Tables) rs :
  step_frame to_datetime to_timedelta T = Returns rs →
  step_raw <$> rows rs = rows (t_run_step T).
Proof.
  unfold step_frame.
  destruct (add_timestamps _ _ _) as [stamped|] eqn:Hst; simpl; [|done].
  intros [= <-]. simpl. rewrite assign_status_fmap, <- list_fmap_compose.
  etrans; [|apply (add_timestamps_raw to_datetime to_timedelta _ _ Hst)].
  by apply list_fmap_ext.
Qed.

Lemma step_frame_columns to_datetime to_timedelta (T : Tables) rs :
  step_frame to_datetime to_timedelta T = Returns rs →
  columns rs
    = (columns (t_run_step T) ++ ["started_at"; "finished_at"; "status"; "updated_at"])%list.
Proof.
  unfold step_frame. destruct (add_timestamps _ _ _) as [stamped|]; simpl; [|done].
  by intros [= <-].
Qed.

Lemma resolve_names_elem (T : Tables) (cs : list StepRow) x :
  x ∈ loc_RunId <$> resolve_names T cs ↔ x ∈ RunId <$> cs.
Proof.
  unfold resolve_names.
  do 5 (rewrite (merge_left_elem _ _ _ loc_RunId loc_RunId); [|done]).
  by rewrite (merge_left_elem _ _ _ loc_RunId RunId).
Qed.

Lemma pm_by_module_NoDup (pm_raw : list PmRow) : NoDup (pm_Id <$> pm_by_module pm_raw).
Proof. apply drop_duplicates_NoDup. Qed.

Lemma resolve_names_unique (T : Tables) (cs : list StepRow) :
  (∀ a b, a ∈ t_process_type_category T → b ∈ t_process_type_category T →
          ptc_CategoryId a = ptc_CategoryId b → a = b) →
  loc_RunId <$> resolve_names T cs = RunId <$> cs.
Proof.
  intros Hptc. unfold resolve_names.
  rewrite (merge_left_unique _ _ _ loc_RunId loc_RunId)
    by (done || apply drop_duplicates_NoDup).
  rewrite (merge_left_unique _ _ _ loc_RunId loc_RunId)
    by (done || apply drop_duplicates_NoDup).
  rewrite (merge_left_unique _ _ _ loc_RunId loc_RunId).
  - rewrite (merge_left_unique _ _ _ loc_RunId loc_RunId)
      by (done || apply drop_duplicates_NoDup).
    rewrite (merge_left_unique _ _ _ loc_RunId loc_RunId)
      by (done || apply drop_duplicates_NoDup).
    by rewrite (merge_left_unique _ _ _ loc_RunId RunId) by (done || apply pm_by_module_NoDup).
  - done.
  - apply NoDup_fmap_2_strong; [|apply drop_duplicates_id_NoDup].
    intros a b Ha Hb Heq.
    apply (proj1 (drop_duplicates_id_elem _ _)) in Ha, Hb. by apply Hptc.
Qed.

(** ** Lookups that raise *)

Lemma outcome_bind_inv {A B} (m : outcome A) (f : A → outcome B) (b : B) :
  m ≫= f = Returns b → ∃ a, m = Returns a ∧ f a = Returns b.
Proof. destruct m as [a|]; [|done]. eauto. Qed.

Lemma require_Returns (wanted have : list string) :
  require wanted have = Returns () ↔ ∀ c, c ∈ wanted → c ∈ have.
Proof.
  unfold require. destruct (forallb _ wanted) eqn:Hall.
  - split; [|done]. intros _ c Hc.
    rewrite forallb_forall in Hall. apply list_elem_of_In in Hc.
    by apply Hall, bool_decide_eq_true in Hc.
  - split; [done|]. intros Hin. exfalso.
    assert (forallb (λ c, bool_decide (c ∈ have)) wanted = true) as Htrue.
    { apply forallb_forall. intros c Hc%list_elem_of_In.
      apply bool_decide_eq_true. by apply Hin. }
    congruence.
Qed.

Lemma require_inv (wanted have : list string) (u : unit) :
  require wanted have = Returns u → ∀ c, c ∈ wanted → c ∈ have.
Proof. destruct u. apply require_Returns. Qed.

Lemma require_Raises (wanted have : list string) (c : string) :
  c ∈ wanted → c ∉ have → require wanted have = Raises.
Proof.
  intros Hc Hmiss. unfold require. destruct (forallb _ wanted) eqn:Hall; [|done].
  rewrite forallb_forall in Hall. apply list_elem_of_In in Hc.
  by apply Hall, bool_decide_eq_true in Hc.
Qed.

Lemma merge_on_Returns (key : string) (left right : list string) :
  key ∈ left → key ∈ right →
  merge_on key left right = Returns (left ++ filter (λ c, c ≠ key) right)%list.
Proof.
  intros Hl Hr. unfold merge_on.
  rewrite (proj2 (require_Returns [key] left)), (proj2 (require_Returns [key] right)); [done| |];
    by intros c ->%list_elem_of_singleton.
Qed.

Lemma merge_on_inv (key : string) (left right cols : list string) :
  merge_on key left right = Returns cols →
  key ∈ left ∧ key ∈ right ∧ cols = (left ++ filter (λ c, c ≠ key) right)%list.
Proof.
  unfold merge_on.
  intros (u & Hl & (v & Hr & [= <-])%outcome_bind_inv)%outcome_bind_inv.
  pose proof (require_inv _ _ _ Hl) as Hl'. pose proof (require_inv _ _ _ Hr) as Hr'.
  split; [apply Hl'; left|]. split; [apply Hr'; left | done].
Qed.

Lemma merge_left_right_Returns (left_on right_on : string) (left right : list string) :
  left_on ∈ left → right_on ∈ right →
  merge_left_right left_on right_on left right = Returns (left ++ right)%list.
Proof.
  intros Hl Hr. unfold merge_left_right.
  rewrite (proj2 (require_Returns [left_on] left)),
          (proj2 (require_Returns [right_on] right)); [done| |];
    by intros c ->%list_elem_of_singleton.
Qed.

Lemma merge_left_right_inv (left_on right_on : string) (left right cols : list string) :
  merge_left_right left_on right_on left right = Returns cols →
  left_on ∈ left ∧ right_on ∈ right ∧ cols = (left ++ right)%list.
Proof.
  unfold merge_left_right.
  intros (u & Hl & (v & Hr & [= <-])%outcome_bind_inv)%outcome_bind_inv.
  pose proof (require_inv _ _ _ Hl) as Hl'. pose proof (require_inv _ _ _ Hr) as Hr'.
  split; [apply Hl'; left|]. split; [apply Hr'; left | done].
Qed.

(** ** The output records *)

Section Output.
Variable to_datetime : string → option Z.
Variable to_timedelta : string → option Z.
Variable timestamp_str : Z → string.

(** What step 3 returns, when it returns: the selected steps [cs], one per
    run, resolved and sorted on [RunId]; the frames then carry every column
    that the grouping, the merges and the selection of run columns look
    up. *)
Lemma location_rows_inv (H : Headers) (T : Tables) (located : list LocRow) :
  location_rows to_datetime to_timedelta H T = Returns located →
  ∃ rs cs, step_frame to_datetime to_timedelta T = Returns rs ∧
    current_step rs = Returns cs ∧
    RunId <$> cs = Some <$> group_keys RunId (rows rs) ∧
    located = current_location (resolve_names T cs) ∧
    "RunId" ∈ columns (t_run_step T) ∧ "ProcessModuleId" ∈ columns (t_run_step T) ∧
    (∀ c, c ∈ ["Id"; "ProcessId"; "ModuleId"] → c ∈ h_process_module H) ∧
    (∀ c, c ∈ ["RunId"; "Label"; "Name"; "Motivation"; "Status"] → c ∈ h_run H).
Proof.
  unfold location_rows.
  intros (rs & Hrs & Hloc)%outcome_bind_inv.
  apply outcome_bind_inv in Hloc as (cs & Hcs & Hloc).
  apply outcome_bind_inv in Hloc as (u & Hpm & Hloc).
  pose proof (require_inv _ _ _ Hpm) as Hpm'.
  apply outcome_bind_inv in Hloc as (c1 & (Hkey & _ & _)%merge_left_right_inv & Hloc).
  apply outcome_bind_inv in Hloc as (c2 & _ & Hloc).
  apply outcome_bind_inv in Hloc as (c3 & _ & Hloc).
  apply outcome_bind_inv in Hloc as (c4 & _ & Hloc).
  apply outcome_bind_inv in Hloc as (c5 & _ & Hloc).
  apply outcome_bind_inv in Hloc as (v & Hrun & Hloc).
  pose proof (require_inv _ _ _ Hrun) as Hrun'.
  apply outcome_bind_inv in Hloc as (c6 & _ & Hloc).
  apply outcome_bind_inv in Hloc as (w & _ & [= <-]).
  destruct (current_step_inv rs cs Hcs) as (Hcol & Hkeys & _).
  rewrite (step_frame_columns _ _ _ _ Hrs) in Hcol, Hkey.
  exists rs, cs. split; [done|]. split; [done|]. split; [done|]. split; [done|].
  split; [|split; [|done]].
  - apply elem_of_app in Hcol as [?|Hcol]; [done|].
    by repeat (apply elem_of_cons in Hcol as [[=]|Hcol]); apply elem_of_nil in Hcol.
  - apply elem_of_app in Hkey as [?|Hkey]; [done|].
    by repeat (apply elem_of_cons in Hkey as [[=]|Hkey]); apply elem_of_nil in Hkey.
Qed.

(** Membership of a literal name in a list of columns built by merges. *)
Local Ltac col_in :=
  rewrite ?elem_of_app, ?list_elem_of_filter, ?elem_of_cons; naive_solver.

(** Step 3 returns as soon as the timestamps do not overflow and the frames
    carry the columns it looks up. *)
Lemma location_rows_returns (H : Headers) (T : Tables) (rs : Frame StepRow) :
  step_frame to_datetime to_timedelta T = Returns rs →
  "RunId" ∈ columns (t_run_step T) → "ProcessModuleId" ∈ columns (t_run_step T) →
  (∀ c, c ∈ ["Id"; "ProcessId"; "ModuleId"] → c ∈ h_process_module H) →
  "ProcessId" ∈ h_process H → "CategoryId" ∈ h_process H →
  "CategoryId" ∈ h_process_category H →
  "CategoryId" ∈ h_process_type_category H → "TypeId" ∈ h_process_type_category H →
  "ProcessTypeId" ∈ h_process_type H →
  (∀ c, c ∈ ["RunId"; "Label"; "Name"; "Motivation"; "Status"] → c ∈ h_run H) →
  ∃ cs, current_step rs = Returns cs ∧
    location_rows to_datetime to_timedelta H T
      = Returns (current_location (resolve_names T cs)).
Proof.
  intros Hrs Hrun Hpmid Hpm Hp Hpc Hc Hptc Htype Hpt Hruncols.
  pose proof (step_frame_columns _ _ _ _ Hrs) as Hcols.
  assert (∀ c, c ∈ columns (t_run_step T) → c ∈ columns rs) as Hin
    by (intros c Hc'; rewrite Hcols; apply elem_of_app; by left).
  pose proof (Hin _ Hrun) as Hrun'. pose proof (Hin _ Hpmid) as Hpmid'.
  destruct (current_step_total rs Hrun') as (cs & Hcs & _).
  exists cs. split; [done|]. unfold location_rows. rewrite Hrs. cbn. rewrite Hcs. cbn.
  rewrite (proj2 (require_Returns _ _) Hpm). cbn.
  rewrite merge_left_right_Returns by col_in. cbn.
  rewrite merge_on_Returns by col_in. cbn.
  rewrite merge_on_Returns by col_in. cbn.
  rewrite merge_on_Returns by col_in. cbn.
  rewrite merge_left_right_Returns by col_in. cbn.
  rewrite (proj2 (require_Returns _ _) Hruncols). cbn.
  rewrite merge_on_Returns by col_in. cbn.
  rewrite (proj2 (require_Returns ["RunId"] _)); [done|].
  intros c ->%list_elem_of_singleton. col_in.
Qed.

Lemma located_RunId (T : Tables) (cs : list StepRow) x :
  x ∈ loc_RunId <$> current_location (resolve_names T cs) ↔ x ∈ RunId <$> cs.
Proof.
  unfold current_location. by rewrite sort_values_perm, resolve_names_elem.
Qed.

Lemma batch_ids (located : list LocRow) :
  (∀ row, row ∈ located → is_Some (loc_RunId row)) →
  Some <$> (batch_id <$> batches_of timestamp_str located) = loc_RunId <$> located.
Proof.
  intros Hall. unfold batches_of. rewrite <- !list_fmap_compose.
  apply Forall_fmap_ext, Forall_forall. intros row Hrow. simpl.
  by destruct (Hall row Hrow) as [k ->].
Qed.

Lemma group_keys_steps (T : Tables) (rs : Frame StepRow) k :
  step_frame to_datetime to_timedelta T = Returns rs →
  k ∈ group_keys RunId (rows rs) ↔
  ∃ r, r ∈ rows (t_run_step T) ∧ rs_RunId r = Some k.
Proof.
  intros Hrs.
  rewrite group_keys_elem, <- (step_frame_raw to_datetime to_timedelta T rs Hrs). split.
  - intros (r & Hr & Hk). exists (step_raw r). split; [|done].
    apply list_elem_of_fmap. eauto.
  - intros (raw & (r & -> & Hr)%list_elem_of_fmap & Hk). eauto.
Qed.

(** Every resolved row carries the [RunId] of a group, hence a number. *)
Lemma located_RunId_is_Some (T : Tables) (rs : Frame StepRow) (cs : list StepRow) row :
  RunId <$> cs = Some <$> group_keys RunId (rows rs) →
  row ∈ current_location (resolve_names T cs) → is_Some (loc_RunId row).
Proof.
  intros Hkeys Hrow.
  assert (loc_RunId row ∈ RunId <$> cs) as Hin.
  { apply (proj1 (located_RunId T cs _)), list_elem_of_fmap. eauto. }
  rewrite Hkeys in Hin. apply list_elem_of_fmap in Hin as (k & -> & _). by eexists.
Qed.
End Output.

(** C2, as the code has it.  Whenever step 3 returns its records (it raises,
    and the invocation answers 500, when a frame lacks a column that the
    grouping, a merge or the selection of the run columns looks up, or when a
    date plus a time overflows the range of a timestamp), the records carry
    exactly the non-null RunIds that have at least one run_step row, whether
    or not the Run table lists them: a run without steps has no record, a run
    with steps has at least one.  When no two different
    process_type_category rows share a CategoryId, no RunId appears in more
    than one record. *)
Theorem records_per_run_with_steps
    (to_datetime to_timedelta : string → option Z) (timestamp_str : Z → string)
    (H : Headers) (T : Tables) (batches : list Batch) :
  location_batches to_datetime to_timedelta timestamp_str H T = Returns batches →
  (∀ k, k ∈ batch_id <$> batches ↔
        ∃ r, r ∈ rows (t_run_step T) ∧ rs_RunId r = Some k) ∧
  ((∀ a b, a ∈ t_process_type_category T → b ∈ t_process_type_category T →
           ptc_CategoryId a = ptc_CategoryId b → a = b) →
   NoDup (batch_id <$> batches)).
Proof.
  unfold location_batches.
  destruct (location_rows to_datetime to_timedelta H T) as [located|] eqn:Hloc; [|done].
  intros [= <-].
  apply location_rows_inv in Hloc as (rs & cs & Hrs & Hcs & Hkeys & -> & _).
  assert (Some <$> (batch_id <$>
            batches_of timestamp_str (current_location (resolve_names T cs)))
          = loc_RunId <$> current_location (resolve_names T cs)) as Hids.
  { apply batch_ids. intros row Hrow. by eapply located_RunId_is_Some. }
  split.
  - intros k. rewrite <- (group_keys_steps to_datetime to_timedelta T rs k Hrs).
    rewrite <- (list_elem_of_fmap_inj Some), Hids, located_RunId, Hkeys.
    apply (list_elem_of_fmap_inj Some).
  - intros Hptc. apply (NoDup_fmap_1 Some). rewrite Hids.
    unfold current_location. rewrite sort_values_perm, (resolve_names_unique T cs Hptc), Hkeys.
    apply (NoDup_fmap_2 Some), group_keys_NoDup.
Qed.

Lemma records_per_run_with_steps_witness :
  let T := mkTables
    [mkRunRow (Some 101) (Some "B-101") (Some "Cell run") None (Some "Active") None]
    (mkFrame ["RunId"; "ProcessModuleId"; "Sequence"]
       [mkRawStep (Some 101) (Some 50) (Some 1) None None None None None None;
        mkRawStep (Some 101) (Some 51) (Some 2) None None None None None None])
    [mkPmRow (Some 50) (Some 9) None; mkPmRow (Some 51) (Some 9) None]
    [mkProcessRow (Some 9) (Some "Coating") (Some 3)]
    [mkCategoryRow (Some 3) (Some "Deposition")]
    [mkPtcRow (Some 1) (Some 3); mkPtcRow (Some 2) (Some 4)]
    [mkPTypeRow (Some 1) (Some "Wet")] in
  (∀ a b, a ∈ t_process_type_category T → b ∈ t_process_type_category T →
          ptc_CategoryId a = ptc_CategoryId b → a = b) ∧
  ∃ batches,
    location_batches PandasText.to_datetime PandasText.to_timedelta pretty
      requested_headers T = Returns batches ∧
    NoDup (batch_id <$> batches).
Proof.
  intros T.
  assert (∀ a b, a ∈ t_process_type_category T → b ∈ t_process_type_category T →
                 ptc_CategoryId a = ptc_CategoryId b → a = b) as Hptc.
  { intros a b. simpl. rewrite !elem_of_cons, !elem_of_nil.
    intros [->|[->|[]]] [->|[->|[]]]; simpl; congruence. }
  split; [exact Hptc|].
  assert (match location_batches PandasText.to_datetime PandasText.to_timedelta pretty
                  requested_headers T with
          | Returns _ => True | Raises => False end) as Hret by (vm_compute; exact I).
  destruct (location_batches PandasText.to_datetime PandasText.to_timedelta pretty
              requested_headers T) as [batches|] eqn:Hb; [|destruct Hret].
  exists batches. split; [reflexivity|].
  exact (proj2 (records_per_run_with_steps PandasText.to_datetime PandasText.to_timedelta
                  pretty requested_headers T batches Hb) Hptc).
Defined.

(** C2 as stated fails: run 1 has a step but no row in the Run table (which
    only lists run 2), and the output still has a record for run 1. *)
Lemma record_for_run_missing_from_run_table :
  let T := mkTables
    [mkRunRow (Some 2) (Some "B-2") (Some "Listed run") None (Some "Active") None]
    (mkFrame ["RunId"; "ProcessModuleId"]
       [mkRawStep (Some 1) (Some 50) None None None None None None None])
    [mkPmRow (Some 50) (Some 9) (Some 4)]
    [mkProcessRow (Some 9) (Some "Coating") (Some 3)]
    [mkCategoryRow (Some 3) (Some "Deposition")]
    [mkPtcRow (Some 1) (Some 3)]
    [mkPTypeRow (Some 1) (Some "Wet")] in
  (∀ r, r ∈ t_run T → run_RunId r ≠ Some 1) ∧
  ∃ batches,
    location_batches PandasText.to_datetime PandasText.to_timedelta pretty
      requested_headers T = Returns batches ∧
    batch_id <$> batches = [1].
Proof.
  intros T. split.
  - intros r. simpl. rewrite elem_of_cons, elem_of_nil. by intros [->|[]].
  - eexists. split; reflexivity.
Qed.

(** Two process_type_category rows for one category fan the run out into two
    records. *)
Example fan_out_through_process_type_category :
  let T := mkTables
    [mkRunRow (Some 5) None None None None None]
    (mkFrame ["RunId"; "ProcessModuleId"]
       [mkRawStep (Some 5) (Some 50) None None None None None None None])
    [mkPmRow (Some 50) (Some 9) None]
    [mkProcessRow (Some 9) (Some "Coating") (Some 3)]
    [mkCategoryRow (Some 3) (Some "Deposition")]
    [mkPtcRow (Some 1) (Some 3); mkPtcRow (Some 2) (Some 3)]
    [mkPTypeRow (Some 1) (Some "Wet"); mkPTypeRow (Some 2) (Some "Dry")] in
  (λ b, (batch_id b, process_type_name b)) <$>
    try_except (location_batches PandasText.to_datetime PandasText.to_timedelta pretty
                  requested_headers T) []
  = [(5, "Wet"); (5, "Dry")].
Proof. reflexivity. Qed.

(** A run_step frame that lacks [RunId], or a run frame that lacks
    [Motivation], makes step 3 raise on tables that otherwise give a
    record. *)
Example step_3_raises_without_its_columns :
  let T cols := mkTables
    [mkRunRow (Some 7) (Some "B-7") (Some "Anode") None (Some "Active") None]
    (mkFrame cols [mkRawStep (Some 7) (Some 50) (Some 1) None None None None None None])
    [mkPmRow (Some 50) (Some 9) (Some 4)]
    [mkProcessRow (Some 9) (Some "Coating") (Some 3)]
    [mkCategoryRow (Some 3) (Some "Deposition")]
    [mkPtcRow (Some 1) (Some 3)]
    [mkPTypeRow (Some 1) (Some "Wet")] in
  let without_motivation :=
    mkHeaders ["RunId"; "Label"; "Name"; "Status"; "RunTypeId"]
              (h_run_step requested_headers) (h_process_module requested_headers)
              (h_process requested_headers) (h_process_category requested_headers)
              (h_process_type_category requested_headers)
              (h_process_type requested_headers) in
  location_batches PandasText.to_datetime PandasText.to_timedelta pretty
    requested_headers (T ["ProcessModuleId"; "Sequence"]) = Raises ∧
  location_batches PandasText.to_datetime PandasText.to_timedelta pretty
    without_motivation (T ["RunId"; "ProcessModuleId"; "Sequence"]) = Raises ∧
  batch_id <$> try_except
    (location_batches PandasText.to_datetime PandasText.to_timedelta pretty
       requested_headers (T ["RunId"; "ProcessModuleId"; "Sequence"])) [] = [7].
Proof. repeat split; reflexivity. Qed.

(** ** Projection *)

Lemma sorted_batches timestamp_str (located : list LocRow) :
  (∀ row, row ∈ located → is_Some (loc_RunId row)) →
  StronglySorted (λ a b, lex_leb [(loc_RunId, false)] a b = true) located →
  StronglySorted (λ a b, batch_id b ≤ batch_id a) (batches_of timestamp_str located).
Proof.
  intros Hall Hs. unfold batches_of. induction Hs as [|row located Hs IH Hrow]; [constructor|].
  rewrite fmap_cons. constructor.
  - apply IH. intros; apply Hall; by right.
  - apply Forall_fmap, Forall_forall. intros row' Hrow'.
    rewrite Forall_forall in Hrow. specialize (Hrow row' Hrow').
    destruct (Hall row) as [x Hx]; [left|].
    destruct (Hall row') as [y Hy]; [by right|].
    change (default 0 (loc_RunId row') ≤ default 0 (loc_RunId row)).
    unfold lex_leb in Hrow. simpl in Hrow. rewrite Hx, Hy in *. simpl in *.
    match type of Hrow with
    | context [?a ?= ?b] => destruct (Z.compare_spec a b)
    end; try done; lia.
Qed.

(** C9, as the code has it.  Whenever step 3 returns its resolved rows, the
    output holds one record per resolved row, sorted by RunId in descending
    order.  In every record a missing value becomes the empty string, except
    that a missing batch name and a missing step status become ["Unknown"]; a
    missing RunId becomes 0. *)
Theorem projection_normalises
    (to_datetime to_timedelta : string → option Z) (timestamp_str : Z → string)
    (H : Headers) (T : Tables) (located : list LocRow) :
  location_rows to_datetime to_timedelta H T = Returns located →
  location_batches to_datetime to_timedelta timestamp_str H T
    = Returns (to_batch timestamp_str <$> located) ∧
  StronglySorted (λ a b, batch_id b ≤ batch_id a) (to_batch timestamp_str <$> located) ∧
  ∀ row, let b := to_batch timestamp_str row in
    batch_id b = default 0 (loc_RunId row) ∧
    batch_number b = default "" (loc_Label row) ∧
    batch_name b = default "Unknown" (loc_RunName row) ∧
    batch_status b = default "" (loc_Status row) ∧
    motivation b = default "" (loc_MotivationText row) ∧
    process_name b = default "" (loc_ProcessName row) ∧
    category_name b = default "" (loc_CategoryName row) ∧
    process_type_name b = default "" (loc_ProcessTypeName row) ∧
    process_status b = default "Unknown" (status (loc_step row)) ∧
    started_at_text b = default "" (timestamp_str <$> started_at (loc_step row)) ∧
    finished_at_text b = default "" (timestamp_str <$> finished_at (loc_step row)).
Proof.
  intros Hloc. split; [unfold location_batches; by rewrite Hloc|].
  apply location_rows_inv in Hloc as (rs & cs & Hrs & Hcs & Hkeys & -> & _). split.
  - apply sorted_batches; [|apply sort_values_sorted].
    intros row Hrow. by eapply located_RunId_is_Some.
  - intros row. simpl. repeat split;
      by repeat match goal with |- context [match ?x with _ => _ end] => destruct x end.
Qed.

Lemma projection_normalises_witness :
  let T := mkTables
    [mkRunRow (Some 7) (Some "B-7") (Some "Anode") None None None;
     mkRunRow (Some 9) None (Some "Cathode") None (Some "Active") None]
    (mkFrame ["RunId"; "ProcessModuleId"]
       [mkRawStep (Some 7) (Some 50) None None None None None None None;
        mkRawStep (Some 9) (Some 51) None None None None None None None])
    [mkPmRow (Some 50) (Some 9) (Some 4)]
    [mkProcessRow (Some 9) (Some "Coating") (Some 3)]
    [mkCategoryRow (Some 3) (Some "Deposition")]
    [mkPtcRow (Some 1) (Some 3)]
    [mkPTypeRow (Some 1) (Some "Wet")] in
  ∃ located,
    location_rows PandasText.to_datetime PandasText.to_timedelta requested_headers T
      = Returns located ∧
    batch_id <$> (to_batch pretty <$> located) = [9; 7] ∧
    StronglySorted (λ a b, batch_id b ≤ batch_id a) (to_batch pretty <$> located).
Proof.
  intros T.
  assert (match location_rows PandasText.to_datetime PandasText.to_timedelta
                  requested_headers T with
          | Returns located => batch_id <$> (to_batch pretty <$> located) = [9; 7]
          | Raises => False end) as Hret by (vm_compute; reflexivity).
  destruct (location_rows PandasText.to_datetime PandasText.to_timedelta
              requested_headers T) as [located|] eqn:Hloc; [|destruct Hret].
  exists located. split; [reflexivity|]. split; [exact Hret|].
  exact (proj1 (proj2 (projection_normalises PandasText.to_datetime PandasText.to_timedelta
                         pretty requested_headers T located Hloc))).
Defined.

(** C9 as stated fails on the batch name: run 7 is listed in the Run table
    with a null name, and its record shows ["Unknown"], not the empty
    string. *)
Lemma missing_batch_name_is_Unknown :
  let T := mkTables
    [mkRunRow (Some 7) (Some "B-7") None None (Some "Active") None]
    (mkFrame ["RunId"; "ProcessModuleId"]
       [mkRawStep (Some 7) (Some 50) None None None None None None None])
    [mkPmRow (Some 50) (Some 9) (Some 4)]
    [mkProcessRow (Some 9) (Some "Coating") (Some 3)]
    [mkCategoryRow (Some 3) (Some "Deposition")]
    [mkPtcRow (Some 1) (Some 3)]
    [mkPTypeRow (Some 1) (Some "Wet")] in
  ∃ row b,
    location_rows PandasText.to_datetime PandasText.to_timedelta requested_headers T
      = Returns [row] ∧
    location_batches PandasText.to_datetime PandasText.to_timedelta pretty
      requested_headers T = Returns [b] ∧
    loc_RunName row = None ∧ batch_name b = "Unknown" ∧ batch_name b ≠ "".
Proof. intros T. do 2 eexists. repeat split; try reflexivity. discriminate. Qed.

(** ** The reader *)

Lemma df_columns_empty_frame {Cell} (columns : list string) :
  df_columns (empty_frame (Cell := Cell) columns) = columns.
Proof.
  unfold df_columns, empty_frame. rewrite <- list_fmap_compose.
  rewrite <- (list_fmap_id columns) at 2. by apply list_fmap_ext.
Qed.

Section ReaderFacts.
Context {Cell Blob Table : Type}.
Variable SESSION_get : string → outcome (Z * Blob).
Variable pq_ParquetFile : Blob → outcome (@ParquetFile Table).
Variable to_pandas : Table → outcome (DataFrame Cell).

Lemma body_on_failure blob_name columns :
  read_failure SESSION_get pq_ParquetFile to_pandas blob_name columns →
  read_parquet_subset_body SESSION_get pq_ParquetFile to_pandas blob_name columns = Raises ∨
  read_parquet_subset_body SESSION_get pq_ParquetFile to_pandas blob_name columns
    = Returns (empty_frame columns).
Proof.
  unfold read_parquet_subset_body, download_blob_to_memory.
  intros [Hget|status content Hget Hstatus|content Hget Hopen
          |content pf request Hget Hopen Hreq Hread
          |content pf request table Hget Hopen Hreq Hread Hpd]; rewrite Hget; simpl.
  - by left.
  - right. apply Z.eqb_neq in Hstatus. by rewrite Hstatus.
  - left. by rewrite Hopen.
  - left. rewrite Hopen. simpl. rewrite Hreq. simpl. by rewrite Hread.
  - left. rewrite Hopen. simpl. rewrite Hreq. simpl. rewrite Hread. simpl. by rewrite Hpd.
Qed.
End ReaderFacts.

(** C6. [read_parquet_subset] is a total function into frames.  Whenever the
    download raises or is refused, the content cannot be opened, the column
    read raises or the conversion raises, the frame it returns has no rows and
    its headers are exactly the requested column list, in order. *)
Theorem reader_failure_gives_empty_frame {Cell Blob Table : Type}
    (SESSION_get : string → outcome (Z * Blob))
    (pq_ParquetFile : Blob → outcome (@ParquetFile Table))
    (to_pandas : Table → outcome (DataFrame Cell))
    (blob_name name : string) (columns : list string) :
  read_failure SESSION_get pq_ParquetFile to_pandas blob_name columns →
  let df := read_parquet_subset SESSION_get pq_ParquetFile to_pandas blob_name name columns in
  df = empty_frame columns ∧ df_columns df = columns ∧ Forall (λ col, col.2 = []) df.
Proof.
  intros Hfail. cbv zeta.
  assert (read_parquet_subset SESSION_get pq_ParquetFile to_pandas blob_name name columns
          = empty_frame columns) as ->.
  { unfold read_parquet_subset.
    by destruct (body_on_failure _ _ _ _ _ Hfail) as [-> | ->]. }
  split; [done|]. split; [apply df_columns_empty_frame|].
  unfold empty_frame. apply Forall_fmap, Forall_forall. done.
Qed.

Lemma reader_failure_gives_empty_frame_witness :
  let SESSION_get := (λ _ : string, Returns (404, "")) in
  let pq_ParquetFile := (λ _ : string, @Raises (@ParquetFile (DataFrame Z))) in
  let to_pandas := (λ t : DataFrame Z, Returns t) in
  read_failure SESSION_get pq_ParquetFile to_pandas "tables/run.parquet" ["Id"; "Label"] ∧
  read_parquet_subset SESSION_get pq_ParquetFile to_pandas "tables/run.parquet" "run"
    ["Id"; "Label"] = [("Id", []); ("Label", [])].
Proof.
  intros SESSION_get pq_ParquetFile to_pandas.
  assert (read_failure SESSION_get pq_ParquetFile to_pandas "tables/run.parquet"
            ["Id"; "Label"]) as Hfail.
  { apply (get_refused _ _ _ _ _ 404 ""); [reflexivity | discriminate]. }
  split; [exact Hfail|].
  exact (proj1 (reader_failure_gives_empty_frame SESSION_get pq_ParquetFile to_pandas
                  "tables/run.parquet" "run" ["Id"; "Label"] Hfail)).
Defined.

(** ** Duplicate column names *)

Lemma size_list_to_set_NoDup (l : list string) :
  (size (list_to_set l : gset string) ≤ length l)%nat ∧
  (size (list_to_set l : gset string) = length l ↔ NoDup l).
Proof.
  induction l as [|x l [IHle IHeq]]; simpl.
  - split; [done|]. split; [constructor | done].
  - destruct (decide (x ∈ l)) as [Hx|Hx].
    + assert ({[x]} ∪ list_to_set l = (list_to_set l : gset string)) as ->
        by (apply (elem_of_list_to_set (C := gset string)) in Hx; set_solver).
      split; [lia|]. split; [lia|]. by intros [? _]%NoDup_cons.
    + rewrite size_union by (rewrite disjoint_singleton_l, elem_of_list_to_set; done).
      rewrite size_singleton. split; [lia|]. rewrite NoDup_cons, <- IHeq. split.
      * intros [= ?]. done.
      * intros [_ ->]. done.
Qed.

Lemma has_duplicates_spec (col_names : list string) :
  has_duplicates col_names = true ↔ ¬ NoDup col_names.
Proof.
  unfold has_duplicates. rewrite negb_true_iff, Nat.eqb_neq.
  destruct (size_list_to_set_NoDup col_names) as [_ <-]. split; intros H ?; by apply H.
Qed.

Lemma unique_indices_from_spec (col_names : list string) : ∀ seen i k,
  k ∈ unique_indices_from seen i col_names ↔
  ∃ j c, k = (i + j)%nat ∧ col_names !! j = Some c ∧ (c ∉ seen) ∧
         ∀ j', (j' < j)%nat → col_names !! j' ≠ Some c.
Proof.
  induction col_names as [|c0 rest IH]; intros seen i k; simpl.
  - rewrite elem_of_nil. split; [done|]. by intros (j & c & _ & ? & _).
  - destruct (decide (c0 ∈ seen)) as [Hc0|Hc0].
    + rewrite IH. split.
      * intros (j & c & -> & Hj & Hc & Hfirst). exists (S j), c.
        split; [lia|]. split; [done|]. split; [done|].
        intros [|j'] Hlt; simpl; [intros [= ->]; done | apply Hfirst; lia].
      * intros ([|j] & c & -> & Hj & Hc & Hfirst); simpl in Hj.
        { by injection Hj as ->. }
        exists j, c. split; [lia|]. split; [done|]. split; [done|].
        intros j' Hlt. apply (Hfirst (S j')). lia.
    + rewrite elem_of_cons, IH. split.
      * intros [->|(j & c & -> & Hj & Hc & Hfirst)].
        { exists 0%nat, c0. split; [lia|]. split; [done|]. split; [done|]. intros; lia. }
        exists (S j), c. split; [lia|]. split; [done|]. split; [set_solver|].
        intros [|j'] Hlt; simpl; [intros [= ->]; set_solver | apply Hfirst; lia].
      * intros ([|j] & c & -> & Hj & Hc & Hfirst); simpl in Hj; [left; lia|].
        right. exists j, c. split; [lia|]. split; [done|]. split.
        -- pose proof (Hfirst 0%nat ltac:(lia)) as H0. simpl in H0.
           assert (c0 ≠ c) by congruence. set_solver.
        -- intros j' Hlt. apply (Hfirst (S j')). lia.
Qed.

Lemma unique_indices_first_occurrence (col_names : list string) (i : nat) :
  i ∈ unique_indices_from ∅ 0 col_names ↔ first_occurrence col_names i.
Proof.
  rewrite unique_indices_from_spec. unfold first_occurrence. split.
  - intros (j & c & -> & Hj & _ & Hfirst). eauto.
  - intros (c & Hi & Hfirst). exists i, c. split; [done|]. split; [done|].
    split; [set_solver|done].
Qed.

Lemma unique_indices_from_NoDup (col_names : list string) : ∀ seen i,
  NoDup (unique_indices_from seen i col_names).
Proof.
  induction col_names as [|c0 rest IH]; intros seen i; simpl; [constructor|].
  destruct (decide (c0 ∈ seen)); [apply IH|].
  constructor; [|apply IH].
  rewrite unique_indices_from_spec. intros (j & c & ? & _). lia.
Qed.

(** Every name of the schema is the name at one of the kept positions. *)
Lemma first_occurrence_exists (col_names : list string) (c : string) :
  c ∈ col_names → ∃ i, first_occurrence col_names i ∧ col_names !! i = Some c.
Proof.
  intros Hc. induction col_names as [|c0 rest IH]; [by apply elem_of_nil in Hc|].
  destruct (decide (c0 = c)) as [->|Hne].
  - exists 0%nat. split; [|done]. exists c. split; [done|]. intros; lia.
  - apply elem_of_cons in Hc as [->|Hc]; [done|].
    destruct (IH Hc) as (i & (c' & Hi & Hfirst) & Hic).
    exists (S i). split; [|done]. exists c'. split; [done|].
    intros [|j] Hlt; simpl; [|apply Hfirst; lia].
    intros [= ->]. rewrite Hi in Hic. congruence.
Qed.

Lemma getitem_columns {Cell} (df : DataFrame Cell) (names : list string) (c : string) :
  c ∈ df_columns (getitem df names) ↔ c ∈ names ∧ c ∈ df_columns df.
Proof.
  unfold df_columns, getitem. induction names as [|n names IH]; simpl.
  - rewrite elem_of_nil. set_solver.
  - rewrite fmap_app, elem_of_app, IH, elem_of_cons.
    assert (c ∈ (filter (λ col, col.1 = n) df).*1 ↔ c = n ∧ c ∈ df.*1) as ->.
    { rewrite !list_elem_of_fmap. split.
      - intros (col & -> & [Hn Hcol]%list_elem_of_filter). split; [done|]. eauto.
      - intros [-> (col & Heq & Hcol)]. exists col. split; [done|].
        by apply list_elem_of_filter. }
    naive_solver.
Qed.

(** The request the reader makes.  On a schema with duplicate names the reader
    computes the positions of the first occurrence of every name, drops every
    later position, and asks [read] for the names found at the kept positions:
    a duplicate-free list holding every name of the schema once.  On a schema
    without duplicates it asks for the wanted columns the schema has, and for
    the whole file when there is none.  The frame read is then cut down to the
    wanted columns it carries; it becomes an empty frame with the wanted
    headers when it carries none, and is left as it is when no column is
    wanted. *)
Theorem read_request_spec (columns col_names : list string) :
  (∀ i, i ∈ unique_indices_from ∅ 0 col_names ↔ first_occurrence col_names i) ∧
  (¬ NoDup col_names →
     ∃ names, read_request columns col_names = Returns (Some names) ∧
       Forall2 (λ i c, col_names !! i = Some c) (unique_indices_from ∅ 0 col_names) names ∧
       NoDup names ∧ ∀ c, c ∈ names ↔ c ∈ col_names) ∧
  (NoDup col_names →
     read_request columns col_names =
       Returns match filter (λ c, c ∈ col_names) columns with
               | [] => None
               | available_cols => Some available_cols
               end) ∧
  (∀ (Cell : Type) (df : DataFrame Cell),
     match columns, filter (λ c, c ∈ df_columns df) columns with
     | [], _ => restrict_columns columns df = df
     | _ :: _, [] => restrict_columns columns df = empty_frame columns
     | _ :: _, _ :: _ =>
         ∀ c, c ∈ df_columns (restrict_columns columns df) ↔
              c ∈ columns ∧ c ∈ df_columns df
     end).
Proof.
  split; [apply unique_indices_first_occurrence|]. split; [|split].
  - intros Hdup. unfold read_request.
    rewrite (proj2 (has_duplicates_spec col_names) Hdup).
    destruct (mapM_Returns (py_index col_names) (unique_indices_from ∅ 0 col_names))
      as (names & -> & Hnames).
    { intros i (c & Hi & _)%unique_indices_first_occurrence.
      exists c. unfold py_index. by rewrite Hi. }
    assert (Forall2 (λ i c, col_names !! i = Some c)
              (unique_indices_from ∅ 0 col_names) names) as Hlook.
    { eapply Forall2_impl; [exact Hnames|]. intros i c. unfold py_index.
      destruct (col_names !! i); [by intros [= ->] | done]. }
    exists names. split; [done|]. split; [done|]. split.
    + apply NoDup_alt. intros a b c Ha Hb.
      destruct (Forall2_lookup_r _ _ _ _ _ Hlook Ha) as (i & Hi & Hic).
      destruct (Forall2_lookup_r _ _ _ _ _ Hlook Hb) as (j & Hj & Hjc).
      assert (i = j) as <-.
      { apply list_elem_of_lookup_2 in Hi as Hi', Hj as Hj'.
        apply unique_indices_first_occurrence in Hi' as (ci & Hci & Hfi).
        apply unique_indices_first_occurrence in Hj' as (cj & Hcj & Hfj).
        destruct (decide (i < j)%nat) as [Hlt|Hge].
        - exfalso. apply (Hfj i Hlt). congruence.
        - destruct (decide (j < i)%nat) as [Hlt|Hge']; [|lia].
          exfalso. apply (Hfi j Hlt). congruence. }
      eapply NoDup_lookup; [apply (unique_indices_from_NoDup col_names ∅ 0%nat)|done..].
    + intros c. split.
      * intros [a Ha]%list_elem_of_lookup_1.
        destruct (Forall2_lookup_r _ _ _ _ _ Hlook Ha) as (i & _ & Hic).
        by eapply list_elem_of_lookup_2.
      * intros (i & Hfirst%unique_indices_first_occurrence & Hic)%first_occurrence_exists.
        apply list_elem_of_lookup_1 in Hfirst as [a Ha].
        destruct (Forall2_lookup_l _ _ _ _ _ Hlook Ha) as (c' & Hc' & Hic').
        assert (c' = c) as -> by congruence. by eapply list_elem_of_lookup_2.
  - intros Hnd. unfold read_request.
    assert (has_duplicates col_names = false) as ->.
    { destruct (has_duplicates col_names) eqn:E; [|done].
      by apply has_duplicates_spec in E. }
    by destruct (filter _ columns).
  - intros Cell df. unfold restrict_columns.
    destruct columns as [|c0 columns']; [done|].
    destruct (filter _ (c0 :: columns')) as [|a available] eqn:Hf; [done|].
    intros c. rewrite getitem_columns, <- Hf, list_elem_of_filter. naive_solver.
Qed.

Lemma read_request_spec_witness :
  let col_names := ["Id"; "Name"; "Id"; "Label"; "Name"] in
  ¬ NoDup col_names ∧
  ∃ names, read_request ["Id"; "Label"] col_names = Returns (Some names) ∧
    Forall2 (λ i c, col_names !! i = Some c) (unique_indices_from ∅ 0 col_names) names ∧
    NoDup names ∧ ∀ c, c ∈ names ↔ c ∈ col_names.
Proof.
  intros col_names.
  assert (¬ NoDup col_names) as Hdup.
  { intros [Hid _]%NoDup_cons. apply Hid. right. left. }
  split; [exact Hdup|].
  exact (proj1 (proj2 (read_request_spec ["Id"; "Label"] col_names)) Hdup).
Defined.

(** On a schema without duplicates that has none of the wanted columns the
    read is not restricted to the (empty) intersection: the whole file is
    read. *)
Lemma whole_file_read_without_overlap :
  NoDup ["Name"; "Label"] ∧
  filter (λ c, c ∈ ["Name"; "Label"]) ["Id"] = [] ∧
  read_request ["Id"] ["Name"; "Label"] = Returns None ∧
  read_request ["Id"] ["Name"; "Label"] ≠ Returns (Some []).
Proof.
  assert (read_request ["Id"] ["Name"; "Label"] = Returns None) as Hreq
    by (vm_compute; reflexivity).
  split; [|split; [vm_compute; reflexivity | split; [exact Hreq | by rewrite Hreq]]].
  apply NoDup_cons. split; [|apply NoDup_singleton].
  rewrite list_elem_of_singleton. discriminate.
Qed.

(** C7 (defect in the duplicate branch).  A stored file has the columns
    [Id], [Name], [Id].  The reader finds the duplicate and computes the
    positions 0 and 1 of the first occurrences, but it then asks pyarrow for
    the names at those positions, [Id] and [Name], not for the positions.
    pyarrow returns every column called [Id], so both come back; the
    selection by name that follows keeps both as well.  The later duplicate is
    not dropped. *)
Theorem duplicate_columns_are_read_twice :
  let stored : DataFrame Z := [("Id", [1; 2]); ("Name", [10; 20]); ("Id", [3; 4])] in
  let SESSION_get := (λ _ : string, Returns (200, stored)) in
  let pq_ParquetFile := (λ content : DataFrame Z, Returns (pyarrow_file content)) in
  let to_pandas := (λ t : DataFrame Z, Returns t) in
  has_duplicates (df_columns stored) = true ∧
  unique_indices_from ∅ 0 (df_columns stored) = [0; 1]%nat ∧
  read_request ["Id"; "Name"] (df_columns stored) = Returns (Some ["Id"; "Name"]) ∧
  read_parquet_subset SESSION_get pq_ParquetFile to_pandas "run.parquet" "run" ["Id"; "Name"]
    = [("Id", [1; 2]); ("Id", [3; 4]); ("Name", [10; 20])].
Proof. repeat split; vm_compute; reflexivity. Qed.

(** ** Timestamps *)




Lemma add_instant_Returns (d t v : option Z) :
  add_instant d t = Returns v →
  match d, t with
  | Some a, Some b => int64_min ≤ a + b ≤ int64_max ∧ v = Some (a + b)
  | _, _ => v = None
  end.
Proof.
  destruct d as [a|], t as [b|]; simpl; try (by intros [= <-]).
  destruct (Z.ltb_spec (a + b) int64_min), (Z.ltb_spec int64_max (a + b)); simpl; try done.
  intros [= <-]. split; [lia | done].
Qed.




(** The last day a timestamp can hold: 2262-04-11 at 23:59:59 is past the
    int64 range, and the combination raises for the whole column, also for
    the row that has no time-of-day. *)
Example late_date_overflows :
  PandasText.to_datetime "2262-04-11" = Some 9223286400000000000 ∧
  PandasText.to_timedelta "23:59:59" = Some 86399000000000 ∧
  int64_max < 9223286400000000000 + 86399000000000 ∧
  _combine_dt PandasText.to_datetime PandasText.to_timedelta
    [Some "2024-01-05"; Some "2262-04-11"] [None; Some "23:59:59"] = Raises.
Proof. repeat split; reflexivity. Qed.

(** ** Discovery *)

Lemma sorted_NEEDED :
  sorted (elements NEEDED) =
    ["process"; "process_category"; "process_module"; "process_type";
     "process_type_category"; "run"; "run_step"].
Proof. vm_compute. reflexivity. Qed.

Lemma NEEDED_sorted_elem (tbl : string) : tbl ∈ NEEDED ↔ tbl ∈ sorted (elements NEEDED).
Proof.
  unfold sorted. by rewrite (foldr_insert_perm String.leb), elem_of_elements.
Qed.

Lemma candidates_nonempty (tbl : string) :
  Forall (λ c, c ≠ "") (default [] (CANDIDATES !! tbl)).
Proof.
  destruct (CANDIDATES !! tbl) as [cands|] eqn:Hc; simpl; [|constructor].
  apply elem_of_list_to_map_2 in Hc. simpl in Hc.
  repeat (apply elem_of_cons in Hc as [[= _ ->]|Hc]; [by repeat constructor|]).
  by apply elem_of_nil in Hc.
Qed.

Section DiscoveryFacts.
Variable head_status : string → Z.
Variable get_status : string → Z.

Lemma guess_candidates_no_download cands :
  no_download (guess_candidates head_status get_status cands).2.
Proof.
  unfold no_download. induction cands as [|cand rest IH]; simpl; [constructor|].
  destruct (found (head_status cand)); [by repeat constructor|].
  destruct (found (get_status cand)); [by repeat constructor|].
  destruct (guess_candidates head_status get_status rest) as [r ev]. simpl in *.
  by repeat constructor.
Qed.

Lemma guess_candidates_none cands :
  (∀ cand, cand ∈ cands →
     found (head_status cand) = false ∧ found (get_status cand) = false) →
  (guess_candidates head_status get_status cands).1 = None.
Proof.
  induction cands as [|cand rest IH]; intros Hall; simpl; [done|].
  destruct (Hall cand) as [-> ->]; [left|].
  destruct (guess_candidates head_status get_status rest) as [r ev]. simpl in *.
  apply IH. intros; apply Hall; by right.
Qed.

Lemma guess_candidates_falsy cands :
  Forall (λ c, c ≠ "") cands →
  truthy (guess_candidates head_status get_status cands).1 = false →
  ∀ cand, cand ∈ cands →
    found (head_status cand) = false ∧ found (get_status cand) = false.
Proof.
  induction 1 as [|cand rest Hne Hrest IH]; simpl; [by intros _ ? ?%elem_of_nil|].
  destruct (found (head_status cand)) eqn:Hh; [by destruct cand|].
  destruct (found (get_status cand)) eqn:Hg; [by destruct cand|].
  destruct (guess_candidates head_status get_status rest) as [r ev]. simpl in *.
  intros Hr c [->|Hc]%elem_of_cons; [done | by apply IH].
Qed.

(** The loop stops at the first table, in order, that stays unresolved, and
    downloads nothing. *)
Lemma discover_missing blobs tables :
  (∃ tbl, tbl ∈ tables ∧ unresolved head_status get_status blobs tbl) →
  ∀ selected, ∃ missing ev,
    discover head_status get_status blobs tables selected = (inl missing, ev) ∧
    missing ∈ tables ∧ unresolved head_status get_status blobs missing ∧ no_download ev.
Proof.
  induction tables as [|tbl0 rest IH]; intros (tbl & Hin & Hun) selected.
  { by apply elem_of_nil in Hin. }
  simpl.
  set (listed := match blobs with [] => None | _ :: _ => pick_blob_from_list blobs tbl0 end).
  assert (tbl = tbl0 → truthy listed = false) as Hlisted by (intros <-; apply Hun).
  destruct (truthy listed) eqn:Hl.
  - rewrite Hl.
    destruct (IH) with (selected := <[tbl0 := default "" listed]> selected)
      as (missing & ev & -> & Hm & Hmu & Hev).
    { exists tbl. split; [|done].
      apply elem_of_cons in Hin as [->|?]; [by specialize (Hlisted eq_refl)|done]. }
    exists missing, ([] ++ ev)%list. split; [done|]. split; [by right|done].
  - pose proof (guess_candidates_no_download (default [] (CANDIDATES !! tbl0))) as Hev0.
    unfold guess_blob_for_table.
    destruct (guess_candidates head_status get_status (default [] (CANDIDATES !! tbl0)))
      as [blob ev0] eqn:Hguess. simpl in Hev0.
    destruct (truthy blob) eqn:Hb.
    + destruct (IH) with (selected := <[tbl0 := default "" blob]> selected)
        as (missing & ev & -> & Hm & Hmu & Hev).
      { exists tbl. split; [|done].
        apply elem_of_cons in Hin as [->|?]; [|done].
        destruct Hun as [_ Hun]. apply guess_candidates_none in Hun.
        rewrite Hguess in Hun. simpl in Hun. by rewrite Hun in Hb. }
      exists missing, (ev0 ++ ev)%list. split; [done|]. split; [by right|].
      split; [done|]. by apply Forall_app.
    + exists tbl0, ev0. split; [done|]. split; [left|]. split; [|done].
      split; [done|].
      apply guess_candidates_falsy; [apply candidates_nonempty|].
      by rewrite Hguess.
Qed.
End DiscoveryFacts.

(** C5. If some required table stays unresolved (the listing offers no blob
    for it and every candidate path is answered with a status other than 200
    or 206), the invocation returns the failure payload with status 500 whose
    message names an unresolved table (the first one in sorted order), and
    nothing else: no record list is produced and, up to that return, the store
    saw only existence probes, no download of any table. *)
Theorem discovery_failure_is_fatal {Cell Blob Table : Type}
    (listing : list string) (head_status get_status : string → Z)
    (SESSION_get : string → outcome (Z * Blob))
    (pq_ParquetFile : Blob → outcome (@ParquetFile Table))
    (to_pandas : Table → outcome (DataFrame Cell))
    (as_run : DataFrame Cell → list RunRow)
    (as_run_step : DataFrame Cell → Frame RawStep)
    (as_process_module : DataFrame Cell → list PmRow)
    (as_process : DataFrame Cell → list ProcessRow)
    (as_process_category : DataFrame Cell → list CategoryRow)
    (as_process_type_category : DataFrame Cell → list PtcRow)
    (as_process_type : DataFrame Cell → list PTypeRow)
    (to_datetime to_timedelta : string → option Z) (timestamp_str : Z → string)
    (tbl : string) :
  tbl ∈ NEEDED → unresolved head_status get_status listing tbl →
  ∃ missing ev,
    missing ∈ NEEDED ∧ unresolved head_status get_status listing missing ∧
    get_current_batch_location listing head_status get_status SESSION_get pq_ParquetFile
      to_pandas as_run as_run_step as_process_module as_process as_process_category
      as_process_type_category as_process_type to_datetime to_timedelta timestamp_str
    = (Failure ("Missing remote parquet for table: " ++ missing) 500, ev) ∧
    ∀ blob, Download blob ∉ ev.
Proof.
  intros Hin Hun. unfold get_current_batch_location.
  destruct (discover_missing head_status get_status listing (sorted (elements NEEDED)))
    with (selected := (∅ : gmap string string)) as (missing & ev & -> & Hm & Hmu & Hev).
  { exists tbl. split; [by apply NEEDED_sorted_elem | done]. }
  exists missing, ev. split; [by apply NEEDED_sorted_elem|]. split; [done|]. split; [done|].
  intros blob Hblob. unfold no_download in Hev. rewrite Forall_forall in Hev.
  by apply (Hev _ Hblob blob).
Qed.

Lemma discovery_failure_is_fatal_witness :
  let status_404 := (λ _ : string, 404) in
  let SESSION_get := (λ _ : string, @Raises (Z * string)) in
  let pq_ParquetFile := (λ _ : string, @Raises (@ParquetFile (DataFrame Z))) in
  let to_pandas := (λ t : DataFrame Z, Returns t) in
  ("run" ∈ NEEDED ∧ unresolved status_404 status_404 [] "run") ∧
  ∃ missing ev,
    missing ∈ NEEDED ∧ unresolved status_404 status_404 [] missing ∧
    get_current_batch_location [] status_404 status_404 SESSION_get pq_ParquetFile to_pandas
      (λ _, []) (λ _, mkFrame [] []) (λ _, []) (λ _, []) (λ _, []) (λ _, []) (λ _, [])
      PandasText.to_datetime PandasText.to_timedelta pretty
    = (Failure ("Missing remote parquet for table: " ++ missing) 500, ev) ∧
    ∀ blob, Download blob ∉ ev.
Proof.
  intros status_404 SESSION_get pq_ParquetFile to_pandas.
  assert ("run" ∈ NEEDED) as Hin.
  { apply NEEDED_sorted_elem. rewrite sorted_NEEDED. do 5 right. left. }
  assert (unresolved status_404 status_404 [] "run") as Hun.
  { split; [reflexivity|]. intros cand _. split; reflexivity. }
  split; [by split|].
  exact (discovery_failure_is_fatal [] status_404 status_404 SESSION_get pq_ParquetFile
           to_pandas (λ _, []) (λ _, mkFrame [] []) (λ _, []) (λ _, []) (λ _, []) (λ _, [])
           (λ _, []) PandasText.to_datetime PandasText.to_timedelta pretty "run" Hin Hun).
Defined.

(** * Further properties: the helpers around the resolver *)

(** ** The container listing *)

Lemma truthy_text_nonempty (t : option string) (s : string) :
  truthy_text t = Some s → t = Some s ∧ s ≠ "".
Proof. destruct t as [[|c u]|]; simpl; [done| |done]. by intros [= <-]. Qed.

Lemma page_blob_names_nonempty (root : Element) :
  Forall (λ b, b ≠ "") (page_blob_names root).
Proof.
  unfold page_blob_names. apply Forall_forall. intros b Hb.
  apply list_elem_of_omap in Hb as (e & _ & He).
  destruct (head _) as [n|]; simpl in He; [|done].
  by apply truthy_text_nonempty in He as [_ ?].
Qed.

Section ListingFacts.
Variable SESSION_get_list : option string → Z * string.
Variable ET_fromstring : string → outcome Element.

Lemma azure_list_blobs_loop_extends fuel : ∀ marker blobs result,
  azure_list_blobs_loop SESSION_get_list ET_fromstring fuel marker blobs
    = Some (Returns result) →
  ∃ more, result = (blobs ++ more)%list ∧ Forall (λ b, b ≠ "") more.
Proof.
  induction fuel as [|fuel IH]; intros marker blobs result; simpl; [done|].
  destruct (negb _).
  { intros [= <-]. exists []. by rewrite app_nil_r. }
  destruct (ET_fromstring _) as [root|]; [|done].
  destruct (truthy _).
  - intros (more & -> & Hmore)%IH. exists (page_blob_names root ++ more)%list.
    rewrite app_assoc. split; [done|].
    apply Forall_app. split; [apply page_blob_names_nonempty | done].
  - intros [= <-]. exists (page_blob_names root). split; [done|].
    apply page_blob_names_nonempty.
Qed.

Lemma azure_list_blobs_loop_more_fuel fuel : ∀ marker blobs result k,
  azure_list_blobs_loop SESSION_get_list ET_fromstring fuel marker blobs = Some result →
  azure_list_blobs_loop SESSION_get_list ET_fromstring (fuel + k) marker blobs = Some result.
Proof.
  induction fuel as [|fuel IH]; intros marker blobs result k; simpl; [done|].
  destruct (negb _); [done|].
  destruct (ET_fromstring _) as [root|]; [|done].
  destruct (truthy _); [apply IH | done].
Qed.

Lemma azure_list_blobs_loop_pages marker roots how :
  listing_ends SESSION_get_list ET_fromstring marker roots how →
  ∀ fuel blobs, (length roots < fuel)%nat →
  azure_list_blobs_loop SESSION_get_list ET_fromstring fuel marker blobs
    = Some match how with
           | Returns _ => Returns (blobs ++ flat_map page_blob_names roots)%list
           | Raises => Raises
           end.
Proof.
  induction 1 as [marker Hs|marker Hs Hp|marker root Hs Hp Hm
                  |marker root roots how Hs Hp Hm Hrest IH];
    intros [|fuel] blobs Hfuel; simpl in *; try lia.
  - apply Z.eqb_neq in Hs. rewrite Hs. simpl. by rewrite app_nil_r.
  - apply Z.eqb_eq in Hs. rewrite Hs. simpl. by rewrite Hp.
  - apply Z.eqb_eq in Hs. rewrite Hs. simpl. rewrite Hp, Hm. by rewrite app_nil_r.
  - apply Z.eqb_eq in Hs. rewrite Hs. simpl. rewrite Hp, Hm.
    rewrite IH by lia. destruct how; [|done]. by rewrite app_assoc.
Qed.
End ListingFacts.

(** X5. [azure_list_blobs] follows the continuation markers: when the
    requests are answered with the pages [roots] and the loop is then left (a
    request is refused, or a page carries no [NextMarker]), the listing is the
    blob names of those pages in request order, every name non-empty; a
    refused request keeps the names of the pages before it.  When instead a
    body does not parse, the exception escapes and no listing is returned.
    One request more than the number of pages is all the loop needs. *)
Theorem azure_list_blobs_pages (SESSION_get_list : option string → Z * string)
    (ET_fromstring : string → outcome Element)
    (roots : list Element) (how : outcome unit) (fuel : nat) :
  listing_ends SESSION_get_list ET_fromstring None roots how →
  (length roots < fuel)%nat →
  azure_list_blobs SESSION_get_list ET_fromstring fuel
    = Some match how with
           | Returns _ => Returns (flat_map page_blob_names roots)
           | Raises => Raises
           end ∧
  Forall (λ b, b ≠ "") (flat_map page_blob_names roots).
Proof.
  intros Hends Hfuel. split.
  - unfold azure_list_blobs.
    by rewrite (azure_list_blobs_loop_pages _ _ _ _ _ Hends fuel []).
  - apply Forall_flat_map, Forall_forall. intros root _. apply page_blob_names_nonempty.
Qed.

Lemma azure_list_blobs_pages_witness :
  let blob name := Elem "Blob" None [Elem "Name" (Some name) []; Elem "Properties" None []] in
  let page1 := Elem "EnumerationResults" None
                 [Elem "Blobs" None [blob "parquet/run.parquet"; blob ""];
                  Elem "NextMarker" (Some "m1") []] in
  let page2 := Elem "EnumerationResults" None
                 [Elem "Blobs" None [blob "parquet/run_step.parquet"];
                  Elem "NextMarker" None []] in
  let SESSION_get_list := (λ marker : option string,
    match marker with
    | None => (200, "page1")
    | Some "m1" => (200, "page2")
    | Some _ => (404, "")
    end) in
  let ET_fromstring := (λ body : string,
    if String.eqb body "page1" then Returns page1
    else if String.eqb body "page2" then Returns page2 else Raises) in
  listing_ends SESSION_get_list ET_fromstring None [page1; page2] (Returns ()) ∧
  azure_list_blobs SESSION_get_list ET_fromstring 3
    = Some (Returns ["parquet/run.parquet"; "parquet/run_step.parquet"]).
Proof.
  intros blob page1 page2 SESSION_get_list ET_fromstring.
  assert (listing_ends SESSION_get_list ET_fromstring None [page1; page2] (Returns ()))
    as Hends.
  { apply ends_later; [reflexivity..|]. apply ends_last_page; reflexivity. }
  split; [exact Hends|].
  exact (proj1 (azure_list_blobs_pages SESSION_get_list ET_fromstring [page1; page2]
                  (Returns ()) 3 Hends ltac:(simpl; lia))).
Defined.

(** * Further properties of the module *)

(** ** Text: suffixes *)

Lemma string_app_cons (c : ascii) (a b : string) :
  (String c a ++ b)%string = String c (a ++ b).
Proof. reflexivity. Qed.

Lemma string_length_app (a b : string) :
  String.length (a ++ b) = (String.length a + String.length b)%nat.
Proof.
  induction a as [|c a IH]; [done|]. rewrite string_app_cons. simpl. by rewrite IH.
Qed.

Lemma string_app_assoc (a b c : string) : ((a ++ b) ++ c)%string = (a ++ (b ++ c))%string.
Proof.
  induction a as [|x a IH]; [done|]. rewrite !string_app_cons. f_equal. exact IH.
Qed.

Lemma substring_whole (s : string) : substring 0 (String.length s) s = s.
Proof. induction s as [|c s IH]; simpl; [done|]. by rewrite IH. Qed.

Lemma substring_app_suffix (p s : string) :
  substring (String.length p) (String.length s) (p ++ s) = s.
Proof.
  induction p as [|c p IH]; [apply substring_whole|]. rewrite string_app_cons. exact IH.
Qed.

Lemma substring_split (s : string) : ∀ k, (k ≤ String.length s)%nat →
  s = (substring 0 k s ++ substring k (String.length s - k) s)%string.
Proof.
  induction s as [|c s IH]; intros [|k] Hk; simpl in *; try done; try lia.
  - by rewrite substring_whole.
  - rewrite string_app_cons. f_equal. apply IH. lia.
Qed.

(** [s.endswith(suffix)] holds exactly when [s] is some text followed by
    [suffix]. *)
Lemma endswith_spec (s suffix : string) :
  endswith s suffix = true ↔ ∃ p, s = (p ++ suffix)%string.
Proof.
  unfold endswith. rewrite andb_true_iff, Nat.leb_le, String.eqb_eq. split.
  - intros [Hle Hsub].
    exists (substring 0 (String.length s - String.length suffix) s).
    pose proof (substring_split s (String.length s - String.length suffix)) as Hs.
    replace (String.length s - (String.length s - String.length suffix))%nat
      with (String.length suffix) in Hs by lia.
    rewrite Hsub in Hs. apply Hs. lia.
  - intros [p ->]. rewrite string_length_app. split; [lia|].
    replace (String.length p + String.length suffix - String.length suffix)%nat
      with (String.length p) by lia.
    apply substring_app_suffix.
Qed.

Lemma filter_head_split {A} (f : A → bool) (l : list A) (e : A) (rest : list A) :
  List.filter f l = e :: rest →
  f e = true ∧ ∃ pre post, l = (pre ++ e :: post)%list ∧ Forall (λ x, f x = false) pre.
Proof.
  induction l as [|x l IH]; simpl; [done|].
  destruct (f x) eqn:Hx.
  - intros [= -> _]. split; [done|]. exists [], l. by split.
  - intros Hf. destruct (IH Hf) as (He & pre & post & -> & Hpre).
    split; [done|]. exists (x :: pre), post. split; [done|]. by constructor.
Qed.

Lemma filter_nil_all {A} (f : A → bool) (l : list A) :
  List.filter f l = [] → Forall (λ x, f x = false) l.
Proof.
  induction l as [|x l IH]; simpl; [constructor|].
  destruct (f x) eqn:Hx; [done|]. intros Hf. constructor; [done | by apply IH].
Qed.

(** ** Locating a blob in the listing *)

Lemma exact_match_bool (leaf b : string) :
  String.eqb (lower b) leaf || endswith (lower b) ("/" ++ leaf) = true ↔ exact_match leaf b.
Proof. unfold exact_match. by rewrite orb_true_iff, String.eqb_eq, endswith_spec. Qed.

(** X1. [pick_blob_from_list] only ever returns a blob of the listing whose
    lower-cased name ends with [<table>.parquet] (lower-cased).  The blob
    returned is the first one, in listing order, whose name is the leaf itself
    or ends with ["/" + leaf]; only when the listing has no such blob is it the
    first one whose name merely ends with the leaf.  [None] is returned exactly
    when no name of the listing ends with the leaf. *)
Theorem pick_blob_from_list_spec (all_blobs : list string) (table : string) :
  let leaf := lower (table ++ ".parquet") in
  match pick_blob_from_list all_blobs table with
  | Some b =>
      (∃ p, lower b = (p ++ leaf)%string) ∧
      ∃ pre post, all_blobs = (pre ++ b :: post)%list ∧
        ((exact_match leaf b ∧ Forall (λ x, ¬ exact_match leaf x) pre) ∨
         (Forall (λ x, ¬ exact_match leaf x) all_blobs ∧
          Forall (λ x, ¬ ∃ p, lower x = (p ++ leaf)%string) pre))
  | None => Forall (λ x, ¬ ∃ p, lower x = (p ++ leaf)%string) all_blobs
  end.
Proof.
  intros leaf. unfold pick_blob_from_list. fold leaf.
  assert (∀ f (P : string → Prop) l, (∀ x, f x = true ↔ P x) →
            Forall (λ x, f x = false) l → Forall (λ x, ¬ P x) l) as Hneg.
  { intros f P l HfP Hl. eapply Forall_impl; [exact Hl|].
    intros x Hx HP. apply HfP in HP. congruence. }
  destruct (List.filter _ all_blobs) as [|e rest] eqn:Hexact.
  - apply filter_nil_all in Hexact.
    apply (Hneg _ _ _ (exact_match_bool leaf)) in Hexact.
    destruct (List.filter (λ b, endswith (lower b) leaf) all_blobs) as [|a rest] eqn:Hany; simpl.
    + apply filter_nil_all in Hany.
      by apply (Hneg _ _ _ (λ x, endswith_spec (lower x) leaf)) in Hany.
    + apply filter_head_split in Hany as (Ha & pre & post & -> & Hpre).
      apply endswith_spec in Ha. split; [done|]. exists pre, post. split; [done|]. right.
      split; [done|]. by apply (Hneg _ _ _ (λ x, endswith_spec (lower x) leaf)) in Hpre.
  - apply filter_head_split in Hexact as (He & pre & post & -> & Hpre).
    apply exact_match_bool in He. split.
    + destruct He as [->|[p ->]]; [by exists "" |].
      exists (p ++ "/")%string. symmetry. apply (string_app_assoc p "/" leaf).
    + exists pre, post. split; [done|]. left. split; [done|].
      by apply (Hneg _ _ _ (exact_match_bool leaf)) in Hpre.
Qed.

(** ** Probing the candidate paths *)

(** X2. [guess_blob_for_table] returns the first candidate of the table, in
    the order of [CANDIDATES], that answers the HEAD or the ranged GET with 200
    or 206.  Every candidate before it was probed twice (HEAD, then ranged GET)
    and failed both; the ranged GET is only sent after a failed HEAD; no
    candidate after the hit is probed.  [None] comes back only after both
    probes failed on every candidate. *)
Theorem guess_blob_for_table_first_hit (head_status get_status : string → Z)
    (table : string) :
  let cands := default [] (CANDIDATES !! table) in
  let failed := (λ x, found (head_status x) = false ∧ found (get_status x) = false) in
  let both := flat_map (λ x, [Head x; RangeGet x]) in
  match guess_blob_for_table head_status get_status table with
  | (Some c, ev) =>
      ∃ pre post, cands = (pre ++ c :: post)%list ∧ Forall failed pre ∧
        (found (head_status c) = true ∨ found (get_status c) = true) ∧
        ev = (both pre ++ if found (head_status c) then [Head c]
                          else [Head c; RangeGet c])%list
  | (None, ev) => Forall failed cands ∧ ev = both cands
  end.
Proof.
  intros cands failed both. unfold guess_blob_for_table. fold cands.
  induction cands as [|cand rest IH]; simpl; [by split|].
  destruct (found (head_status cand)) eqn:Hh.
  { exists [], rest. simpl. rewrite Hh. repeat split; auto. }
  destruct (found (get_status cand)) eqn:Hg.
  { exists [], rest. simpl. rewrite Hh. repeat split; auto. }
  destruct (guess_candidates head_status get_status rest) as [[c|] ev].
  - destruct IH as (pre & post & -> & Hpre & Hc & ->).
    exists (cand :: pre), post. split; [done|]. split; [by constructor|]. by split.
  - destruct IH as [Hall ->]. split; [by constructor | done].
Qed.

(** ** The discovery loop *)

Section DiscoverySuccess.
Variable head_status : string → Z.
Variable get_status : string → Z.

Lemma discover_selects (blobs tables : list string) :
  NoDup tables → ∀ sel0 sel ev,
  discover head_status get_status blobs tables sel0 = (inr sel, ev) →
  (∀ tbl, tbl ∉ tables → sel !! tbl = sel0 !! tbl) ∧
  ∀ tbl, tbl ∈ tables →
    let listed := match blobs with [] => None | _ => pick_blob_from_list blobs tbl end in
    ∃ b, sel !! tbl = Some b ∧ b ≠ "" ∧
      if truthy listed then listed = Some b
      else (guess_blob_for_table head_status get_status tbl).1 = Some b.
Proof.
  induction 1 as [|tbl0 rest Hnotin Hnd IH]; intros sel0 sel ev; simpl.
  { intros [= <- _]. split; [done|]. by intros ? ?%elem_of_nil. }
  set (listed0 := match blobs with [] => None | _ :: _ => pick_blob_from_list blobs tbl0 end).
  assert (∀ blob ev0 (Hb : truthy blob = true)
            (Hsrc : if truthy listed0 then listed0 = blob
                    else (guess_blob_for_table head_status get_status tbl0).1 = blob),
            (let '(r, ev') := discover head_status get_status blobs rest
                                (<[tbl0 := default "" blob]> sel0) in
             (r, (ev0 ++ ev')%list)) = (inr sel, ev) →
            (∀ tbl, tbl ∉ tbl0 :: rest → sel !! tbl = sel0 !! tbl) ∧
            ∀ tbl, tbl ∈ tbl0 :: rest →
              let listed := match blobs with
                            | [] => None | _ => pick_blob_from_list blobs tbl end in
              ∃ b, sel !! tbl = Some b ∧ b ≠ "" ∧
                if truthy listed then listed = Some b
                else (guess_blob_for_table head_status get_status tbl).1 = Some b) as Hstep.
  { intros blob ev0 Hb Hsrc Hd.
    destruct (discover head_status get_status blobs rest (<[tbl0 := default "" blob]> sel0))
      as [r ev'] eqn:Hrest.
    injection Hd as -> _. destruct (IH _ _ _ Hrest) as [Hout Hin].
    destruct blob as [[|c b]|]; try done. simpl in *. split.
    - intros tbl Htbl. rewrite not_elem_of_cons in Htbl. destruct Htbl as [Hne Hnr].
      by rewrite (Hout tbl Hnr), lookup_insert_ne.
    - intros tbl [->|Htbl]%elem_of_cons; [|by apply Hin].
      exists (String c b). rewrite (Hout tbl0 Hnotin), lookup_insert_eq.
      split; [done|]. split; [done|]. fold listed0. by destruct (truthy listed0). }
  destruct (truthy listed0) eqn:Hl.
  - cbv beta iota zeta. rewrite Hl. intros Hd.
    apply (Hstep listed0 [] Hl); [by rewrite ?Hl | exact Hd].
  - destruct (guess_blob_for_table head_status get_status tbl0) as [blob ev0] eqn:Hg.
    destruct (truthy blob) eqn:Hb; [|done]. intros Hd.
    apply (Hstep blob ev0 Hb); [by rewrite ?Hl | exact Hd].
Qed.
End DiscoverySuccess.

(** X3. When the discovery loop completes, [selected] holds a non-empty blob
    name for each of the seven tables and for nothing else.  For each table the
    name comes from the listing whenever the listing offers one; only
    otherwise is it the candidate that [guess_blob_for_table] found. *)
Theorem discover_selects_every_table (head_status get_status : string → Z)
    (blobs : list string) (selected : gmap string string) (ev : list Event) :
  discover head_status get_status blobs (sorted (elements NEEDED)) ∅ = (inr selected, ev) →
  dom selected = NEEDED ∧
  ∀ tbl, tbl ∈ NEEDED →
    let listed := match blobs with [] => None | _ => pick_blob_from_list blobs tbl end in
    ∃ b, selected !! tbl = Some b ∧ b ≠ "" ∧
      if truthy listed then listed = Some b
      else (guess_blob_for_table head_status get_status tbl).1 = Some b.
Proof.
  intros Hd. apply discover_selects in Hd as [Hout Hin].
  2:{ rewrite sorted_NEEDED. compute_done. }
  split.
  - apply set_eq. intros tbl. rewrite elem_of_dom, NEEDED_sorted_elem.
    destruct (decide (tbl ∈ sorted (elements NEEDED))) as [Ht|Ht].
    + destruct (Hin tbl Ht) as (b & -> & _). split; [done | by eexists].
    + rewrite (Hout tbl Ht), lookup_empty. split; [by intros [? ?] | done].
  - intros tbl Ht. apply Hin. by apply NEEDED_sorted_elem.
Qed.

Lemma discover_selects_every_table_witness :
  let ok := (λ _ : string, 200) in
  ∃ selected ev,
    discover ok ok [] (sorted (elements NEEDED)) ∅ = (inr selected, ev) ∧
    dom selected = NEEDED.
Proof.
  intros ok.
  assert (match (discover ok ok [] (sorted (elements NEEDED)) ∅).1 with
          | inl _ => False | inr _ => True end) as Hfound by (vm_compute; exact I).
  destruct (discover ok ok [] (sorted (elements NEEDED)) ∅) as [[tbl|selected] ev] eqn:Hd;
    [destruct Hfound|].
  exists selected, ev. split; [reflexivity|].
  exact (proj1 (discover_selects_every_table ok ok [] selected ev Hd)).
Defined.

Lemma discover_listed_only (head_status get_status : string → Z)
    (blobs tables : list string) :
  (∀ tbl, tbl ∈ tables → truthy (pick_blob_from_list blobs tbl) = true) →
  blobs ≠ [] →
  ∀ sel0, ∃ sel, discover head_status get_status blobs tables sel0 = (inr sel, []).
Proof.
  intros Hall Hne. induction tables as [|tbl0 rest IH]; intros sel0; simpl; [eauto|].
  destruct blobs as [|b0 blobs']; [done|].
  rewrite (Hall tbl0) by left. cbv beta iota zeta. rewrite (Hall tbl0) by left.
  destruct IH with (sel0 := <[tbl0 := default "" (pick_blob_from_list (b0 :: blobs') tbl0)]> sel0)
    as [sel ->]; [intros; apply Hall; by right|].
  eauto.
Qed.

(** X4. When the listing offers a blob for every one of the seven tables, the
    discovery loop completes without a single existence probe (the trace is
    empty), and [selected] maps every table to the blob picked from the
    listing. *)
Theorem listing_resolves_without_probes (head_status get_status : string → Z)
    (blobs : list string) :
  (∀ tbl, tbl ∈ NEEDED → truthy (pick_blob_from_list blobs tbl) = true) →
  ∃ selected,
    discover head_status get_status blobs (sorted (elements NEEDED)) ∅ = (inr selected, []) ∧
    ∀ tbl, tbl ∈ NEEDED → selected !! tbl = pick_blob_from_list blobs tbl.
Proof.
  intros Hall.
  assert (blobs ≠ []) as Hne.
  { intros ->. assert ("run" ∈ NEEDED) as Hrun.
    { apply NEEDED_sorted_elem. rewrite sorted_NEEDED. do 5 right. left. }
    by specialize (Hall "run" Hrun). }
  destruct (discover_listed_only head_status get_status blobs (sorted (elements NEEDED)))
    with (sel0 := (∅ : gmap string string)) as [sel Hd]; [|done|].
  { intros tbl Ht. apply Hall. by apply NEEDED_sorted_elem. }
  exists sel. split; [done|]. intros tbl Ht.
  apply discover_selects in Hd as [_ Hin]; [|rewrite sorted_NEEDED; compute_done].
  destruct (Hin tbl (proj1 (NEEDED_sorted_elem tbl) Ht)) as (b & Hb & _ & Hsrc).
  destruct blobs as [|b0 blobs']; [done|]. simpl in Hsrc.
  rewrite (Hall tbl Ht) in Hsrc. by rewrite Hb, Hsrc.
Qed.

Lemma listing_resolves_without_probes_witness :
  let blobs := ["snapshots/run.parquet"; "snapshots/run_step.parquet";
                "snapshots/process_module.parquet"; "snapshots/process.parquet";
                "snapshots/process_category.parquet";
                "snapshots/process_type_category.parquet";
                "snapshots/PROCESS_TYPE.parquet"] in
  let refused := (λ _ : string, 403) in
  (∀ tbl, tbl ∈ NEEDED → truthy (pick_blob_from_list blobs tbl) = true) ∧
  ∃ selected,
    discover refused refused blobs (sorted (elements NEEDED)) ∅ = (inr selected, []) ∧
    ∀ tbl, tbl ∈ NEEDED → selected !! tbl = pick_blob_from_list blobs tbl.
Proof.
  intros blobs refused.
  assert (∀ tbl, tbl ∈ NEEDED → truthy (pick_blob_from_list blobs tbl) = true) as Hall.
  { intros tbl Ht. apply NEEDED_sorted_elem in Ht. rewrite sorted_NEEDED in Ht.
    repeat (apply elem_of_cons in Ht as [->|Ht]; [vm_compute; reflexivity|]).
    by apply elem_of_nil in Ht. }
  split; [exact Hall|].
  exact (listing_resolves_without_probes refused refused blobs Hall).
Defined.

(** ** What the reader hands back *)

Lemma restrict_columns_source {Cell} (columns : list string) (df : DataFrame Cell) :
  columns ≠ [] →
  ∀ col, col ∈ restrict_columns columns df → col.1 ∈ columns ∧ (col ∈ df ∨ col.2 = []).
Proof.
  intros Hne col. unfold restrict_columns. destruct columns as [|c0 cs]; [done|].
  destruct (filter _ (c0 :: cs)) as [|a avail] eqn:Hf.
  - unfold empty_frame. intros (c & -> & Hc)%list_elem_of_fmap. simpl. eauto.
  - unfold getitem. intros Hcol. apply list_elem_of_In, in_flat_map in Hcol.
    destruct Hcol as (c & Hc & Hcol). apply list_elem_of_In in Hc, Hcol.
    apply list_elem_of_filter in Hcol as [-> Hcol].
    rewrite <- Hf in Hc. apply list_elem_of_filter in Hc as [_ Hc]. eauto.
Qed.

(** X8. Asked for a non-empty column list, [read_parquet_subset] never hands
    back a column that was not asked for, on any path (refused or failed
    download, unreadable file, duplicate or plain schema).  Every column it
    returns is either empty or a column of the frame pyarrow produced for this
    blob, cells untouched. *)
Theorem reader_returns_only_wanted {Cell Blob Table : Type}
    (SESSION_get : string → outcome (Z * Blob))
    (pq_ParquetFile : Blob → outcome (@ParquetFile Table))
    (to_pandas : Table → outcome (DataFrame Cell))
    (blob_name name : string) (columns : list string) :
  columns ≠ [] →
  ∀ col, col ∈ read_parquet_subset SESSION_get pq_ParquetFile to_pandas blob_name name columns →
    col.1 ∈ columns ∧
    (col.2 = [] ∨
     ∃ content parquet_file request table df,
       SESSION_get blob_name = Returns (200, content) ∧
       pq_ParquetFile content = Returns parquet_file ∧
       read_request columns (schema_arrow parquet_file) = Returns request ∧
       read parquet_file request = Returns table ∧
       to_pandas table = Returns df ∧ col ∈ df).
Proof.
  intros Hne col. unfold read_parquet_subset, read_parquet_subset_body, download_blob_to_memory.
  assert (∀ c : string * list Cell, c ∈ empty_frame columns → c.1 ∈ columns ∧ c.2 = []) as Hempty.
  { unfold empty_frame. by intros c (x & -> & Hx)%list_elem_of_fmap. }
  destruct (SESSION_get blob_name) as [[status content]|] eqn:Hget; simpl;
    [|intros []%Hempty; eauto].
  destruct (Z.eqb_spec status 200) as [->|Hs]; simpl; [|intros []%Hempty; eauto].
  destruct (pq_ParquetFile content) as [pf|] eqn:Hopen; simpl; [|intros []%Hempty; eauto].
  destruct (read_request columns (schema_arrow pf)) as [request|] eqn:Hreq; simpl;
    [|intros []%Hempty; eauto].
  destruct (read pf request) as [table|] eqn:Hread; simpl; [|intros []%Hempty; eauto].
  destruct (to_pandas table) as [df|] eqn:Hpd; simpl; [|intros []%Hempty; eauto].
  intros [Hin [Hcol|Hnil]]%restrict_columns_source; [|by eauto|done].
  split; [done|]. right. exists content, pf, request, table, df. done.
Qed.

Lemma reader_returns_only_wanted_witness :
  let frame : DataFrame Z := [("Id", [1; 2]); ("Secret", [7; 8]); ("Name", [3; 4])] in
  let SESSION_get := (λ _ : string, Returns (200, "bytes")) in
  let pq_ParquetFile := (λ _ : string,
    Returns (mkParquetFile ["Id"; "Secret"; "Name"] (λ _, Returns frame))) in
  let to_pandas := (λ t : DataFrame Z, Returns t) in
  let col := ("Name", [3; 4]) in
  (["Name"; "Id"; "Label"] ≠ [] ∧
   col ∈ read_parquet_subset SESSION_get pq_ParquetFile to_pandas "run.parquet" "run"
           ["Name"; "Id"; "Label"]) ∧
  col.1 ∈ ["Name"; "Id"; "Label"].
Proof.
  intros frame SESSION_get pq_ParquetFile to_pandas col.
  assert (col ∈ read_parquet_subset SESSION_get pq_ParquetFile to_pandas "run.parquet" "run"
                  ["Name"; "Id"; "Label"]) as Hcol by (vm_compute; left).
  split; [split; [discriminate | exact Hcol]|].
  exact (proj1 (reader_returns_only_wanted SESSION_get pq_ParquetFile to_pandas
                  "run.parquet" "run" ["Name"; "Id"; "Label"] ltac:(discriminate) col Hcol)).
Defined.

(** ** strip_html *)

Lemma lacks_app (x : ascii) (a b : string) :
  lacks x (a ++ b) ↔ lacks x a ∧ lacks x b.
Proof.
  induction a as [|c a IH]; [simpl; tauto|].
  rewrite string_app_cons. simpl. rewrite IH. tauto.
Qed.

(** Inside an unclosed tag, text without ['>'] is kept whole. *)
Lemma sub_tags_unclosed (s : string) : ∀ buf,
  lacks ">"%char s → sub_tags (Some buf) s = String "<"%char (buf ++ s).
Proof.
  induction s as [|c s IH]; intros buf Hs; simpl.
  - f_equal. induction buf as [|x buf IHb]; [done|]. rewrite string_app_cons. by f_equal.
  - destruct Hs as [Hc Hs]. apply Ascii.eqb_neq in Hc. rewrite Hc.
    rewrite IH by done. f_equal. by rewrite string_app_assoc.
Qed.

Lemma sub_tags_no_gt (s : string) : lacks ">"%char s → sub_tags None s = s.
Proof.
  induction s as [|c s IH]; simpl; [done|]. intros [Hc Hs].
  destruct (Ascii.eqb c "<"%char) eqn:E.
  - apply Ascii.eqb_eq in E as ->. by rewrite sub_tags_unclosed.
  - by rewrite IH.
Qed.

Lemma sub_tags_no_lt (s : string) : lacks "<"%char s → sub_tags None s = s.
Proof.
  induction s as [|c s IH]; simpl; [done|]. intros [Hc Hs].
  apply Ascii.eqb_neq in Hc. rewrite Hc. by rewrite IH.
Qed.

(** Substituting once removes every tag: a second substitution finds none. *)
Lemma sub_tags_idempotent (s : string) :
  sub_tags None (sub_tags None s) = sub_tags None s ∧
  ∀ buf, lacks ">"%char buf →
    sub_tags None (sub_tags (Some buf) s) = sub_tags (Some buf) s.
Proof.
  induction s as [|c s [IHn IHs]]; simpl.
  - split; [done|]. intros buf Hbuf.
    rewrite sub_tags_unclosed by done. done.
  - split.
    + destruct (Ascii.eqb c "<"%char) eqn:E; [by apply IHs|].
      simpl. rewrite E. by rewrite IHn.
    + intros buf Hbuf. destruct (Ascii.eqb c ">"%char) eqn:E.
      * destruct buf as [|x buf]; [|done]. simpl. by rewrite IHn.
      * apply IHs. apply lacks_app. split; [done|]. simpl. split; [|done].
        by apply Ascii.eqb_neq.
Qed.

Lemma is_space_not_angle (c : ascii) :
  is_space c = true → c ≠ "<"%char ∧ c ≠ ">"%char.
Proof. intros Hc. split; intros ->; vm_compute in Hc; discriminate. Qed.

(** Text free of angle brackets passes through the substitution, whatever
    precedes it. *)
Lemma sub_tags_app_plain (w : string) :
  lacks "<"%char w → lacks ">"%char w →
  ∀ u tag, sub_tags tag (u ++ w) = (sub_tags tag u ++ w)%string.
Proof.
  intros Hlt Hgt. induction u as [|c u IH]; intros tag.
  - simpl. destruct tag as [buf|]; simpl.
    + by rewrite sub_tags_unclosed.
    + by rewrite sub_tags_no_lt.
  - rewrite string_app_cons. destruct tag as [buf|]; simpl.
    + destruct (Ascii.eqb c ">"%char); [|apply IH].
      destruct buf; [|apply IH]. rewrite !string_app_cons. do 2 f_equal. apply IH.
    + destruct (Ascii.eqb c "<"%char); [apply IH|].
      rewrite string_app_cons. f_equal. apply IH.
Qed.

Lemma string_app_inv_tail (a b w : string) : (a ++ w)%string = (b ++ w)%string → a = b.
Proof.
  intros H. assert (String.length a = String.length b) as Hlen.
  { apply (f_equal String.length) in H. rewrite !string_length_app in H. lia. }
  revert b H Hlen. induction a as [|x a IH]; intros [|y b] H Hlen; simpl in Hlen; try done.
  rewrite !string_app_cons in H. injection H as -> H. f_equal. apply IH; [done | lia].
Qed.

(** What [rstrip] cuts off is white space. *)
Lemma rstrip_tail (t : string) :
  ∃ w, t = (rstrip t ++ w)%string ∧ lacks "<"%char w ∧ lacks ">"%char w.
Proof.
  induction t as [|c t (w & Ht & Hlt & Hgt)]; [by exists ""|]. simpl.
  destruct (rstrip t) as [|c' t'] eqn:Hr.
  - assert (w = t) as -> by (symmetry; exact Ht). destruct (is_space c) eqn:Hc.
    + exists (String c t). split; [done|].
      apply is_space_not_angle in Hc as [? ?]. by split.
    + exists t. by split.
  - exists w. rewrite string_app_cons. split; [by f_equal|done].
Qed.

Lemma rstrip_clean (t : string) : sub_tags None t = t → sub_tags None (rstrip t) = rstrip t.
Proof.
  intros Ht. destruct (rstrip_tail t) as (w & Hw & Hlt & Hgt).
  apply (string_app_inv_tail _ _ w).
  rewrite <- sub_tags_app_plain by done. by rewrite <- Hw.
Qed.

Lemma lstrip_clean (t : string) : sub_tags None t = t → sub_tags None (lstrip t) = lstrip t.
Proof.
  induction t as [|c t IH]; simpl; [done|].
  destruct (is_space c) eqn:Hc; [|done].
  apply is_space_not_angle in Hc as [Hc _]. apply Ascii.eqb_neq in Hc. rewrite Hc.
  intros [= Ht]. by apply IH.
Qed.

Lemma lstrip_no_leading_space (t : string) : no_leading_space (lstrip t).
Proof. induction t as [|c t IH]; simpl; [done|]. by destruct (is_space c) eqn:Hc. Qed.

Lemma lstrip_fixed (t : string) : no_leading_space t → lstrip t = t.
Proof. destruct t as [|c t]; simpl; [done|]. by intros ->. Qed.

Lemma rstrip_no_leading_space (t : string) : no_leading_space t → no_leading_space (rstrip t).
Proof.
  destruct t as [|c t]; simpl; [done|]. intros Hc.
  destruct (rstrip t); simpl; [by rewrite Hc | done].
Qed.

Lemma rstrip_idempotent (t : string) : rstrip (rstrip t) = rstrip t.
Proof.
  induction t as [|c t IH]; simpl; [done|].
  destruct (rstrip t) as [|c' t'] eqn:Hr.
  - destruct (is_space c) eqn:Hc; simpl; [done|]. by rewrite Hc.
  - simpl in *. by rewrite IH.
Qed.

Lemma strip_idempotent (t : string) : strip (strip t) = strip t.
Proof.
  unfold strip.
  rewrite (lstrip_fixed (rstrip (lstrip t)))
    by apply rstrip_no_leading_space, lstrip_no_leading_space.
  apply rstrip_idempotent.
Qed.

(** X6. [strip_html] leaves nothing for a second pass: on its own output it is
    the identity, so no tag that the pattern [<[^>]+>] would match survives,
    and the result carries no white space at either end.  A missing value
    stays missing. *)
Theorem strip_html_idempotent (s : option string) :
  strip_html (strip_html s) = strip_html s ∧
  (s = None → strip_html s = None) ∧
  ∀ t, strip_html s = Some t → sub_tags None t = t ∧ strip t = t.
Proof.
  assert (∀ text, sub_tags None (strip (sub_tags None text)) = strip (sub_tags None text))
    as Hclean.
  { intros text. unfold strip.
    apply rstrip_clean, lstrip_clean, (proj1 (sub_tags_idempotent text)). }
  destruct s as [text|]; simpl; [|done].
  split; [by rewrite Hclean, strip_idempotent|]. split; [done|].
  intros t [= <-]. split; [apply Hclean | apply strip_idempotent].
Qed.

(** X7. Text without a ['<'] holds no tag: [strip_html] only trims the white
    space at its ends.  The same holds for text without a ['>']. *)
Theorem strip_html_plain_text (text : string) :
  lacks "<"%char text ∨ lacks ">"%char text →
  strip_html (Some text) = Some (strip text).
Proof.
  intros [H|H]; simpl; [by rewrite sub_tags_no_lt | by rewrite sub_tags_no_gt].
Qed.

Lemma strip_html_plain_text_witness :
  lacks "<"%char "  yield > 90 %  " ∧
  strip_html (Some "  yield > 90 %  ") = Some "yield > 90 %".
Proof.
  assert (lacks "<"%char "  yield > 90 %  ") as H by (simpl; repeat split; discriminate).
  split; [exact H|].
  exact (strip_html_plain_text "  yield > 90 %  " (or_introl H)).
Defined.

(** ** The instants and the status of every run_step row *)

Section StepFrame.
Variable to_datetime : string → option Z.
Variable to_timedelta : string → option Z.

(** The cell the combination reads for a row under a column name. *)
Local Abbreviation cell rs name raw :=
  (if decide (name ∈ columns rs) then text_column name raw else None).

Lemma coalesce_lookup (rs : Frame RawStep) (name : string) (i : nat) (raw : RawStep) :
  rows rs !! i = Some raw →
  _coalesce_by_name rs name !! i = Some (cell rs name raw).
Proof.
  intros Hi. unfold _coalesce_by_name.
  destruct (decide _); by rewrite list_lookup_fmap, Hi.
Qed.

Lemma combine_dt_lookup (rs : Frame RawStep) (date time : string) col (i : nat)
    (raw : RawStep) :
  _combine_dt to_datetime to_timedelta (_coalesce_by_name rs date) (_coalesce_by_name rs time)
    = Returns col →
  rows rs !! i = Some raw →
  ∃ v, col !! i = Some v ∧
    add_instant (cell rs date raw ≫= to_datetime)
      (to_timedelta (strip_non_time (default "00:00:00" (cell rs time raw)))) = Returns v.
Proof.
  intros Hcol Hi. unfold _combine_dt in Hcol.
  apply (mapM_lookup _ _ _ i
           (cell rs date raw ≫= to_datetime,
            to_timedelta (strip_non_time (default "00:00:00" (cell rs time raw)))))
    in Hcol; [exact Hcol|].
  by rewrite lookup_zip_with, !list_lookup_fmap, !(coalesce_lookup _ _ _ _ Hi).
Qed.

Lemma add_timestamps_lookup (rs : Frame RawStep) stamped (i : nat) (raw : RawStep) :
  add_timestamps to_datetime to_timedelta rs = Returns stamped →
  rows rs !! i = Some raw →
  ∃ s f, stamped !! i = Some (mkStepRow raw s f None None) ∧
    if decide ("StartDate" ∈ columns rs ∧ "FinishDate" ∈ columns rs) then
      add_instant (rs_StartDate raw ≫= to_datetime)
        (to_timedelta (strip_non_time
           (default "00:00:00" (cell rs "StartTime" raw)))) = Returns s ∧
      add_instant (rs_FinishDate raw ≫= to_datetime)
        (to_timedelta (strip_non_time
           (default "00:00:00" (cell rs "FinishTime" raw)))) = Returns f
    else s = None ∧ f = None.
Proof.
  intros Hst Hi. unfold add_timestamps in Hst.
  destruct (decide _) as [[Hs Hf]|Hno].
  - destruct (_combine_dt _ _ (_coalesce_by_name rs "StartDate") _)
      as [started|] eqn:Hstarted; [|done].
    destruct (_combine_dt _ _ (_coalesce_by_name rs "FinishDate") _)
      as [finished|] eqn:Hfinished; [|done].
    cbn in Hst. injection Hst as <-.
    destruct (combine_dt_lookup _ _ _ _ _ _ Hstarted Hi) as (s & Hsi & Hsv).
    destruct (combine_dt_lookup _ _ _ _ _ _ Hfinished Hi) as (f & Hfi & Hfv).
    exists s, f. rewrite lookup_zip_with, Hi. cbn. rewrite lookup_zip_with, Hsi, Hfi. cbn.
    split; [done|].
    destruct (decide ("StartDate" ∈ columns rs)); [|done].
    destruct (decide ("FinishDate" ∈ columns rs)); [|done]. done.
  - cbn in Hst. injection Hst as <-. exists None, None.
    rewrite lookup_zip_with, Hi. cbn. rewrite lookup_zip_with, !list_lookup_fmap, Hi. done.
Qed.

Lemma step_frame_lookup (T : Tables) (rs : Frame StepRow) (i : nat) (r : StepRow) :
  step_frame to_datetime to_timedelta T = Returns rs →
  rows rs !! i = Some r →
  ∃ stamped r0,
    add_timestamps to_datetime to_timedelta (t_run_step T) = Returns stamped ∧
    stamped !! i = Some r0 ∧
    rows (t_run_step T) !! i = Some (step_raw r0) ∧
    r = mkStepRow (step_raw r0) (started_at r0) (finished_at r0)
          (Some match finished_at r0, started_at r0 with
                | Some _, _ => "Completed"
                | None, Some _ => "In Progress"
                | None, None => "Not Started"
                end)
          (row_max [finished_at r0; started_at r0]).
Proof.
  unfold step_frame.
  destruct (add_timestamps _ _ _) as [stamped|] eqn:Hst; [|done].
  cbn. intros [= <-]. cbn. rewrite assign_status_fmap, list_lookup_fmap.
  destruct (stamped !! i) as [r0|] eqn:Hr0; [|done].
  simpl. intros [= <-]. exists stamped, r0. split; [done|]. split; [done|]. split; [|done].
  pose proof (add_timestamps_raw to_datetime to_timedelta _ _ Hst) as Hraw.
  rewrite <- Hraw, list_lookup_fmap, Hr0. done.
Qed.

End StepFrame.

(** X9. When the run_step frame lacks the [StartDate] or the [FinishDate]
    column, no date is read at all and nothing can overflow: the derived
    frame is returned, every row of it has neither instant, is "Not Started"
    and carries no [updated_at], whatever the other date column holds; the
    frame keeps one row per run_step row. *)
Theorem missing_date_column_never_started (to_datetime to_timedelta : string → option Z)
    (T : Tables) :
  "StartDate" ∉ columns (t_run_step T) ∨ "FinishDate" ∉ columns (t_run_step T) →
  ∃ rs, step_frame to_datetime to_timedelta T = Returns rs ∧
    length (rows rs) = length (rows (t_run_step T)) ∧
    Forall (λ r, started_at r = None ∧ finished_at r = None ∧
                 status r = Some "Not Started" ∧ updated_at r = None)
           (rows rs).
Proof.
  intros Hmiss.
  assert (∃ rs, step_frame to_datetime to_timedelta T = Returns rs) as [rs Hrs].
  { unfold step_frame, add_timestamps.
    rewrite decide_False by (intros [? ?]; destruct Hmiss; done). cbn. eauto. }
  exists rs. split; [done|]. split.
  - rewrite <- (step_frame_raw to_datetime to_timedelta T rs Hrs). by rewrite length_fmap.
  - apply Forall_lookup. intros i r Hr.
    destruct (step_frame_lookup to_datetime to_timedelta T rs i r Hrs Hr)
      as (stamped & r0 & Hst & Hr0 & Hraw & ->).
    destruct (add_timestamps_lookup to_datetime to_timedelta _ _ _ _ Hst Hraw)
      as (s & f & Hi & Hsf).
    rewrite decide_False in Hsf by (intros [? ?]; destruct Hmiss; done).
    destruct Hsf as [-> ->]. rewrite Hr0 in Hi. injection Hi as ->. done.
Qed.

(** X10. When both date columns are carried and the derived frame is
    returned, its i-th row is the i-th run_step row with its own dates and
    times combined, the sum within the int64 range: a time column the frame
    lacks counts as missing on every row, so the instant is the date at
    midnight. *)
Theorem step_frame_row_instants (to_datetime to_timedelta : string → option Z)
    (T : Tables) (derived : Frame StepRow) (i : nat) (r : StepRow) :
  "StartDate" ∈ columns (t_run_step T) → "FinishDate" ∈ columns (t_run_step T) →
  step_frame to_datetime to_timedelta T = Returns derived →
  rows derived !! i = Some r →
  let rs := t_run_step T in
  let raw := step_raw r in
  rows rs !! i = Some raw ∧
  add_instant (rs_StartDate raw ≫= to_datetime)
    (to_timedelta (strip_non_time (default "00:00:00"
       (if decide ("StartTime" ∈ columns rs) then rs_StartTime raw else None))))
    = Returns (started_at r) ∧
  add_instant (rs_FinishDate raw ≫= to_datetime)
    (to_timedelta (strip_non_time (default "00:00:00"
       (if decide ("FinishTime" ∈ columns rs) then rs_FinishTime raw else None))))
    = Returns (finished_at r) ∧
  (to_timedelta "00:00:00" = Some 0 →
     ("StartTime" ∉ columns rs → started_at r = rs_StartDate raw ≫= to_datetime) ∧
     ("FinishTime" ∉ columns rs → finished_at r = rs_FinishDate raw ≫= to_datetime)).
Proof.
  intros Hs Hf Hrs Hr rs raw. subst rs raw.
  destruct (step_frame_lookup to_datetime to_timedelta T derived i r Hrs Hr)
    as (stamped & r0 & Hst & Hr0 & Hraw & ->).
  destruct (add_timestamps_lookup to_datetime to_timedelta _ _ _ _ Hst Hraw)
    as (s & f & Hi & Hsf).
  rewrite decide_True in Hsf by done. destruct Hsf as [Hsv Hfv].
  rewrite Hr0 in Hi. injection Hi as ->. simpl in *.
  split; [done|]. split; [done|]. split; [done|].
  intros Hmid. split; intros Hno; rewrite decide_False in * by done.
  - change (strip_non_time (default "00:00:00" None)) with "00:00:00" in Hsv.
    rewrite Hmid in Hsv. apply add_instant_Returns in Hsv.
    destruct (rs_StartDate (step_raw r0) ≫= to_datetime) as [d|]; [|done].
    destruct Hsv as [_ ->]. f_equal. lia.
  - change (strip_non_time (default "00:00:00" None)) with "00:00:00" in Hfv.
    rewrite Hmid in Hfv. apply add_instant_Returns in Hfv.
    destruct (rs_FinishDate (step_raw r0) ≫= to_datetime) as [d|]; [|done].
    destruct Hfv as [_ ->]. f_equal. lia.
Qed.

Lemma missing_date_column_never_started_witness :
  let raw := mkRawStep (Some 1) (Some 2) (Some 3) (Some "2024-01-05") (Some "10:00:00")
               None None None None in
  let T := mkTables [] (mkFrame ["RunId"; "StartDate"; "StartTime"] [raw]) [] [] [] [] [] in
  ("StartDate" ∉ columns (t_run_step T) ∨ "FinishDate" ∉ columns (t_run_step T)) ∧
  ∃ rs, step_frame PandasText.to_datetime PandasText.to_timedelta T = Returns rs ∧
    status <$> rows rs = [Some "Not Started"].
Proof.
  intros raw T.
  assert ("StartDate" ∉ columns (t_run_step T) ∨ "FinishDate" ∉ columns (t_run_step T)) as H.
  { right. simpl. intros Hin. by repeat (apply elem_of_cons in Hin as [?|Hin]; [done|]);
      apply elem_of_nil in Hin. }
  split; [exact H|].
  destruct (missing_date_column_never_started
              PandasText.to_datetime PandasText.to_timedelta T H) as (rs & Hrs & Hlen & Hall).
  exists rs. split; [exact Hrs|].
  destruct (rows rs) as [|r [|? ?]]; try discriminate Hlen.
  apply Forall_cons in Hall as [(_ & _ & Hst & _) _].
  rewrite fmap_cons, Hst. done.
Defined.

Lemma step_frame_row_instants_witness :
  let raw := mkRawStep (Some 1) (Some 2) (Some 3) (Some "2024-01-05") (Some "10:00:00")
               (Some "2024-01-06") None None None in
  let T := mkTables [] (mkFrame ["RunId"; "StartDate"; "FinishDate"; "FinishTime"] [raw])
             [] [] [] [] [] in
  let r := mkStepRow raw (Some 1704412800000000000) (Some 1704499200000000000)
             (Some "Completed") (Some 1704499200000000000) in
  let derived := mkFrame ["RunId"; "StartDate"; "FinishDate"; "FinishTime";
                          "started_at"; "finished_at"; "status"; "updated_at"] [r] in
  ("StartDate" ∈ columns (t_run_step T) ∧ "FinishDate" ∈ columns (t_run_step T) ∧
   step_frame PandasText.to_datetime PandasText.to_timedelta T = Returns derived ∧
   rows derived !! 0%nat = Some r) ∧
  started_at r = rs_StartDate raw ≫= PandasText.to_datetime.
Proof.
  intros raw T r derived.
  assert ("StartDate" ∈ columns (t_run_step T)) as Hs by (simpl; right; left).
  assert ("FinishDate" ∈ columns (t_run_step T)) as Hf by (simpl; right; right; left).
  assert (step_frame PandasText.to_datetime PandasText.to_timedelta T = Returns derived)
    as Hrs by (vm_compute; reflexivity).
  assert (rows derived !! 0%nat = Some r) as Hr by reflexivity.
  split; [exact (conj Hs (conj Hf (conj Hrs Hr)))|].
  apply (step_frame_row_instants PandasText.to_datetime PandasText.to_timedelta T derived
           0 r Hs Hf Hrs Hr); [reflexivity|].
  simpl. intros Hin. by repeat (apply elem_of_cons in Hin as [?|Hin]; [done|]);
    apply elem_of_nil in Hin.
Defined.

(** ** [updated_at] and the status *)

Lemma assign_status_row (rs : list StepRow) (r : StepRow) :
  r ∈ assign_status rs →
  status r = Some match finished_at r, started_at r with
                  | Some _, _ => "Completed"
                  | None, Some _ => "In Progress"
                  | None, None => "Not Started"
                  end ∧
  updated_at r = row_max [finished_at r; started_at r].
Proof.
  rewrite assign_status_fmap. by intros (r0 & -> & _)%list_elem_of_fmap.
Qed.

(** X11. After the status assignment a row has no [updated_at] exactly when
    it is "Not Started"; otherwise [updated_at] is one of the row's two
    instants and no earlier than either. *)
Theorem updated_at_is_latest_instant (rs : list StepRow) (r : StepRow) :
  r ∈ assign_status rs →
  (updated_at r = None ↔ status r = Some "Not Started") ∧
  (∀ u, updated_at r = Some u →
     (started_at r = Some u ∨ finished_at r = Some u) ∧
     (∀ s, started_at r = Some s → s ≤ u) ∧
     (∀ f, finished_at r = Some f → f ≤ u)).
Proof.
  intros [Hst Hup]%assign_status_row. rewrite Hst, Hup.
  destruct (finished_at r) as [f|], (started_at r) as [s|]; simpl; split;
    try (split; intros; done || congruence).
  - intros u [= <-]. split; [|split; intros ? [= <-]; lia].
    destruct (Z.max_spec f s) as [[_ ->]|[_ ->]]; eauto.
  - intros u [= <-]. split; [by right|]. split; [done|]. intros ? [= <-]; lia.
  - intros u [= <-]. split; [by left|]. split; [|done]. intros ? [= <-]; lia.
Qed.

Lemma updated_at_is_latest_instant_witness :
  let rs := [mkStepRow (mkRawStep (Some 1) None None None None None None None None)
               (Some 50) (Some 20) None None] in
  let r := mkStepRow (mkRawStep (Some 1) None None None None None None None None)
               (Some 50) (Some 20) (Some "Completed") (Some 50) in
  r ∈ assign_status rs ∧ (updated_at r = None ↔ status r = Some "Not Started").
Proof.
  intros rs r.
  assert (r ∈ assign_status rs) as Hr by (vm_compute; left).
  split; [exact Hr|]. exact (proj1 (updated_at_is_latest_instant rs r Hr)).
Defined.

(** X12. A run with at least one step that is not "Not Started" never reports
    a "Not Started" step as current: rung 1 decides, it returns one row of the
    run, and that row carries the latest [updated_at] of the run. *)
Theorem started_run_reports_started_step (rs : list StepRow) (g : Frame StepRow) :
  (∀ r, r ∈ rows g → r ∈ assign_status rs) →
  (∃ r, r ∈ rows g ∧ status r ≠ Some "Not Started") →
  ∃ r u, _pick_current g = Returns [r] ∧ r ∈ rows g ∧
    status r ≠ Some "Not Started" ∧ updated_at r = Some u ∧
    ∀ r' u', r' ∈ rows g → updated_at r' = Some u' → u' ≤ u.
Proof.
  intros Hg (r0 & Hr0 & Hst0).
  assert (∃ r, r ∈ rows g ∧ is_Some (updated_at r)) as Hex.
  { exists r0. split; [done|].
    destruct (assign_status_row rs r0 (Hg r0 Hr0)) as [Hst Hup].
    rewrite Hup. rewrite Hst in Hst0.
    destruct (finished_at r0), (started_at r0); simpl; eauto. done. }
  unfold _pick_current. rewrite (proj2 (existsb_notna updated_at (rows g)) Hex).
  destruct (idxmax_loc_one updated_at (rows g) Hex) as (i & r & u & -> & Hi & Hu & Hmax & _).
  exists r, u. split; [done|].
  assert (r ∈ rows g) as Hr by (by eapply list_elem_of_lookup_2).
  split; [done|]. split; [|split; [done|]].
  - destruct (assign_status_row rs r (Hg r Hr)) as [Hst Hup].
    rewrite Hst. rewrite Hup in Hu.
    destruct (finished_at r), (started_at r); simpl in *; congruence.
  - intros r' u' Hr' Hu'. by apply (Hmax r').
Qed.

Lemma started_run_reports_started_step_witness :
  let raw := mkRawStep (Some 1) None None None None None None None None in
  let rs := [mkStepRow raw None None None None; mkStepRow raw (Some 50) None None None;
             mkStepRow raw (Some 10) (Some 30) None None] in
  _pick_current (mkFrame ["RunId"] (assign_status rs))
    = Returns [mkStepRow raw (Some 50) None (Some "In Progress") (Some 50)].
Proof.
  intros raw rs.
  destruct (started_run_reports_started_step rs (mkFrame ["RunId"] (assign_status rs)))
    as (r & u & Hpick & _).
  - done.
  - exists (mkStepRow raw (Some 50) None (Some "In Progress") (Some 50)).
    split; [vm_compute; right; left | discriminate].
  - rewrite Hpick. vm_compute in Hpick. injection Hpick as <-. reflexivity.
Defined.

(** ** Sorting a sorted frame, deduplicating a duplicate-free one *)

Lemma StronglySorted_sublist_of {A} (R : A → A → Prop) (l k : list A) :
  sublist l k → StronglySorted R k → StronglySorted R l.
Proof.
  induction 1 as [|x l k Hsub IH|x l k Hsub IH]; intros Hs; [done| |].
  - apply StronglySorted_cons in Hs as [Hall Hs].
    apply StronglySorted_cons. split; [|by apply IH].
    apply Forall_forall. intros y Hy. rewrite Forall_forall in Hall.
    apply Hall. by eapply elem_of_sublist.
  - apply StronglySorted_cons in Hs as [_ Hs]. by apply IH.
Qed.

Lemma sort_values_sorted_id {R} (by_ : list (sort_key R)) (df : list R) :
  StronglySorted (λ a b, lex_leb by_ a b = true) df → sort_values by_ df = df.
Proof.
  induction 1 as [|x l Hs IH Hx]; [done|].
  change (sort_values by_ (x :: l)) with (insert_sorted (lex_leb by_) x (sort_values by_ l)).
  rewrite IH. destruct l as [|y l]; [done|]. simpl.
  apply Forall_cons in Hx as [-> _]. done.
Qed.

Lemma drop_duplicates_from_NoDup_id {R K} `{EqDecision K} (subset : R → K) seen (df : list R) :
  NoDup (subset <$> df) → (∀ r, r ∈ df → subset r ∉ seen) →
  drop_duplicates_from subset seen df = df.
Proof.
  revert seen. induction df as [|r df IH]; intros seen Hnd Hseen; simpl; [done|].
  rewrite fmap_cons in Hnd. apply NoDup_cons in Hnd as [Hr Hnd].
  rewrite decide_False by (apply Hseen; left). f_equal. apply IH; [done|].
  intros r' Hr' [Heq|Hin]%elem_of_cons.
  - apply Hr. rewrite <- Heq. apply list_elem_of_fmap. eauto.
  - apply (Hseen r'); [by right | done].
Qed.

Lemma drop_duplicates_NoDup_id {R K} `{EqDecision K} (subset : R → K) (df : list R) :
  NoDup (subset <$> df) → drop_duplicates subset df = df.
Proof.
  intros Hnd. apply drop_duplicates_from_NoDup_id; [done|].
  intros r _ Hin. by apply elem_of_nil in Hin.
Qed.

Lemma pm_by_module_sorted (pm_raw : list PmRow) :
  StronglySorted (λ a b, lex_leb [(pm_Id, true); (_score, false)] a b = true)
                 (pm_by_module pm_raw).
Proof.
  unfold pm_by_module. eapply StronglySorted_sublist_of; [|apply sort_values_sorted].
  apply drop_duplicates_from_sublist.
Qed.

(** X13. [pm_by_module] is in ascending [Id] order with a null [Id] last,
    strictly: no [Id] repeats.  Building the representative table from an
    already built one changes nothing. *)
Theorem pm_by_module_ordered_idempotent (pm_raw : list PmRow) :
  StronglySorted (λ a b, key_compare true (pm_Id a) (pm_Id b) = Lt) (pm_by_module pm_raw) ∧
  (∀ i j a b, (i < j)%nat → pm_by_module pm_raw !! i = Some a →
     pm_by_module pm_raw !! j = Some b →
     match pm_Id a, pm_Id b with
     | Some x, Some y => x < y
     | Some _, None => True
     | None, _ => False
     end) ∧
  pm_by_module (pm_by_module pm_raw) = pm_by_module pm_raw.
Proof.
  assert (StronglySorted (λ a b, key_compare true (pm_Id a) (pm_Id b) = Lt)
            (pm_by_module pm_raw)) as Hstrict.
  { pose proof (pm_by_module_sorted pm_raw) as Hs.
    pose proof (pm_by_module_NoDup pm_raw) as Hnd.
    induction Hs as [|x l Hs IH Hx]; [constructor|].
    rewrite fmap_cons in Hnd. apply NoDup_cons in Hnd as [Hni Hnd].
    constructor; [by apply IH|].
    apply Forall_forall. intros y Hy. rewrite Forall_forall in Hx.
    specialize (Hx y Hy). unfold lex_leb in Hx. simpl in Hx.
    destruct (key_compare true (pm_Id x) (pm_Id y)) eqn:Hc; [|done|done].
    apply key_compare_Eq in Hc. exfalso. apply Hni. rewrite Hc.
    apply list_elem_of_fmap. eauto. }
  split; [exact Hstrict|]. split.
  - intros i j a b Hij Ha Hb.
    destruct (list_elem_of_split_length _ _ _ Ha) as (l1 & l2 & Hl & Hi).
    rewrite Hl in Hstrict, Hb.
    apply StronglySorted_app_1_r, StronglySorted_cons in Hstrict as [Hall _].
    rewrite lookup_app_r in Hb by lia.
    destruct (j - length l1)%nat as [|n] eqn:Hn; [lia|]. simpl in Hb.
    rewrite Forall_forall in Hall.
    specialize (Hall b (list_elem_of_lookup_2 _ _ _ Hb)).
    destruct (pm_Id a), (pm_Id b); simpl in Hall; done.
  - unfold pm_by_module at 1.
    rewrite sort_values_sorted_id by apply pm_by_module_sorted.
    apply drop_duplicates_NoDup_id, pm_by_module_NoDup.
Qed.

(** ** Name resolution row by row *)

Section MergeRows.
Context {L R K J : Type} `{EqDecision K}.
Context (left_on : L → K) (right_on : R → K) (join : L → option R → J).

Lemma merge_left_inv (left : list L) (right : list R) (j : J) :
  j ∈ merge_left left_on right_on join left right →
  ∃ l, l ∈ left ∧
    ((filter (λ r, right_on r = left_on l) right = [] ∧ j = join l None) ∨
     (∃ r, r ∈ filter (λ r, right_on r = left_on l) right ∧ j = join l (Some r))).
Proof.
  induction left as [|l left IH]; [by intros ?%elem_of_nil|].
  rewrite merge_left_cons, elem_of_app. intros [Hj|Hj].
  - exists l. split; [left|].
    destruct (filter _ right) as [|m ms] eqn:Hf.
    + left. apply list_elem_of_singleton in Hj. done.
    + right. apply list_elem_of_fmap in Hj as (r & -> & Hr). eauto.
  - destruct (IH Hj) as (l' & Hl' & H'). exists l'. split; [by right | done].
Qed.

(** With one right row per key, the row attached is the first match. *)
Lemma merge_left_unique_inv (left : list L) (right : list R) (j : J) :
  NoDup (right_on <$> right) →
  j ∈ merge_left left_on right_on join left right →
  ∃ l, l ∈ left ∧ j = join l (head (filter (λ r, right_on r = left_on l) right)).
Proof.
  intros Hnd (l & Hl & Hj)%merge_left_inv. exists l. split; [done|].
  destruct Hj as [[-> ->]|(r & Hr & ->)]; [done|].
  pose proof (filter_key_NoDup right_on right (left_on l) Hnd) as Hlen.
  destruct (filter _ right) as [|m [|m' ms]]; simpl in *; [by apply elem_of_nil in Hr| |lia].
  by apply list_elem_of_singleton in Hr as ->.
Qed.
End MergeRows.

Lemma head_filter_drop_duplicates {R K} `{EqDecision K} (subset : R → K) (k : K) (df : list R) :
  head (filter (λ r, subset r = k) (drop_duplicates subset df))
    = head (filter (λ r, subset r = k) df).
Proof. rewrite drop_duplicates_filter. by destruct (filter _ df). Qed.

(** X14. Every resolved row is a selected step with, at each hop of the
    chain, the row of the loaded table that the hop's key finds: the
    representative process_module row of the step's [ProcessModuleId], then
    the first process row with that [ProcessId], the first category row with
    that [CategoryId], a bridge row with that [CategoryId] (none only when the
    bridge table has none), the first process_type row with that [TypeId],
    and the first run row with the step's [RunId].  A key that finds no row
    leaves the hop, and with it the name, missing. *)
Theorem resolve_names_first_match (T : Tables) (cs : list StepRow) (row : LocRow) :
  row ∈ resolve_names T cs →
  loc_step row ∈ cs ∧
  loc_pm row = head (filter (λ p, pm_Id p = ProcessModuleId (loc_step row))
                       (pm_by_module (t_process_module T))) ∧
  loc_process row = head (filter (λ p, proc_ProcessId p = loc_ProcessId row) (t_process T)) ∧
  loc_category row
    = head (filter (λ c, cat_CategoryId c = loc_CategoryId row) (t_process_category T)) ∧
  match loc_ptc row with
  | Some x => x ∈ t_process_type_category T ∧ ptc_CategoryId x = loc_CategoryId row
  | None => ∀ x, x ∈ t_process_type_category T → ptc_CategoryId x ≠ loc_CategoryId row
  end ∧
  loc_ptype row
    = head (filter (λ t, ptype_ProcessTypeId t = loc_TypeId row) (t_process_type T)) ∧
  loc_run row = head (filter (λ r, run_RunId r = loc_RunId row) (t_run T)).
Proof.
  unfold resolve_names.
  intros (l5 & Hl5 & ->)%merge_left_unique_inv; [|apply drop_duplicates_NoDup].
  apply merge_left_unique_inv in Hl5 as (l4 & Hl4 & ->); [|apply drop_duplicates_NoDup].
  apply merge_left_inv in Hl4 as (l3 & Hl3 & Hptc).
  assert (∃ p, l4 = with_ptc l3 p ∧
            match p with
            | Some x => x ∈ t_process_type_category T ∧ ptc_CategoryId x = loc_CategoryId l3
            | None => ∀ x, x ∈ t_process_type_category T →
                           ptc_CategoryId x ≠ loc_CategoryId l3
            end) as (p & -> & Hp).
  { destruct Hptc as [[Hnone ->]|(x & [Hk Hx]%list_elem_of_filter & ->)].
    - exists None. split; [done|]. intros x Hx Hk.
      assert (x ∈ filter (λ r, ptc_CategoryId r = loc_CategoryId l3)
                (drop_duplicates id (t_process_type_category T))) as Hin.
      { apply list_elem_of_filter. split; [exact Hk | by apply drop_duplicates_id_elem]. }
      rewrite Hnone in Hin. by apply elem_of_nil in Hin.
    - exists (Some x). split; [done|]. split; [|exact Hk].
      by apply (proj1 (drop_duplicates_id_elem _ _)). }
  apply merge_left_unique_inv in Hl3 as (l2 & Hl2 & ->); [|apply drop_duplicates_NoDup].
  apply merge_left_unique_inv in Hl2 as (l1 & Hl1 & ->); [|apply drop_duplicates_NoDup].
  apply merge_left_unique_inv in Hl1 as (s & Hs & ->); [|apply pm_by_module_NoDup].
  cbn [loc_step loc_pm loc_process loc_category loc_ptc loc_ptype loc_run
       with_pm with_process with_category with_ptc with_ptype with_run].
  rewrite !head_filter_drop_duplicates. rewrite ?head_filter_drop_duplicates in Hp.
  split; [done|]. split; [done|]. split; [done|]. split; [done|].
  split; [exact Hp|]. done.
Qed.

Lemma resolve_names_first_match_witness :
  let step := mkStepRow (mkRawStep (Some 7) (Some 50) None None None None None None None)
                None None (Some "Not Started") None in
  let first := mkRunRow (Some 7) (Some "B-7") (Some "first") None None None in
  let T := mkTables [first; mkRunRow (Some 7) (Some "B-7") (Some "second") None None None]
             (mkFrame [] [])
             [mkPmRow (Some 50) None None; mkPmRow (Some 50) (Some 9) None]
             [mkProcessRow (Some 9) (Some "Coating") (Some 3)] [] [] [] in
  let row := mkLocRow step (Some (mkPmRow (Some 50) (Some 9) None))
               (Some (mkProcessRow (Some 9) (Some "Coating") (Some 3)))
               None None None (Some first) in
  row ∈ resolve_names T [step] ∧
  loc_run row = head (filter (λ r, run_RunId r = loc_RunId row) (t_run T)).
Proof.
  intros step first T row.
  assert (row ∈ resolve_names T [step]) as Hrow by (vm_compute; left).
  split; [exact Hrow|]. apply (resolve_names_first_match T [step] row Hrow).
Defined.

(** X15. When no two different bridge rows share a [CategoryId], name
    resolution returns the selected steps themselves, one resolved row per
    step, in the order they were selected. *)
Theorem resolve_names_keeps_steps (T : Tables) (cs : list StepRow) :
  (∀ a b, a ∈ t_process_type_category T → b ∈ t_process_type_category T →
          ptc_CategoryId a = ptc_CategoryId b → a = b) →
  loc_step <$> resolve_names T cs = cs ∧ length (resolve_names T cs) = length cs.
Proof.
  intros Hptc.
  assert (loc_step <$> resolve_names T cs = cs) as Heq.
  { unfold resolve_names.
    rewrite (merge_left_unique _ _ _ loc_step loc_step)
      by (done || apply drop_duplicates_NoDup).
    rewrite (merge_left_unique _ _ _ loc_step loc_step)
      by (done || apply drop_duplicates_NoDup).
    rewrite (merge_left_unique _ _ _ loc_step loc_step).
    - rewrite (merge_left_unique _ _ _ loc_step loc_step)
        by (done || apply drop_duplicates_NoDup).
      rewrite (merge_left_unique _ _ _ loc_step loc_step)
        by (done || apply drop_duplicates_NoDup).
      rewrite (merge_left_unique _ _ _ loc_step id) by (done || apply pm_by_module_NoDup).
      apply list_fmap_id.
    - done.
    - apply NoDup_fmap_2_strong; [|apply drop_duplicates_id_NoDup].
      intros a b Ha Hb Hab.
      apply (proj1 (drop_duplicates_id_elem _ _)) in Ha, Hb. by apply Hptc. }
  split; [exact Heq|]. by rewrite <- Heq at 2; rewrite length_fmap.
Qed.

Lemma resolve_names_keeps_steps_witness :
  let step n := mkStepRow (mkRawStep (Some n) (Some 50) None None None None None None None)
                  None None (Some "Not Started") None in
  let T := mkTables [] (mkFrame [] [])
             [mkPmRow (Some 50) (Some 9) None]
             [mkProcessRow (Some 9) (Some "Coating") (Some 3)] []
             [mkPtcRow (Some 1) (Some 3); mkPtcRow (Some 2) (Some 4)] [] in
  loc_step <$> resolve_names T [step 2; step 1] = [step 2; step 1].
Proof.
  intros step T. apply (resolve_names_keeps_steps T [step 2; step 1]).
  intros a b Ha Hb. simpl in Ha, Hb.
  repeat (apply elem_of_cons in Ha as [->|Ha]); try (by apply elem_of_nil in Ha);
  repeat (apply elem_of_cons in Hb as [->|Hb]); try (by apply elem_of_nil in Hb);
    simpl; congruence.
Defined.

(** ** Ties on the ordinal rung *)

Lemma lex_compare_refl {R} (by_ : list (sort_key R)) (a : R) : lex_compare by_ a a = Eq.
Proof.
  induction by_ as [|[col asc] rest IH]; simpl; [done|]. by rewrite key_compare_refl.
Qed.

Lemma lex_compare_Eq_leb {R} (by_ : list (sort_key R)) (a b r : R) :
  lex_compare by_ a r = Eq → lex_compare by_ b r = Eq → lex_leb by_ a b = true.
Proof.
  intros Ha Hb. apply (lex_leb_trans by_ a r b); unfold lex_leb.
  - by rewrite Ha.
  - by rewrite (lex_compare_antisym by_ b r), Hb.
Qed.

(** Rows that compare equal keep their row order through the stable sort. *)
Lemma sort_values_ties {R} (by_ : list (sort_key R)) (r : R) (df : list R) :
  filter (λ x, lex_compare by_ x r = Eq) (sort_values by_ df)
    = filter (λ x, lex_compare by_ x r = Eq) df.
Proof.
  rewrite filter_sort_values. apply sort_values_sorted_id.
  induction df as [|x df IH]; [constructor|].
  rewrite filter_cons. destruct (decide _) as [Hx|Hx]; [|exact IH].
  constructor; [exact IH|]. apply Forall_forall.
  intros y [Hy _]%list_elem_of_filter. by apply (lex_compare_Eq_leb by_ x y r).
Qed.

(** X17. On the ordinal rung (no row of the run has an [updated_at] and an
    ordinal column is carried) the selected row has the greatest ordinal key
    of the run, and among the rows that tie on that key it is the last one in
    row order: the stable sort keeps tied rows in row order and the last row
    of the sort is taken. *)
Theorem ordinal_rung_last_of_ties (g : Frame StepRow) :
  let sk := filter (λ c, c ∈ columns g) ["__batch_index"; "__fragment_index"] in
  let by_ := (λ c, (numeric_column c, true)) <$> sk in
  (∀ r, r ∈ rows g → updated_at r = None) → sk ≠ [] → rows g ≠ [] →
  ∃ r, _pick_current g = Returns [r] ∧
       (∀ r', r' ∈ rows g → lex_leb by_ r' r = true) ∧
       last (filter (λ x, lex_compare by_ x r = Eq) (rows g)) = Some r.
Proof.
  intros sk by_ Hnone Hsk Hne.
  destruct (pick_current_ordinal_rung g Hnone Hsk Hne) as (r & Hpick & Hlast & Hmax).
  exists r. split; [done|]. split; [done|].
  fold sk in Hlast. fold by_ in Hlast.
  rewrite <- (sort_values_ties by_ r (rows g)).
  apply last_Some in Hlast as [l' ->].
  rewrite filter_app, filter_cons_True by apply lex_compare_refl.
  by rewrite filter_nil, last_snoc.
Qed.

Lemma ordinal_rung_last_of_ties_witness :
  let row pm b := mkStepRow (mkRawStep (Some 5) (Some pm) None None None None None (Some b) None)
                    None None (Some "Not Started") None in
  _pick_current (mkFrame ["RunId"; "ProcessModuleId"; "__batch_index"]
                         [row 1 4; row 2 9; row 3 9; row 4 2])
    = Returns [row 3 9].
Proof.
  intros row.
  destruct (ordinal_rung_last_of_ties (mkFrame ["RunId"; "ProcessModuleId"; "__batch_index"]
                                         [row 1 4; row 2 9; row 3 9; row 4 2]))
    as (r & Hpick & _ & _).
  - intros r Hr. simpl in Hr.
    repeat (apply elem_of_cons in Hr as [->|Hr]; [done|]). by apply elem_of_nil in Hr.
  - vm_compute. discriminate.
  - discriminate.
  - rewrite Hpick. vm_compute in Hpick. injection Hpick as <-. reflexivity.
Defined.

(** ** The invocation after discovery *)

Lemma step_bind_inv {A B} (m : Step A) (k : A → Step B) (b : B) :
  (m ≫= k).1 = Returns b → ∃ a, m.1 = Returns a ∧ (k a).1 = Returns b.
Proof. unfold mbind, Step_bind. destruct m as [[a|] ev]; simpl; [eauto | done]. Qed.

Lemma elem_of_rename (mapping : list (string * string)) (cols : list string) (x : string) :
  x ∈ rename mapping cols ↔
  ∃ c, c ∈ cols ∧ x = from_option snd c (head (filter (λ m, m.1 = c) mapping)).
Proof.
  unfold rename. rewrite list_elem_of_fmap. split; intros (c & ? & ?); eauto.
Qed.

Lemma pm_by_module_columns_inv (pm_raw cols : list string) :
  pm_by_module_columns pm_raw = Returns cols →
  cols = pm_raw ∧ "ProcessId" ∈ pm_raw ∧ "Id" ∈ pm_raw.
Proof.
  unfold pm_by_module_columns.
  intros (u & Hp & (v & Hs & (w & Hi & [= <-])%outcome_bind_inv)%outcome_bind_inv)%outcome_bind_inv.
  pose proof (require_inv _ _ _ Hp "ProcessId") as Hp'.
  pose proof (require_inv _ _ _ Hi "Id") as Hi'.
  split; [done|]. split; [apply Hp'; left|].
  specialize (Hi' ltac:(left)). apply elem_of_app in Hi' as [?|Hi']; [done|].
  by apply list_elem_of_singleton in Hi'.
Qed.

Section ReaderColumns.
Context {Cell Blob Table : Type}.
Variable SESSION_get : string → outcome (Z * Blob).
Variable pq_ParquetFile : Blob → outcome (@ParquetFile Table).
Variable to_pandas : Table → outcome (DataFrame Cell).

(** The reader hands back requested columns only. *)
Lemma reader_columns (blob_name name : string) (columns : list string) (c : string) :
  columns ≠ [] →
  c ∈ df_columns (read_parquet_subset SESSION_get pq_ParquetFile to_pandas
                    blob_name name columns) →
  c ∈ columns.
Proof.
  intros Hne. unfold df_columns. intros (col & -> & Hcol)%list_elem_of_fmap. revert Hcol.
  assert (∀ x : string * list Cell, x ∈ empty_frame columns → x.1 ∈ columns) as Hempty.
  { unfold empty_frame. by intros x (y & -> & Hy)%list_elem_of_fmap. }
  unfold read_parquet_subset, read_parquet_subset_body, download_blob_to_memory.
  destruct (SESSION_get blob_name) as [[status content]|]; simpl; [|apply Hempty].
  destruct (Z.eqb_spec status 200) as [->|Hs]; simpl; [|apply Hempty].
  destruct (pq_ParquetFile content) as [pf|]; simpl; [|apply Hempty].
  destruct (read_request columns (schema_arrow pf)) as [request|]; simpl; [|apply Hempty].
  destruct (read pf request) as [table|]; simpl; [|apply Hempty].
  destruct (to_pandas table) as [df|]; simpl; [|apply Hempty].
  by intros [? _]%restrict_columns_source.
Qed.
End ReaderColumns.

Section InvocationFacts.
Context {Cell Blob Table : Type}.
Variable SESSION_get : string → outcome (Z * Blob).
Variable pq_ParquetFile : Blob → outcome (@ParquetFile Table).
Variable to_pandas : Table → outcome (DataFrame Cell).
Variable as_run : DataFrame Cell → list RunRow.
Variable as_run_step : DataFrame Cell → Frame RawStep.
Variable as_process_module : DataFrame Cell → list PmRow.
Variable as_process : DataFrame Cell → list ProcessRow.
Variable as_process_category : DataFrame Cell → list CategoryRow.
Variable as_process_type_category : DataFrame Cell → list PtcRow.
Variable as_process_type : DataFrame Cell → list PTypeRow.
Variable to_datetime : string → option Z.
Variable to_timedelta : string → option Z.
Variable timestamp_str : Z → string.

(** The frame read for a table. *)
Local Abbreviation frame selected tbl name cols :=
  (read_parquet_subset SESSION_get pq_ParquetFile to_pandas
     (default "" (selected !! tbl)) name cols).

Lemma read_table_inv (selected : gmap string string) (tbl name : string)
    (cols : list string) (df : DataFrame Cell) :
  (read_table SESSION_get pq_ParquetFile to_pandas selected tbl name cols).1 = Returns df →
  df = frame selected tbl name cols.
Proof. by intros [= <-]. Qed.

(** Unfolds the membership of a name in a literal list into its cases. *)
Local Ltac cases_in H :=
  repeat (apply elem_of_cons in H as [H|H]); [..|by apply elem_of_nil in H].

(** A name found among renamed columns, traced back to the column of the
    file: [Hsub] bounds the columns of the file by the requested ones. *)
Local Ltac trace_back H Hsub :=
  let c := fresh "c" in
  let Hc := fresh "Hc" in
  let Heq := fresh "Heq" in
  apply elem_of_rename in H as (c & Hc & Heq);
  let Hreq := fresh "Hreq" in
  pose proof (Hsub _ Hc) as Hreq;
  cases_in Hreq; subst c; try discriminate Heq; try exact Hc.

(** Steps 2 and 3 only return when every frame carries the columns that are
    looked up in it. *)
Lemma steps_2_and_3_inv (selected : gmap string string) (batches : list Batch) :
  (steps_2_and_3 SESSION_get pq_ParquetFile to_pandas as_run as_run_step as_process_module
     as_process as_process_category as_process_type_category as_process_type
     to_datetime to_timedelta timestamp_str selected).1 = Returns batches →
  (∀ c, c ∈ ["Id"; "Label"; "Name"; "Motivation"; "Status"] →
        c ∈ df_columns (frame selected "run" "run"
                          ["Id"; "Label"; "Name"; "Motivation"; "Status"; "RunTypeId"])) ∧
  (∀ c, c ∈ ["RunId"; "ProcessModuleId"] →
        c ∈ df_columns (frame selected "run_step" "run_step" ["RunId"; "ProcessModuleId"])) ∧
  (∀ c, c ∈ ["Id"; "CategoryId"] →
        c ∈ df_columns (frame selected "process" "process" ["Id"; "Name"; "CategoryId"])) ∧
  (∀ c, c ∈ ["Id"] →
        c ∈ df_columns (frame selected "process_category" "process_category"
                          ["Id"; "Name"])) ∧
  (∀ c, c ∈ ["TypeId"; "CategoryId"] →
        c ∈ df_columns (frame selected "process_type_category" "process_type_category"
                          ["TypeId"; "CategoryId"])) ∧
  (∀ c, c ∈ ["Id"] →
        c ∈ df_columns (frame selected "process_type" "process_type" ["Id"; "Name"])) ∧
  (∀ c, c ∈ ["Id"; "ProcessId"; "ModuleId"] →
        c ∈ df_columns (frame selected "process_module" "process_module"
                          ["Id"; "ProcessId"; "ModuleId"])) ∧
  (∀ c, c ∈ ["RunId"; "ProcessModuleId"] →
        c ∈ df_columns (frame selected "run_step" "run_step_for_status" rs_cols_desired)).
Proof.
  unfold steps_2_and_3. intros Hs.
  apply step_bind_inv in Hs as (run & Hrun%read_table_inv & Hs).
  apply step_bind_inv in Hs as (u1 & Hrun_id & Hs).
  apply step_bind_inv in Hs as (run_step & Hrun_step%read_table_inv & Hs).
  apply step_bind_inv in Hs as (process_tbl & Hprocess%read_table_inv & Hs).
  apply step_bind_inv in Hs as (u2 & Hprocess_id & Hs).
  apply step_bind_inv in Hs as (process_category & Hcategory%read_table_inv & Hs).
  apply step_bind_inv in Hs as (u3 & Hcategory_id & Hs).
  apply step_bind_inv in Hs as (ptc & Hptc%read_table_inv & Hs).
  apply step_bind_inv in Hs as (process_type & Htype%read_table_inv & Hs).
  apply step_bind_inv in Hs as (u4 & Htype_id & Hs).
  apply step_bind_inv in Hs as (pm_raw & Hpm%read_table_inv & Hs).
  apply step_bind_inv in Hs as (pm_cols & (-> & Hpm_pid & Hpm_id)%pm_by_module_columns_inv & Hs).
  apply step_bind_inv in Hs as (u5 & Hjoins & Hs).
  apply step_bind_inv in Hs as (rs_basic & _ & Hs).
  apply step_bind_inv in Hs as (rs & Hrs%read_table_inv & Hs).
  (* what each frame can hold *)
  assert (∀ c, c ∈ df_columns run →
               c ∈ ["Id"; "Label"; "Name"; "Motivation"; "Status"; "RunTypeId"]) as Srun
    by (intros c; rewrite Hrun; by apply reader_columns).
  assert (∀ c, c ∈ df_columns run_step → c ∈ ["RunId"; "ProcessModuleId"]) as Srun_step
    by (intros c; rewrite Hrun_step; by apply reader_columns).
  assert (∀ c, c ∈ df_columns process_tbl → c ∈ ["Id"; "Name"; "CategoryId"]) as Sprocess
    by (intros c; rewrite Hprocess; by apply reader_columns).
  assert (∀ c, c ∈ df_columns process_category → c ∈ ["Id"; "Name"]) as Scategory
    by (intros c; rewrite Hcategory; by apply reader_columns).
  assert (∀ c, c ∈ df_columns ptc → c ∈ ["TypeId"; "CategoryId"]) as Sptc
    by (intros c; rewrite Hptc; by apply reader_columns).
  assert (∀ c, c ∈ df_columns process_type → c ∈ ["Id"; "Name"]) as Stype
    by (intros c; rewrite Htype; by apply reader_columns).
  assert (∀ c, c ∈ df_columns pm_raw → c ∈ ["Id"; "ProcessId"; "ModuleId"]) as Spm
    by (intros c; rewrite Hpm; by apply reader_columns).
  (* step 3 *)
  simpl in Hs. unfold location_batches in Hs.
  destruct (location_rows _ _ _ _) as [located|] eqn:Hloc; [|done]. clear Hs.
  apply location_rows_inv in Hloc
    as (derived & cs & _ & _ & _ & _ & Hrs_run & Hrs_pm & Hpm3 & Hrun5).
  simpl in Hrs_run, Hrs_pm, Hpm3, Hrun5.
  (* the joins *)
  simpl in Hjoins. unfold joins in Hjoins. simpl in Hjoins.
  apply outcome_bind_inv in Hjoins as (j1 & (Hj1l & _ & ->)%merge_left_right_inv & Hjoins).
  apply outcome_bind_inv in Hjoins as (j2 & (_ & _ & ->)%merge_on_inv & Hjoins).
  apply outcome_bind_inv in Hjoins as (j3 & (Hj3l & _ & ->)%merge_on_inv & Hjoins).
  apply outcome_bind_inv in Hjoins as (j4 & (_ & Hj4r & ->)%merge_on_inv & Hjoins).
  apply outcome_bind_inv in Hjoins as (j5 & (Hj5l & _ & ->)%merge_left_right_inv & Hjoins).
  apply outcome_bind_inv in Hjoins as (j6 & (Hj6l & _ & _)%merge_on_inv & _).
  rewrite <- Hrun, <- Hrun_step, <- Hprocess, <- Hcategory, <- Hptc, <- Htype, <- Hpm, <- Hrs.
  clear Hrun Hrun_step Hprocess Hcategory Hptc Htype Hpm Hrs.
  pose proof (require_inv _ _ _ Hrun_id "RunId" ltac:(left)) as Hrun_id'.
  pose proof (require_inv _ _ _ Hprocess_id "ProcessId" ltac:(left)) as Hprocess_id'.
  pose proof (require_inv _ _ _ Hcategory_id "CategoryId" ltac:(left)) as Hcategory_id'.
  pose proof (require_inv _ _ _ Htype_id "ProcessTypeId" ltac:(left)) as Htype_id'.
  repeat split.
  - intros c Hc. cases_in Hc; subst c.
    + trace_back Hrun_id' Srun.
    + pose proof (Hrun5 "Label" ltac:(right; left)) as Hx. trace_back Hx Srun.
    + pose proof (Hrun5 "Name" ltac:(do 2 right; left)) as Hx. trace_back Hx Srun.
    + pose proof (Hrun5 "Motivation" ltac:(do 3 right; left)) as Hx. trace_back Hx Srun.
    + pose proof (Hrun5 "Status" ltac:(do 4 right; left)) as Hx. trace_back Hx Srun.
  - intros c Hc. cases_in Hc; subst c; [|done].
    rewrite !elem_of_app, !list_elem_of_filter in Hj6l.
    destruct Hj6l as [[[[[Hx|Hx]|[_ Hx]]|[_ Hx]]|[_ Hx]]|Hx]; [done|..].
    + apply Spm in Hx. cases_in Hx; discriminate Hx.
    + trace_back Hx Sprocess.
    + trace_back Hx Scategory.
    + apply Sptc in Hx. cases_in Hx; discriminate Hx.
    + trace_back Hx Stype.
  - intros c Hc. cases_in Hc; subst c; [trace_back Hprocess_id' Sprocess|].
    rewrite !elem_of_app, !list_elem_of_filter in Hj3l.
    destruct Hj3l as [[Hx|Hx]|[_ Hx]].
    + apply Srun_step in Hx. cases_in Hx; discriminate Hx.
    + apply Spm in Hx. cases_in Hx; discriminate Hx.
    + trace_back Hx Sprocess.
  - intros c ->%list_elem_of_singleton. trace_back Hcategory_id' Scategory.
  - intros c Hc. cases_in Hc; subst c; [|done].
    rewrite !elem_of_app, !list_elem_of_filter in Hj5l.
    destruct Hj5l as [[[[Hx|Hx]|[_ Hx]]|[_ Hx]]|[_ Hx]]; [..|done].
    + apply Srun_step in Hx. cases_in Hx; discriminate Hx.
    + apply Spm in Hx. cases_in Hx; discriminate Hx.
    + trace_back Hx Sprocess.
    + trace_back Hx Scategory.
  - intros c ->%list_elem_of_singleton. trace_back Htype_id' Stype.
  - exact Hpm3.
  - intros c Hc. cases_in Hc; by subst c.
Qed.

(** The records of a successful invocation are those of step 3 on the
    frames that were read. *)
Lemma steps_2_and_3_records (selected : gmap string string) (batches : list Batch) :
  (steps_2_and_3 SESSION_get pq_ParquetFile to_pandas as_run as_run_step as_process_module
     as_process as_process_category as_process_type_category as_process_type
     to_datetime to_timedelta timestamp_str selected).1 = Returns batches →
  ∃ H,
    location_batches to_datetime to_timedelta timestamp_str H
      (mkTables
         (as_run (frame selected "run" "run"
                    ["Id"; "Label"; "Name"; "Motivation"; "Status"; "RunTypeId"]))
         (let rs := frame selected "run_step" "run_step_for_status" rs_cols_desired in
          mkFrame (df_columns rs) (rows (as_run_step rs)))
         (as_process_module (frame selected "process_module" "process_module"
                               ["Id"; "ProcessId"; "ModuleId"]))
         (as_process (frame selected "process" "process" ["Id"; "Name"; "CategoryId"]))
         (as_process_category (frame selected "process_category" "process_category"
                                 ["Id"; "Name"]))
         (as_process_type_category
            (frame selected "process_type_category" "process_type_category"
               ["TypeId"; "CategoryId"]))
         (as_process_type (frame selected "process_type" "process_type" ["Id"; "Name"])))
    = Returns batches.
Proof.
  unfold steps_2_and_3. intros Hs.
  apply step_bind_inv in Hs as (run & ->%read_table_inv & Hs).
  apply step_bind_inv in Hs as (u1 & _ & Hs).
  apply step_bind_inv in Hs as (run_step & ->%read_table_inv & Hs).
  apply step_bind_inv in Hs as (process_tbl & ->%read_table_inv & Hs).
  apply step_bind_inv in Hs as (u2 & _ & Hs).
  apply step_bind_inv in Hs as (process_category & ->%read_table_inv & Hs).
  apply step_bind_inv in Hs as (u3 & _ & Hs).
  apply step_bind_inv in Hs as (ptc & ->%read_table_inv & Hs).
  apply step_bind_inv in Hs as (process_type & ->%read_table_inv & Hs).
  apply step_bind_inv in Hs as (u4 & _ & Hs).
  apply step_bind_inv in Hs as (pm_raw & ->%read_table_inv & Hs).
  apply step_bind_inv in Hs as (pm_cols & _ & Hs).
  apply step_bind_inv in Hs as (u5 & _ & Hs).
  apply step_bind_inv in Hs as (rs_basic & _ & Hs).
  apply step_bind_inv in Hs as (rs & ->%read_table_inv & Hs).
  eexists. exact Hs.
Qed.
End InvocationFacts.

(** X16. Locating a blob for every table does not yet make the invocation
    succeed: whenever the frame read for one of the tables lacks a column that
    steps 2 and 3 look up unconditionally (for instance a run file without
    [Motivation], or a run_step file without [RunId]), the invocation answers
    with the payload of the outer [except] and status 500, and produces no
    record.  The reader hands back a frame without the column instead of
    failing, and the lookup then raises. *)
Theorem missing_column_answers_500 {Cell Blob Table : Type}
    (listing : list string) (head_status get_status : string → Z)
    (SESSION_get : string → outcome (Z * Blob))
    (pq_ParquetFile : Blob → outcome (@ParquetFile Table))
    (to_pandas : Table → outcome (DataFrame Cell))
    (as_run : DataFrame Cell → list RunRow)
    (as_run_step : DataFrame Cell → Frame RawStep)
    (as_process_module : DataFrame Cell → list PmRow)
    (as_process : DataFrame Cell → list ProcessRow)
    (as_process_category : DataFrame Cell → list CategoryRow)
    (as_process_type_category : DataFrame Cell → list PtcRow)
    (as_process_type : DataFrame Cell → list PTypeRow)
    (to_datetime to_timedelta : string → option Z) (timestamp_str : Z → string)
    (selected : gmap string string) (ev : list Event)
    (tbl : string) (cols needs : list string) (c : string) :
  discover head_status get_status listing (sorted (elements NEEDED)) ∅ = (inr selected, ev) →
  let frame tbl name cols :=
    read_parquet_subset SESSION_get pq_ParquetFile to_pandas
      (default "" (selected !! tbl)) name cols in
  ((tbl, cols, needs) ∈
     [("run", ["Id"; "Label"; "Name"; "Motivation"; "Status"; "RunTypeId"],
              ["Id"; "Label"; "Name"; "Motivation"; "Status"]);
      ("run_step", ["RunId"; "ProcessModuleId"], ["RunId"; "ProcessModuleId"]);
      ("process", ["Id"; "Name"; "CategoryId"], ["Id"; "CategoryId"]);
      ("process_category", ["Id"; "Name"], ["Id"]);
      ("process_type_category", ["TypeId"; "CategoryId"], ["TypeId"; "CategoryId"]);
      ("process_type", ["Id"; "Name"], ["Id"]);
      ("process_module", ["Id"; "ProcessId"; "ModuleId"], ["Id"; "ProcessId"; "ModuleId"])] ∧
   c ∈ needs ∧ c ∉ df_columns (frame tbl tbl cols)) ∨
  (c ∈ ["RunId"; "ProcessModuleId"] ∧
   c ∉ df_columns (frame "run_step" "run_step_for_status" rs_cols_desired)) →
  ∃ ev',
    get_current_batch_location listing head_status get_status SESSION_get pq_ParquetFile
      to_pandas as_run as_run_step as_process_module as_process as_process_category
      as_process_type_category as_process_type to_datetime to_timedelta timestamp_str
    = (Crashed 500, (ev ++ ev')%list).
Proof.
  intros Hd frame Hmiss. unfold get_current_batch_location. rewrite Hd.
  destruct (steps_2_and_3 _ _ _ _ _ _ _ _ _ _ _ _ _ selected) as [r ev'] eqn:Hsteps.
  exists ev'. destruct r as [batches|]; [exfalso | done].
  assert ((steps_2_and_3 SESSION_get pq_ParquetFile to_pandas as_run as_run_step
             as_process_module as_process as_process_category as_process_type_category
             as_process_type to_datetime to_timedelta timestamp_str selected).1
          = Returns batches) as Hret by (by rewrite Hsteps).
  apply steps_2_and_3_inv in Hret
    as (Hrun & Hrun_step & Hprocess & Hcategory & Hptc & Htype & Hpm & Hrs).
  destruct Hmiss as [(Hin & Hc & Hno)|[Hc Hno]]; [|by apply Hno, Hrs].
  repeat (apply elem_of_cons in Hin as [[= -> -> ->]|Hin]; [apply Hno; auto|]).
  by apply elem_of_nil in Hin.
Qed.

(** A run file that carries every requested column but [Motivation], every
    other file complete: all seven tables are located, and the answer is
    500. *)
Lemma missing_column_answers_500_witness :
  let ok := (λ _ : string, 200) in
  let stored (blob : string) : DataFrame Z :=
    if String.eqb blob "run.parquet"
    then [("Id", [7]); ("Label", [1]); ("Name", [2]); ("Status", [3]); ("RunTypeId", [4])]
    else [("Id", [50]); ("Name", [5]); ("RunId", [7]); ("ProcessModuleId", [50]);
          ("ProcessId", [9]); ("ModuleId", [4]); ("CategoryId", [3]); ("TypeId", [1])] in
  let SESSION_get := (λ blob : string, Returns (200, stored blob)) in
  let pq_ParquetFile := (λ content : DataFrame Z, Returns (pyarrow_file content)) in
  let to_pandas := (λ t : DataFrame Z, Returns t) in
  ∃ ev, (get_current_batch_location [] ok ok SESSION_get pq_ParquetFile to_pandas
           (λ _, []) (λ df, mkFrame (df_columns df) []) (λ _, []) (λ _, []) (λ _, [])
           (λ _, []) (λ _, []) PandasText.to_datetime PandasText.to_timedelta pretty)
        = (Crashed 500, ev).
Proof.
  intros ok stored SESSION_get pq_ParquetFile to_pandas.
  assert (match (discover ok ok [] (sorted (elements NEEDED)) ∅).1 with
          | inl _ => False
          | inr selected => selected !! "run" = Some "run.parquet"
          end) as Hfound by (vm_compute; reflexivity).
  destruct (discover ok ok [] (sorted (elements NEEDED)) ∅) as [[tbl|selected] ev] eqn:Hd;
    [destruct Hfound|]. simpl in Hfound.
  destruct (missing_column_answers_500 [] ok ok SESSION_get pq_ParquetFile to_pandas
              (λ _, []) (λ df, mkFrame (df_columns df) []) (λ _, []) (λ _, []) (λ _, [])
              (λ _, []) (λ _, []) PandasText.to_datetime PandasText.to_timedelta pretty
              selected ev "run" ["Id"; "Label"; "Name"; "Motivation"; "Status"; "RunTypeId"]
              ["Id"; "Label"; "Name"; "Motivation"; "Status"] "Motivation" Hd)
    as [ev' Hev'].
  - left. split; [left|]. split; [do 3 right; left|].
    rewrite Hfound. vm_compute. intros Hin.
    repeat (apply elem_of_cons in Hin as [[=]|Hin]). by apply elem_of_nil in Hin.
  - eauto.
Defined.
